(** * Support-ticket triage engine: a shallow embedding of the backend

    The development follows the JavaScript sources of the repository:

    - [sentiment.js]        -> Module [Sentiment]
    - [sla.js]              -> Module [Sla]
    - [faqService.js]       -> Module [FaqService] (cosine similarity, checkFaq)
    - [caseMemory.js]       -> Module [CaseMemory] (indexCase, searchSimilarCases)
    - [formatCaseMemory.js] -> only its call site is kept (the reply text is a
                               collaborator of the chat route)
    - [server.js]           -> Module [Server] (lock helpers, routes)

    JavaScript numbers are IEEE-754 doubles; they are modelled by Rocq's
    primitive binary64 floats wherever the code computes with fractions
    (sentiment scores, similarities).  Identifiers, counters and clock values
    are integers and are modelled by [N] and [Z].  Strings are byte strings;
    [toLowerCase] folds the ASCII letters only. *)

From Stdlib Require Import Floats ZArith NArith Reals Lra.
From stdpp Require Import base option list sorting strings pretty gmap.

Set Warnings "-inexact-float".

(* ===================================================================== *)
(** * JavaScript string primitives used by the sources *)
(* ===================================================================== *)

Module Js.

(** [c.toLowerCase()] on one ASCII character: 'A'..'Z' are shifted by 32. *)
Definition lower_ascii (c : Ascii.ascii) : Ascii.ascii :=
  let n := Ascii.nat_of_ascii c in
  if (65 <=? n)%nat && (n <=? 90)%nat then Ascii.ascii_of_nat (n + 32) else c.

(** [s.toLowerCase()] on the bytes of the string: the letters A to Z are
    folded and every other byte is kept.  This is
    [String.prototype.toLowerCase] on ASCII text; on other text JavaScript
    also folds the non-ASCII letters, two of them to ASCII ones (U+212A to
    [k], U+0130 to [i] followed by U+0307). *)
Fixpoint toLowerCase (s : string) : string :=
  match s with
  | EmptyString => EmptyString
  | String c s' => String (lower_ascii c) (toLowerCase s')
  end.

(** [t.includes(w)]: [w] occurs in [t] as a contiguous substring. *)
Fixpoint includes (t w : string) : bool :=
  String.prefix w t ||
  match t with
  | EmptyString => false
  | String _ t' => includes t' w
  end.

(** [xs.some(p)] *)
Definition some {A} (p : A → bool) (xs : list A) : bool := existsb p xs.

(** [s.slice(0, n)] for a non-negative [n]: the first [n] characters, a
    character being a byte here and a UTF-16 code unit in JavaScript; the
    two agree on ASCII text. *)
Fixpoint slice0 (n : nat) (s : string) : string :=
  match n, s with
  | O, _ => EmptyString
  | S _, EmptyString => EmptyString
  | S n', String c s' => String c (slice0 n' s')
  end.

(** Truthiness of a string: only the empty string is falsy. *)
Definition truthy_string (s : string) : bool :=
  match s with EmptyString => false | _ => true end.

(** [a || b] on strings. *)
Definition or_string (a b : string) : string :=
  if truthy_string a then a else b.

End Js.

(* ===================================================================== *)
(** * Enumerations of the data model *)
(* ===================================================================== *)

(** [enum: ["E-commerce", "Travel", "Telecommunications", "Banking Services"]] *)
Inductive Domain := ECommerce | Travel | Telecommunications | BankingServices.
(** [enum: ["high", "low"]] *)
Inductive Priority := high | low.
(** [enum: ["open", "in-progress", "resolved"]] *)
Inductive Status := open | in_progress | resolved.
(** Labels returned by [analyzeSentiment]. *)
Inductive Label := angry | neutral | cool.
(** Levels returned by [computeSLA]. *)
Inductive Level := express | standard | batched.

#[global] Instance Domain_eq_dec : EqDecision Domain.
Proof. solve_decision. Defined.
#[global] Instance Priority_eq_dec : EqDecision Priority.
Proof. solve_decision. Defined.
#[global] Instance Status_eq_dec : EqDecision Status.
Proof. solve_decision. Defined.
#[global] Instance Label_eq_dec : EqDecision Label.
Proof. solve_decision. Defined.
#[global] Instance Level_eq_dec : EqDecision Level.
Proof. solve_decision. Defined.

(* ===================================================================== *)
(** * sentiment.js *)
(* ===================================================================== *)

Module Sentiment.

Definition ANGER_WORDS : list string :=
  [ "angry"; "furious"; "frustrated"; "worst"; "nonsense"; "cheated";
    "wtf"; "hate"; "mad"; "ridiculous"; "disgusting"; "scam"; "fraud";
    "terrible"; "immediately" ]%string.

Definition CALM_WORDS : list string :=
  [ "please"; "thank"; "thanks"; "could you"; "may i"; "no hurry";
    "whenever"; "take your time"; "ok"; "cool"; "fine" ]%string.

Record result := { label : Label; score : float }.

(** [Math.min] and [Math.max] on doubles (a NaN operand gives NaN). *)
Definition Math_min (x y : float) : float :=
  if PrimFloat.is_nan x || PrimFloat.is_nan y then PrimFloat.nan
  else if PrimFloat.ltb y x then y else x.
Definition Math_max (x y : float) : float :=
  if PrimFloat.is_nan x || PrimFloat.is_nan y then PrimFloat.nan
  else if PrimFloat.ltb x y then y else x.

(** The score before clamping, accumulated in source order. *)
Definition rawScore (text : string) : float :=
  let t := Js.toLowerCase text in
  let score := 0%float in
  (* for (const w of ANGER_WORDS) if (t.includes(w)) score -= 1; *)
  let score :=
    foldl (fun s w => if Js.includes t w then (s - 1)%float else s)
          score ANGER_WORDS in
  (* for (const w of CALM_WORDS) if (t.includes(w)) score += 0.6; *)
  let score :=
    foldl (fun s w => if Js.includes t w then (s + 0.6)%float else s)
          score CALM_WORDS in
  let score :=
    if Js.includes t "!!!" || Js.includes t "?!?!"
    then (score - 0.6)%float else score in
  let score := if Js.includes t ":)" then (score + 0.3)%float else score in
  let score := if Js.includes t ":(" then (score - 0.3)%float else score in
  score.

(** [if (score <= -0.8) label = "angry"; else if (score >= 0.6) label = "cool"] *)
Definition labelOf (score : float) : Label :=
  if PrimFloat.leb score (-0.8)%float then angry
  else if PrimFloat.leb 0.6%float score then cool
  else neutral.

Definition analyzeSentiment (text : string) : result :=
  let score := rawScore text in
  {| label := labelOf score;
     score := Math_max (-1)%float (Math_min 1%float score) |}.

End Sentiment.

(* ===================================================================== *)
(** * sla.js *)
(* ===================================================================== *)

Module Sla.

(** The three environment variables read by [computeSLA]; [None] is an
    unset variable, in which case [??] selects the default. *)
Record env := {
  SLA_FAST_MIN : option Z;
  SLA_STD_MIN  : option Z;
  SLA_SLOW_MIN : option Z
}.

Definition defaultEnv : env :=
  {| SLA_FAST_MIN := None; SLA_STD_MIN := None; SLA_SLOW_MIN := None |}.

Record sla := { level : Level; targetMinutes : Z }.

(** [computeSLA({ priority = "low", sentiment = "neutral" })]: a missing
    field takes its default. *)
Definition computeSLA (e : env)
    (priority : option Priority) (sentiment : option Label) : sla :=
  let priority := default low priority in
  let sentiment := default neutral sentiment in
  let FAST := default 15%Z (SLA_FAST_MIN e) in
  let STD  := default 60%Z (SLA_STD_MIN e) in
  let SLOW := default 180%Z (SLA_SLOW_MIN e) in
  if decide (sentiment = angry) then {| level := express; targetMinutes := FAST |}
  else if decide (priority = high) then {| level := express; targetMinutes := FAST |}
  else if decide (sentiment = cool) then {| level := batched; targetMinutes := SLOW |}
  else {| level := standard; targetMinutes := STD |}.

End Sla.

(* ===================================================================== *)
(** * Exceptions: rejected promises and [try]/[catch] *)
(* ===================================================================== *)

(** An awaited call either yields a value or throws an [Error] carrying a
    message. *)
Inductive Exc (A : Type) : Type :=
  | Ok (a : A)
  | Throw (msg : string).
Arguments Ok {A} a.
Arguments Throw {A} msg.

Definition exc_bind {A B} (m : Exc A) (k : A → Exc B) : Exc B :=
  match m with
  | Ok a => k a
  | Throw e => Throw e
  end.

(** [try { m } catch (err) { h err }] *)
Definition try_catch {A} (m : Exc A) (h : string → Exc A) : Exc A :=
  match m with
  | Ok a => Ok a
  | Throw e => h e
  end.

Definition is_ok {A} (m : Exc A) : bool :=
  match m with Ok _ => true | Throw _ => false end.

(** [await] sequencing is written with stdpp's [x ← m; k]. *)
#[global] Instance Exc_ret : MRet Exc := fun A a => Ok a.
#[global] Instance Exc_bind : MBind Exc := fun A B k m => exc_bind m k.

(* ===================================================================== *)
(** * The arithmetic of JavaScript numbers *)
(* ===================================================================== *)

(** The operations [cosineSimilarity] performs on numbers.  The code runs on
    the [float] instance; the [R] instance is the same code read in exact
    real arithmetic. *)
Class JsNumber (T : Type) := {
  num_zero : T;
  num_add : T → T → T;
  num_mul : T → T → T;
  num_div : T → T → T;
  num_sqrt : T → T;
  (** [Boolean(x)]: false exactly for [0], [-0] and [NaN]. *)
  num_truthy : T → bool
}.

#[global] Instance float_JsNumber : JsNumber float := {|
  num_zero := 0%float;
  num_add := PrimFloat.add;
  num_mul := PrimFloat.mul;
  num_div := PrimFloat.div;
  num_sqrt := PrimFloat.sqrt;
  num_truthy x := negb (PrimFloat.eqb x 0%float || PrimFloat.is_nan x)
|}.

#[global] Instance R_JsNumber : JsNumber R := {|
  num_zero := 0%R;
  num_add := Rplus;
  num_mul := Rmult;
  num_div := Rdiv;
  num_sqrt := sqrt;
  num_truthy x := if Req_dec_T x 0%R then false else true
|}.

(* ===================================================================== *)
(** * faqService.js *)
(* ===================================================================== *)

Module FaqService.

Record Faq := {
  question : string;
  answer : string;
  domain : Domain;
  embedding : list float
}.

(** What [checkFaq] resolves to when it finds a match. *)
Record hit := { hit_answer : string; hit_score : float }.

(** [getEmbedding]: the HTTP call [post] either yields the vector or
    rejects; every rejection is rethrown as "Failed to get embedding". *)
Definition getEmbedding (post : string → Exc (list float)) (text : string)
    : Exc (list float) :=
  try_catch (post text) (fun _ => Throw "Failed to get embedding").

Section Cosine.
Context {T : Type} `{JsNumber T}.

(** [a[i] || 0]: an absent entry ([undefined]) or a falsy number gives 0. *)
Definition orZero (x : option T) : T :=
  match x with
  | Some v => if num_truthy v then v else num_zero
  | None => num_zero
  end.

(** One iteration of the loop body at index [i]. *)
Definition cosineStep (a b : list T) (acc : T * T * T) (i : nat) : T * T * T :=
  let '(dot, na, nb) := acc in
  let ai := orZero (a !! i) in
  let bi := orZero (b !! i) in
  (num_add dot (num_mul ai bi), num_add na (num_mul ai ai),
   num_add nb (num_mul bi bi)).

(** [for (let i = 0; i < n; i++)] with [n = Math.min(a.length, b.length)]. *)
Definition cosineSums (a b : list T) : T * T * T :=
  let n := Nat.min (length a) (length b) in
  foldl (cosineStep a b) (num_zero, num_zero, num_zero) (seq 0 n).

Definition cosineSimilarity (a b : list T) : T :=
  let '(dot, na, nb) := cosineSums a b in
  if negb (num_truthy na) || negb (num_truthy nb) then num_zero
  else num_div dot (num_mul (num_sqrt na) (num_sqrt nb)).
End Cosine.

(** Configuration read from the environment by [checkFaq]. *)
Record env := {
  FAQ_SIM_THRESHOLD : option float;
  FAQ_TOP_K : option Z
}.
Definition defaultEnv : env := {| FAQ_SIM_THRESHOLD := None; FAQ_TOP_K := None |}.

(** [xs.slice(0, k)]: a negative [k] counts from the end. *)
Definition slice0 {A} (k : Z) (xs : list A) : list A :=
  if (0 <=? k)%Z then take (Z.to_nat k) xs
  else take (length xs - Z.to_nat (- k)) xs.

(** [xs.sort((a, b) => b.score - a.score)]: the sort is stable, and [y]
    moves in front of [x] exactly when the comparator is positive. *)
Section Sort.
Context {A : Type} (score : A → float).
Fixpoint insertDesc (x : A) (l : list A) : list A :=
  match l with
  | [] => [x]
  | y :: l' =>
      if PrimFloat.ltb 0%float (score y - score x)%float
      then y :: insertDesc x l'
      else x :: l
  end.
Definition sortDesc (l : list A) : list A := foldr insertDesc [] l.
End Sort.

(** [Faq.find(filter).lean()] with [filter = domain ? { domain } : {}];
    the query rejects when the database is unreachable. *)
Definition find (dbUp : bool) (corpus : list Faq) (dom : option Domain)
    : Exc (list Faq) :=
  if dbUp then
    Ok (match dom with
        | Some d => filter (fun f => domain f = d) corpus
        | None => corpus
        end)
  else Throw "MongoNetworkError".

(** The body of the [try] block of [checkFaq]. *)
Definition checkFaq_try (e : env) (post : string → Exc (list float))
    (dbUp : bool) (corpus : list Faq)
    (message : string) (dom : option Domain) : Exc (option hit) :=
  let THRESH := default 0.76%float (FAQ_SIM_THRESHOLD e) in
  let TOPK := default 3%Z (FAQ_TOP_K e) in
  queryEmbedding ← getEmbedding post (Js.slice0 512 message);
  faqs ← find dbUp corpus dom;
  let ranked :=
    slice0 TOPK
      (sortDesc hit_score
         (map (fun f => {| hit_answer := answer f;
                           hit_score := cosineSimilarity queryEmbedding (embedding f) |})
              faqs)) in
  Ok (match ranked !! 0%nat with
      | Some best =>
          if PrimFloat.leb THRESH (hit_score best) then Some best else None
      | None => None
      end).

(** [checkFaq]: any error of the body is caught and turned into [null]. *)
Definition checkFaq (e : env) (post : string → Exc (list float))
    (dbUp : bool) (corpus : list Faq)
    (message : string) (dom : option Domain) : Exc (option hit) :=
  try_catch (checkFaq_try e post dbUp corpus message dom) (fun _ => Ok None).

End FaqService.

(* ===================================================================== *)
(** * The Case document (caseSchema of server.js) *)
(* ===================================================================== *)

(** Object ids and user ids are opaque identifiers; clock values are
    milliseconds since the epoch ([Date.now()]). *)
Abbreviation Id := N (only parsing).
Abbreviation Time := N (only parsing).

Module CaseDoc.

(** One entry of [responses]. *)
Record response := {
  adminId : option Id;
  message : string;
  timestamp : Time
}.

Record t := {
  _id : Id;
  userId : Id;
  orderId : string;
  productIndex : Z;
  description : string;
  domain : Domain;
  priority : Priority;
  status : Status;
  responses : list response;
  createdAt : Time;
  updatedAt : Time
}.

Definition set_status (s : Status) (c : t) : t :=
  {| _id := _id c; userId := userId c; orderId := orderId c;
     productIndex := productIndex c; description := description c;
     domain := domain c; priority := priority c; status := s;
     responses := responses c; createdAt := createdAt c;
     updatedAt := updatedAt c |}.

Definition set_priority (p : Priority) (c : t) : t :=
  {| _id := _id c; userId := userId c; orderId := orderId c;
     productIndex := productIndex c; description := description c;
     domain := domain c; priority := p; status := status c;
     responses := responses c; createdAt := createdAt c;
     updatedAt := updatedAt c |}.

Definition set_description (d : string) (c : t) : t :=
  {| _id := _id c; userId := userId c; orderId := orderId c;
     productIndex := productIndex c; description := d;
     domain := domain c; priority := priority c; status := status c;
     responses := responses c; createdAt := createdAt c;
     updatedAt := updatedAt c |}.

Definition set_domain (d : Domain) (c : t) : t :=
  {| _id := _id c; userId := userId c; orderId := orderId c;
     productIndex := productIndex c; description := description c;
     domain := d; priority := priority c; status := status c;
     responses := responses c; createdAt := createdAt c;
     updatedAt := updatedAt c |}.

Definition set_updatedAt (u : Time) (c : t) : t :=
  {| _id := _id c; userId := userId c; orderId := orderId c;
     productIndex := productIndex c; description := description c;
     domain := domain c; priority := priority c; status := status c;
     responses := responses c; createdAt := createdAt c;
     updatedAt := u |}.

(** [$push: { responses: r }] *)
Definition push_response (r : response) (c : t) : t :=
  {| _id := _id c; userId := userId c; orderId := orderId c;
     productIndex := productIndex c; description := description c;
     domain := domain c; priority := priority c; status := status c;
     responses := responses c ++ [r]; createdAt := createdAt c;
     updatedAt := updatedAt c |}.

End CaseDoc.

(* ===================================================================== *)
(** * caseMemory.js *)
(* ===================================================================== *)

Module CaseMemory.

(** caseMemorySchema; [caseId] carries a unique index. *)
Record doc := {
  caseId : Id;
  orderId : string;
  productIndex : Z;
  summary : string;
  domain : Domain;
  embedding : list float;
  createdAt : Time
}.

(** The module's private copy of the similarity function. *)
Section Cosine.
Context {T : Type} `{JsNumber T}.

Definition cosine (a b : list T) : T :=
  let n := Nat.min (length a) (length b) in
  let '(dot, na, nb) :=
    foldl (fun '(dot, na, nb) i =>
             let ai := FaqService.orZero (a !! i) in
             let bi := FaqService.orZero (b !! i) in
             (num_add dot (num_mul ai bi), num_add na (num_mul ai ai),
              num_add nb (num_mul bi bi)))
          (num_zero, num_zero, num_zero) (seq 0 n) in
  if negb (num_truthy na) || negb (num_truthy nb) then num_zero
  else num_div dot (num_mul (num_sqrt na) (num_sqrt nb)).
End Cosine.

(** [CaseMemory.findOneAndUpdate({ caseId }, update, { upsert: true })]:
    the first record matching the filter is overwritten in place; when no
    record matches, the update is inserted as a new record. *)
Fixpoint upsert (d : doc) (coll : list doc) : list doc :=
  match coll with
  | [] => [d]
  | x :: coll' =>
      if decide (caseId x = caseId d) then d :: coll' else x :: upsert d coll'
  end.

Definition findOneAndUpdate (dbUp : bool) (d : doc) (coll : list doc)
    : Exc (list doc) :=
  if dbUp then Ok (upsert d coll) else Throw "MongoNetworkError".

(** The update document both indexing functions write:
    [{ caseId, orderId, productIndex, summary: text, domain, embedding,
       createdAt: new Date() }].  The schema makes [domain] a required
    field of a case, so [caseDoc.domain || "E-commerce"] is
    [caseDoc.domain]. *)
Definition update (c : CaseDoc.t) (text : string) (v : list float)
    (now : Time) : doc :=
  {| caseId := CaseDoc._id c;
     orderId := CaseDoc.orderId c;
     productIndex := CaseDoc.productIndex c;
     summary := text;
     domain := CaseDoc.domain c;
     embedding := v;
     createdAt := now |}.

(** The body of the [try] block of [indexCase] and of
    [indexResolutionSummary], after [text] has been chosen. *)
Definition index_try (post : string → Exc (list float)) (dbUp : bool)
    (now : Time) (coll : list doc) (c : CaseDoc.t) (text : string)
    : Exc (list doc) :=
  embedding ← FaqService.getEmbedding post text;
  findOneAndUpdate dbUp (update c text embedding now) coll.

(** The text to embed: the first 512 characters of the description, or
    [`Case ${caseDoc._id}`] when the description is empty. *)
Definition caseText (c : CaseDoc.t) : string :=
  Js.or_string (Js.slice0 512 (CaseDoc.description c))
               ("Case " +:+ pretty (CaseDoc._id c)).

(** [indexCase(caseDoc)]: returns the collection as it is afterwards.  A
    missing document returns at once; an error inside the [try] block is
    logged and leaves the collection as it was. *)
Definition indexCase (post : string → Exc (list float)) (dbUp : bool)
    (now : Time) (coll : list doc) (caseDoc : option CaseDoc.t)
    : Exc (list doc) :=
  match caseDoc with
  | None => Ok coll
  | Some c =>
      let text := caseText c in
      try_catch (index_try post dbUp now coll c text) (fun _ => Ok coll)
  end.

Definition indexResolutionSummary (post : string → Exc (list float))
    (dbUp : bool) (now : Time) (coll : list doc)
    (caseDoc : option CaseDoc.t) (summaryText : string) : Exc (list doc) :=
  match caseDoc with
  | None => Ok coll
  | Some c =>
      if negb (Js.truthy_string summaryText) then Ok coll
      else
        let text := Js.slice0 512 summaryText in
        try_catch (index_try post dbUp now coll c text) (fun _ => Ok coll)
  end.

(** A search result: the stored record together with its score. *)
Record scored := { memo : doc; score : float }.

(** [CaseMemory.find(filter).lean().limit(200)] *)
Definition find (dbUp : bool) (coll : list doc) (dom : option Domain)
    : Exc (list doc) :=
  if dbUp then
    Ok (take 200
          (match dom with
           | Some d => filter (fun m => domain m = d) coll
           | None => coll
           end))
  else Throw "MongoNetworkError".

Definition searchSimilarCases_try (post : string → Exc (list float))
    (dbUp : bool) (coll : list doc)
    (text : string) (dom : option Domain) (topK : Z) : Exc (list scored) :=
  queryEmbedding ← FaqService.getEmbedding post (Js.slice0 512 text);
  candidates ← find dbUp coll dom;
  Ok (FaqService.slice0 topK
        (FaqService.sortDesc score
           (map (fun c => {| memo := c;
                             score := cosine queryEmbedding (embedding c) |})
                candidates))).

(** [searchSimilarCases]: any error of the body is caught and turned into
    the empty array. *)
Definition searchSimilarCases (post : string → Exc (list float))
    (dbUp : bool) (coll : list doc)
    (text : string) (dom : option Domain) (topK : Z) : Exc (list scored) :=
  try_catch (searchSimilarCases_try post dbUp coll text dom topK)
            (fun _ => Ok []).

End CaseMemory.

(* ===================================================================== *)
(** * server.js *)
(* ===================================================================== *)

Module Server.

(** ** Documents, Redis keys and socket events *)

(** [role: enum ["user", "admin"]] *)
Inductive Role := role_user | role_admin.

Record User := { name : string; email : string; role : Role }.

(** The JSON stored under [selected-product:<userId>].  [quantity] and
    [price] are kept in their printed form: the routes only interpolate
    them into the prompt. *)
Record SelectedProduct := {
  sp_orderId : string;
  sp_productIndex : Z;
  sp_name : string;
  sp_quantity : string;
  sp_price : string;
  sp_domain : Domain;
  sp_status : string
}.

(** The [source] tag of a chat turn or of a [chat:reply] event. *)
Inductive Source :=
  | src_faq | src_case_memory | src_llm | src_refund | src_agent | src_user.

(** One JSON entry of the list stored under a chat key. *)
Record Turn := {
  prompt : string;
  reply : option string;
  t_orderId : string;
  t_productIndex : Z;
  t_caseId : option Id;
  t_timestamp : Time;
  source : option Source;
  t_score : option float
}.

(** The Redis keys of the server; every key carries the instant at which it
    expires.
    - [user:<userId>]             cached user, EX 3600
    - [selected-product:<userId>] EX 3600
    - [chat:<userId>:<orderId>:<productIndex>] list of turns, 86400 s
    - [agent-only:<caseId>] = "1", EX [AGENT_ONLY_TTL] *)
Record Redis := {
  userKey : gmap Id (User * Time);
  selectedProductKey : gmap Id (SelectedProduct * Time);
  chatKey : gmap (Id * string * Z) (list Turn * Time);
  agentOnlyKey : gmap Id Time
}.

(** [redisClient.get(key)] at instant [now]: an expired key is absent. *)
Definition get {K A} `{Countable K} (now : Time) (m : gmap K (A * Time)) (k : K)
    : option A :=
  match m !! k with
  | Some (v, deadline) => if (now <? deadline)%N then Some v else None
  | None => None
  end.

(** [EX seconds] counted from [now], in milliseconds. *)
Definition EX (now : Time) (seconds : N) : Time := (now + seconds * 1000)%N.

Inductive Room := room_user (u : Id) | room_case (c : Id) | room_agents.

Inductive Event :=
  | chat_reply (userId : Id) (orderId : string) (productIndex : Z)
               (caseId : option Id) (src : Source) (message : string)
               (timestamp : Time)
  | chat_user (userId : Id) (orderId : string) (productIndex : Z)
              (caseId : Id) (message : string) (timestamp : Time)
  (** [case:message], always with [sender: "agent"] *)
  | case_message (caseId : Id) (message : string) (timestamp : Time)
  | case_status (caseId : Id) (status : Status).

(** The calls a route makes into the automated stages, in order. *)
Inductive Call :=
  | call_checkFaq (message : string) (dom : Domain)
  | call_searchSimilarCases (text : string) (dom : Domain) (topK : Z)
  | call_callGemini (prompt : string)
  | call_indexCase (caseId : Id)
  | call_indexResolutionSummary (caseId : Id).

(** The JSON bodies the routes answer with. *)
Inductive HttpResponse :=
  | json_400 (error : string)
  | json_403 (error : string)
  | json_404 (error : string)
  | json_500 (error : string)
  (** [{ queued: true, routed: "human_agent", caseId }] *)
  | json_queued (caseId : Id)
  (** [{ reply, routed: "cs_agent", sla, caseId }] *)
  | json_cs_agent (reply : string) (sla : Sla.sla) (caseId : Id)
  (** [{ reply, source: "faq", score }] *)
  | json_faq (reply : string) (score : float)
  (** [{ reply, source: "case-memory", score, similarCases }] *)
  | json_case_memory (reply : string) (score : float)
                     (similarCases : list (Id * float))
  (** [{ message, case }] *)
  | json_case (message : string) (c : CaseDoc.t)
  (** [{ message: "agent-only enabled|disabled", caseId }] *)
  | json_agent_only (enabled : bool) (caseId : Id).

(** ** The state of the server and of its stores *)

Record State := {
  cases : list CaseDoc.t;           (* the Case collection *)
  users : gmap Id User;             (* the User collection *)
  faqs : list FaqService.Faq;       (* the faqs collection *)
  memories : list CaseMemory.doc;   (* the CaseMemory collection *)
  redis : Redis;
  nextObjectId : Id                 (* the next id Mongo hands out *)
}.

Definition set_cases (cs : list CaseDoc.t) (s : State) : State :=
  {| cases := cs; users := users s; faqs := faqs s; memories := memories s;
     redis := redis s; nextObjectId := nextObjectId s |}.
Definition set_memories (ms : list CaseMemory.doc) (s : State) : State :=
  {| cases := cases s; users := users s; faqs := faqs s; memories := ms;
     redis := redis s; nextObjectId := nextObjectId s |}.
Definition set_redis (r : Redis) (s : State) : State :=
  {| cases := cases s; users := users s; faqs := faqs s;
     memories := memories s; redis := r; nextObjectId := nextObjectId s |}.
Definition set_nextObjectId (n : Id) (s : State) : State :=
  {| cases := cases s; users := users s; faqs := faqs s;
     memories := memories s; redis := redis s; nextObjectId := n |}.

Definition set_userKey (m : gmap Id (User * Time)) (r : Redis) : Redis :=
  {| userKey := m; selectedProductKey := selectedProductKey r;
     chatKey := chatKey r; agentOnlyKey := agentOnlyKey r |}.
Definition set_chatKey (m : gmap (Id * string * Z) (list Turn * Time))
    (r : Redis) : Redis :=
  {| userKey := userKey r; selectedProductKey := selectedProductKey r;
     chatKey := m; agentOnlyKey := agentOnlyKey r |}.
Definition set_agentOnlyKey (m : gmap Id Time) (r : Redis) : Redis :=
  {| userKey := userKey r; selectedProductKey := selectedProductKey r;
     chatKey := chatKey r; agentOnlyKey := m |}.

(** What the collaborators outside the process do during one request. *)
Inductive HttpResult :=
  | http_ok (text : string)
  | http_error (code : option Z) (message : string).

Record World := {
  (** the embedding endpoint *)
  embedContent : string → Exc (list float);
  (** the generative endpoint, per model identifier and prompt; [text] is
      the joined and trimmed text of the first candidate *)
  generateContent : string → string → HttpResult;
  (** whether the query of [checkFaq] on the faqs collection succeeds *)
  faqQueryOk : bool;
  (** whether the queries of caseMemory.js on its collection succeed *)
  caseMemoryQueryOk : bool
}.

(** The environment variables the routes read. *)
Record Config := {
  slaEnv : Sla.env;
  faqEnv : FaqService.env;
  SIM_TOP_K : option Z;
  SIM_CASE_THRESHOLD : option float
}.
Definition defaultConfig : Config :=
  {| slaEnv := Sla.defaultEnv; faqEnv := FaqService.defaultEnv;
     SIM_TOP_K := None; SIM_CASE_THRESHOLD := None |}.

(** ** Agent-only lock helpers (per case) *)

Definition AGENT_ONLY_TTL : N := 30 * 60.

Definition setAgentOnly (now : Time) (caseId : option Id) (r : Redis) : Redis :=
  match caseId with
  | None => r
  | Some c => set_agentOnlyKey (<[c := EX now AGENT_ONLY_TTL]> (agentOnlyKey r)) r
  end.

Definition isAgentOnly (now : Time) (caseId : option Id) (r : Redis) : bool :=
  match caseId with
  | None => false
  | Some c =>
      match agentOnlyKey r !! c with
      | Some deadline => (now <? deadline)%N
      | None => false
      end
  end.

Definition clearAgentOnly (caseId : option Id) (r : Redis) : Redis :=
  match caseId with
  | None => r
  | Some c => set_agentOnlyKey (delete c (agentOnlyKey r)) r
  end.

(** ** Gemini models *)

Definition GEMINI_MODELS : list string :=
  [ "gemini-2.0-flash"; "gemini-2.5-pro"; "gemini-2.5-flash";
    "gemini-2.5-flash-lite"; "gemini-2.0-flash-lite" ]%string.

Fixpoint callGemini_from (w : World) (prompt : string) (models : list string)
    : Exc string :=
  match models with
  | [] => Throw "All Gemini models exhausted or failed."
  | model :: rest =>
      match generateContent w model prompt with
      | http_ok text =>
          if Js.truthy_string text then Ok text
          else callGemini_from w prompt rest
      | http_error (Some 429%Z) _ => callGemini_from w prompt rest
      | http_error (Some 400%Z) msg =>
          Throw ("Invalid request to Gemini API: " +:+ msg)
      | http_error (Some 401%Z) _ => Throw "Gemini API authentication failed"
      | http_error _ msg => Throw msg
      end
  end.

Definition callGemini (w : World) (prompt : string) : Exc string :=
  callGemini_from w prompt GEMINI_MODELS.

(** ** Priority helper *)

Definition determinePriority (description : string) : Priority :=
  let paymentKeywords :=
    [ "payment"; "refund"; "billing"; "charge"; "transaction" ]%string in
  let orderKeywords :=
    [ "order"; "delivery"; "product"; "item"; "cancel"; "undo" ]%string in
  let lowerDesc := Js.toLowerCase description in
  if Js.some (fun keyword => Js.includes lowerDesc keyword) paymentKeywords
  then high
  else if Js.some (fun keyword => Js.includes lowerDesc keyword) orderKeywords
  then low
  else low.

(** ** Operations on the Case collection *)

(** [Case.findOne({ userId, orderId, productIndex })] *)
Definition findOne (cs : list CaseDoc.t) (userId : Id) (orderId : string)
    (productIndex : Z) : option CaseDoc.t :=
  List.find
    (fun c => bool_decide (CaseDoc.userId c = userId
                           ∧ CaseDoc.orderId c = orderId
                           ∧ CaseDoc.productIndex c = productIndex))
    cs.

(** [Case.findById(id)] *)
Definition findById (cs : list CaseDoc.t) (id : Id) : option CaseDoc.t :=
  List.find (fun c => bool_decide (CaseDoc._id c = id)) cs.

(** [doc.save()] on a document read from the collection: the stored
    document with the same [_id] is replaced. *)
Definition save (c : CaseDoc.t) (cs : list CaseDoc.t) : list CaseDoc.t :=
  map (fun x => if decide (CaseDoc._id x = CaseDoc._id c) then c else x) cs.

(** [new Case({ userId, orderId, productIndex, description, priority,
    domain, status: "open" }).save()]: a fresh [_id], no responses, both
    dates at their default [Date.now]. *)
Definition create (now : Time) (userId : Id) (orderId : string)
    (productIndex : Z) (description : string) (priority : Priority)
    (dom : Domain) (s : State) : CaseDoc.t * State :=
  let c := {| CaseDoc._id := nextObjectId s;
              CaseDoc.userId := userId;
              CaseDoc.orderId := orderId;
              CaseDoc.productIndex := productIndex;
              CaseDoc.description := description;
              CaseDoc.domain := dom;
              CaseDoc.priority := priority;
              CaseDoc.status := open;
              CaseDoc.responses := [];
              CaseDoc.createdAt := now;
              CaseDoc.updatedAt := now |} in
  (c, set_nextObjectId (nextObjectId s + 1)%N (set_cases (cases s ++ [c]) s)).

(** [rPush(chatKey, JSON.stringify(turn))] followed by
    [expire(chatKey, 86400)]. *)
Definition rPush_expire (now : Time) (key : Id * string * Z) (t : Turn)
    (r : Redis) : Redis :=
  let old := default [] (get now (chatKey r) key) in
  set_chatKey (<[key := (old ++ [t], EX now 86400)]> (chatKey r)) r.

(** ** Routes *)

(** What handling one request produces: the new state, the socket events
    emitted (in order), the stage calls made (in order) and the JSON
    answer. *)
Record Outcome := {
  state : State;
  emitted : list (Room * Event);
  calls : list Call;
  response : HttpResponse
}.

Definition answer (s : State) (r : HttpResponse) : Outcome :=
  {| state := s; emitted := []; calls := []; response := r |}.

Definition domainName (d : Domain) : string :=
  match d with
  | ECommerce => "E-commerce"
  | Travel => "Travel"
  | Telecommunications => "Telecommunications"
  | BankingServices => "Banking Services"
  end.

Definition REFUND_WORDS : list string :=
  [ "refund"; "money back"; "chargeback"; "return my money" ]%string.

Definition isRefund (message : string) : bool :=
  Js.some (fun w => Js.includes (Js.toLowerCase message) w) REFUND_WORDS.

Definition refundReply : string :=
  "Got it. This looks like a refund request — we’ve escalated it to our support team. We’ll take care of it.".

Definition escalateReply : string :=
  "Thanks for the details. We’re routing this to a specialist.".

Definition newline : string := String (Ascii.ascii_of_nat 10) EmptyString.

(** [arr.join(sep)] *)
Fixpoint join (sep : string) (parts : list string) : string :=
  match parts with
  | [] => EmptyString
  | [p] => p
  | p :: rest => p +:+ sep +:+ join sep rest
  end.

Definition llmPrompt (userObj : User) (sp : SelectedProduct)
    (message : string) : string :=
  join newline
    [ "You are a customer-support assistant for " +:+ domainName (sp_domain sp) +:+ ".";
      "User: " +:+ name userObj +:+ " (" +:+ email userObj +:+ ")";
      "Product: " +:+ sp_name sp +:+ " x" +:+ sp_quantity sp +:+ " ₹"
        +:+ sp_price sp +:+ " " +:+ sp_status sp;
      "Order: " +:+ sp_orderId sp;
      "Instruction:";
      "- Give a concise helpful answer.";
      "- If not resolvable without human help, politely say we’ll assign a specialist.";
      "- Never ask for card or OTP.";
      "User message: " +:+ String (Ascii.ascii_of_nat 34) message
        +:+ String (Ascii.ascii_of_nat 34) EmptyString;
      "Return only plain text (no JSON)." ].

(** [/payment|billing|charged|failed/i.test(message)] *)
Definition llmPriority (message : string) : Priority :=
  if Js.some (fun w => Js.includes (Js.toLowerCase message) w)
             [ "payment"; "billing"; "charged"; "failed" ]%string
  then high else low.

Section Routes.

(** [buildMemoryReply(rawMessage, { orderId, productName })] of
    formatCaseMemory.js.  It is a pure text formatter; the routes only
    pass its result on, so it is taken as given. *)
Variable buildMemoryReply : string → string → string → string.

Variable cfg : Config.

(** *** POST /api/chat *)

(** The user cache: the Redis copy if it is live, else the stored user,
    which is then cached for an hour. *)
Definition loadUser (now : Time) (userId : Id) (s : State)
    : option (User * State) :=
  match get now (userKey (redis s)) userId with
  | Some u => Some (u, s)
  | None =>
      match users s !! userId with
      | None => None
      | Some u =>
          Some (u, set_redis
                     (set_userKey (<[userId := (u, EX now 3600)]>
                                     (userKey (redis s))) (redis s)) s)
      end
  end.

(** "Ensure case exists": the case of this (user, order, product), created
    minimal and open when the user talks for the first time. *)
Definition ensureCase (now : Time) (userId : Id) (sp : SelectedProduct)
    (message : string) (s : State) : CaseDoc.t * State :=
  match findOne (cases s) userId (sp_orderId sp) (sp_productIndex sp) with
  | Some c => (c, s)
  | None =>
      create now userId (sp_orderId sp) (sp_productIndex sp) message low
             (sp_domain sp) s
  end.

(** Agent-only lock is on: record the turn without a reply, notify the
    agents, answer "queued". *)
Definition chat_agentOnly (now : Time) (userId : Id) (sp : SelectedProduct)
    (message : string) (existingCase : CaseDoc.t) (s : State) : Outcome :=
  let key := (userId, sp_orderId sp, sp_productIndex sp) in
  let r := rPush_expire now key
             {| prompt := message; reply := None;
                t_orderId := sp_orderId sp;
                t_productIndex := sp_productIndex sp;
                t_caseId := Some (CaseDoc._id existingCase);
                t_timestamp := now; source := Some src_user;
                t_score := None |} (redis s) in
  {| state := set_redis r s;
     emitted :=
       [ (room_agents,
          chat_user userId (sp_orderId sp) (sp_productIndex sp)
                    (CaseDoc._id existingCase) message now) ];
     calls := [];
     response := json_queued (CaseDoc._id existingCase) |}.

(** The refund path. *)
Definition chat_refund (w : World) (now : Time) (userId : Id)
    (sp : SelectedProduct) (message : string) (s : State) : Outcome :=
  let orderId := sp_orderId sp in
  let productIndex := sp_productIndex sp in
  let key := (userId, orderId, productIndex) in
  let label := Sentiment.label (Sentiment.analyzeSentiment message) in
  let sla := Sla.computeSLA (slaEnv cfg) (Some high) (Some label) in
  let description := "[Refund Request] " +:+ message in
  let '(csCase, s) :=
    match findOne (cases s) userId orderId productIndex with
    | None => create now userId orderId productIndex description high
                     (sp_domain sp) s
    | Some c =>
        let c := CaseDoc.set_description description c in
        let c := CaseDoc.set_priority high c in
        let c := CaseDoc.set_domain (sp_domain sp) c in
        let c := CaseDoc.set_status open c in
        (c, set_cases (save c (cases s)) s)
    end in
  match CaseMemory.indexCase (embedContent w) (caseMemoryQueryOk w) now
                             (memories s) (Some csCase) with
  | Throw _ =>
      {| state := s; emitted := [];
         calls := [call_indexCase (CaseDoc._id csCase)];
         response := json_500 "Failed to process chat" |}
  | Ok mem =>
      let s := set_memories mem s in
      let reply := refundReply in
      let r := rPush_expire now key
                 {| prompt := message; reply := Some reply;
                    t_orderId := orderId; t_productIndex := productIndex;
                    t_caseId := Some (CaseDoc._id csCase);
                    t_timestamp := now; source := None;
                    t_score := None |} (redis s) in
      {| state := set_redis r s;
         emitted :=
           [ (room_user userId,
              chat_reply userId orderId productIndex
                         (Some (CaseDoc._id csCase)) src_refund reply now);
             (room_user userId,
              case_status (CaseDoc._id csCase) (CaseDoc.status csCase));
             (room_agents,
              chat_reply userId orderId productIndex
                         (Some (CaseDoc._id csCase)) src_refund reply now) ];
         calls := [call_indexCase (CaseDoc._id csCase)];
         response := json_cs_agent reply sla (CaseDoc._id csCase) |}
  end.

(** The FAQ matcher answered. *)
Definition chat_faq (now : Time) (userId : Id) (sp : SelectedProduct)
    (message : string) (faqHit : FaqService.hit) (s : State) : Outcome :=
  let orderId := sp_orderId sp in
  let productIndex := sp_productIndex sp in
  let key := (userId, orderId, productIndex) in
  let reply := FaqService.hit_answer faqHit in
  let r := rPush_expire now key
             {| prompt := message; reply := Some reply;
                t_orderId := orderId; t_productIndex := productIndex;
                t_caseId := None; t_timestamp := now;
                source := Some src_faq;
                t_score := Some (FaqService.hit_score faqHit) |}
             (redis s) in
  {| state := set_redis r s;
     emitted :=
       [ (room_user userId,
          chat_reply userId orderId productIndex None src_faq reply now);
         (room_agents,
          chat_reply userId orderId productIndex None src_faq reply now) ];
     calls := [];
     response := json_faq reply (FaqService.hit_score faqHit) |}.

(** The case-memory matcher answered. *)
Definition chat_caseMemory (now : Time) (userId : Id) (sp : SelectedProduct)
    (message : string) (top : CaseMemory.scored)
    (similar : list CaseMemory.scored) (s : State) : Outcome :=
  let orderId := sp_orderId sp in
  let productIndex := sp_productIndex sp in
  let key := (userId, orderId, productIndex) in
  let topCaseId := CaseMemory.caseId (CaseMemory.memo top) in
  let pretty :=
    buildMemoryReply (CaseMemory.summary (CaseMemory.memo top)) orderId
                     (sp_name sp) in
  let r := rPush_expire now key
             {| prompt := message; reply := Some pretty;
                t_orderId := orderId; t_productIndex := productIndex;
                t_caseId := Some topCaseId; t_timestamp := now;
                source := Some src_case_memory;
                t_score := Some (CaseMemory.score top) |}
             (redis s) in
  {| state := set_redis r s;
     emitted :=
       [ (room_user userId,
          chat_reply userId orderId productIndex (Some topCaseId)
                     src_case_memory pretty now);
         (room_agents,
          chat_reply userId orderId productIndex (Some topCaseId)
                     src_case_memory pretty now) ];
     calls := [];
     response :=
       json_case_memory pretty (CaseMemory.score top)
         (map (fun x => (CaseMemory.caseId (CaseMemory.memo x),
                         CaseMemory.score x)) similar) |}.

(** The generative fallback. *)
Definition chat_llm (w : World) (now : Time) (userId : Id) (userObj : User)
    (sp : SelectedProduct) (message : string) (s : State) : Outcome :=
  let orderId := sp_orderId sp in
  let productIndex := sp_productIndex sp in
  let key := (userId, orderId, productIndex) in
  let prompt := llmPrompt userObj sp message in
  let llmReply :=
    match callGemini w prompt with
    | Ok text => text
    | Throw _ => escalateReply
    end in
  let label :=
    Sentiment.label (Sentiment.analyzeSentiment (message +:+ " " +:+ llmReply)) in
  let priority := llmPriority message in
  let sla := Sla.computeSLA (slaEnv cfg) (Some priority) (Some label) in
  let '(csCase, s) :=
    match findOne (cases s) userId orderId productIndex with
    | None => create now userId orderId productIndex message priority
                     (sp_domain sp) s
    | Some c =>
        let c := CaseDoc.set_description message c in
        let c := CaseDoc.set_priority priority c in
        let c := CaseDoc.set_domain (sp_domain sp) c in
        let c := if decide (CaseDoc.status c = resolved)
                 then CaseDoc.set_status open c else c in
        (c, set_cases (save c (cases s)) s)
    end in
  match CaseMemory.indexCase (embedContent w) (caseMemoryQueryOk w) now
                             (memories s) (Some csCase) with
  | Throw _ =>
      {| state := s; emitted := [];
         calls := [call_callGemini prompt; call_indexCase (CaseDoc._id csCase)];
         response := json_500 "Failed to process chat" |}
  | Ok mem =>
      let s := set_memories mem s in
      let r := rPush_expire now key
                 {| prompt := message; reply := Some llmReply;
                    t_orderId := orderId; t_productIndex := productIndex;
                    t_caseId := Some (CaseDoc._id csCase);
                    t_timestamp := now; source := Some src_llm;
                    t_score := None |} (redis s) in
      {| state := set_redis r s;
         emitted :=
           [ (room_user userId,
              chat_reply userId orderId productIndex
                         (Some (CaseDoc._id csCase)) src_llm llmReply now);
             (room_agents,
              chat_reply userId orderId productIndex
                         (Some (CaseDoc._id csCase)) src_llm llmReply now);
             (room_user userId,
              case_status (CaseDoc._id csCase) (CaseDoc.status csCase)) ];
         calls := [call_callGemini prompt; call_indexCase (CaseDoc._id csCase)];
         response := json_cs_agent llmReply sla (CaseDoc._id csCase) |}
  end.

(** Prefix the calls made before a stage took over. *)
Definition after (cs : list Call) (o : Outcome) : Outcome :=
  {| state := state o; emitted := emitted o; calls := cs ++ calls o;
     response := response o |}.

(** The stages behind the agent-only check, in the order of the route:
    refund, FAQ, case memory, generative fallback. *)
Definition chat_automation (w : World) (now : Time) (userId : Id)
    (userObj : User) (sp : SelectedProduct) (message : string) (s : State)
    : Outcome :=
  if isRefund message then chat_refund w now userId sp message s
  else
    let dom := sp_domain sp in
    let faqCall := call_checkFaq message dom in
    match FaqService.checkFaq (faqEnv cfg) (embedContent w) (faqQueryOk w)
                              (faqs s) message (Some dom) with
    | Throw _ =>
        {| state := s; emitted := []; calls := [faqCall];
           response := json_500 "Failed to process chat" |}
    | Ok (Some faqHit) =>
        after [faqCall] (chat_faq now userId sp message faqHit s)
    | Ok None =>
        let K := default 3%Z (SIM_TOP_K cfg) in
        let CM_TH := default 0.72%float (SIM_CASE_THRESHOLD cfg) in
        let memCall := call_searchSimilarCases message dom K in
        match CaseMemory.searchSimilarCases (embedContent w)
                (caseMemoryQueryOk w) (memories s) message (Some dom) K with
        | Throw _ =>
            {| state := s; emitted := []; calls := [faqCall; memCall];
               response := json_500 "Failed to process chat" |}
        | Ok similar =>
            match similar with
            | top :: _ =>
                if PrimFloat.leb CM_TH (CaseMemory.score top)
                then after [faqCall; memCall]
                       (chat_caseMemory now userId sp message top similar s)
                else after [faqCall; memCall]
                       (chat_llm w now userId userObj sp message s)
            | [] =>
                after [faqCall; memCall]
                  (chat_llm w now userId userObj sp message s)
            end
        end
    end.

(** [app.post("/api/chat", authMiddleware, ...)] for an authenticated
    [userId]; [message] is [None] when the body carries no string. *)
Definition chat (w : World) (now : Time) (userId : Id)
    (message : option string) (s : State) : Outcome :=
  match message with
  | None => answer s (json_400 "Message is required")
  | Some message =>
      if negb (Js.truthy_string message)
      then answer s (json_400 "Message is required")
      else
        match loadUser now userId s with
        | None => answer s (json_404 "User not found")
        | Some (userObj, s) =>
            match get now (selectedProductKey (redis s)) userId with
            | None => answer s (json_400 "Select an order/product first")
            | Some sp =>
                let '(existingCase, s) := ensureCase now userId sp message s in
                if isAgentOnly now (Some (CaseDoc._id existingCase)) (redis s)
                then chat_agentOnly now userId sp message existingCase s
                else chat_automation w now userId userObj sp message s
            end
        end
  end.

(** *** POST /api/case/:id/response *)

(** [Case.findByIdAndUpdate(id, { $push: { responses: { adminId, message } },
    updatedAt: new Date(), status: "in-progress" }, { new: true })] *)
Definition pushResponseUpdate (now : Time) (adminId : Id) (message : string)
    (c : CaseDoc.t) : CaseDoc.t :=
  CaseDoc.set_status in_progress
    (CaseDoc.set_updatedAt now
       (CaseDoc.push_response
          {| CaseDoc.adminId := Some adminId; CaseDoc.message := message;
             CaseDoc.timestamp := now |} c)).

Definition caseResponse (now : Time) (userId : Id) (userRole : Role)
    (id : Id) (message : option string) (s : State) : Outcome :=
  match userRole with
  | role_user => answer s (json_403 "Admin access required")
  | role_admin =>
      match message with
      | None => answer s (json_400 "Message required")
      | Some message =>
          if negb (Js.truthy_string message)
          then answer s (json_400 "Message required")
          else
            match findById (cases s) id with
            | None => answer s (json_404 "Case not found")
            | Some c =>
                let updatedCase := pushResponseUpdate now userId message c in
                let s := set_cases (save updatedCase (cases s)) s in
                let cid := CaseDoc._id updatedCase in
                let uid := CaseDoc.userId updatedCase in
                let s := set_redis (setAgentOnly now (Some cid) (redis s)) s in
                {| state := s;
                   emitted :=
                     [ (room_case cid, case_message cid message now);
                       (room_user uid, case_message cid message now);
                       (room_case cid, case_status cid in_progress);
                       (room_user uid, case_status cid in_progress);
                       (room_user uid,
                        chat_reply uid (CaseDoc.orderId updatedCase)
                                   (CaseDoc.productIndex updatedCase)
                                   (Some cid) src_agent message now);
                       (room_agents,
                        chat_reply uid (CaseDoc.orderId updatedCase)
                                   (CaseDoc.productIndex updatedCase)
                                   (Some cid) src_agent message now) ];
                   calls := [];
                   response := json_case "Response added successfully" updatedCase |}
            end
      end
  end.

(** *** PUT /api/case/:id *)

(** The fields of the request body the case schema knows and the admin
    dashboard sends; an absent field is left as it is.  (The optional
    [productChanges] field edits the order of the user and is outside
    this model.) *)
Record Updates := {
  upd_status : option Status;
  upd_priority : option Priority;
  upd_description : option string
}.

(** [Case.findByIdAndUpdate(caseId, { ...updates, updatedAt: new Date() })] *)
Definition applyUpdates (now : Time) (u : Updates) (c : CaseDoc.t) : CaseDoc.t :=
  let c := match upd_status u with
           | Some st => CaseDoc.set_status st c | None => c end in
  let c := match upd_priority u with
           | Some p => CaseDoc.set_priority p c | None => c end in
  let c := match upd_description u with
           | Some d => CaseDoc.set_description d c | None => c end in
  CaseDoc.set_updatedAt now c.

Definition resolvedNote : string :=
  "Marked as resolved. If you need more help, tap 'Need more help'.".

(** ["Resolution Summary: " + lastMsgs.map(...).join(" | ").slice(0, 480)]
    over the last six responses. *)
Definition resolutionSummary (c : CaseDoc.t) : string :=
  let rs := CaseDoc.responses c in
  let lastMsgs := drop (length rs - 6) rs in
  "Resolution Summary: " +:+
  Js.slice0 480
    (join " | "
       (map (fun r => match CaseDoc.adminId r with
                      | Some _ => "Agent: " +:+ CaseDoc.message r
                      | None => "User/Bot: " +:+ CaseDoc.message r
                      end) lastMsgs)).

Definition caseUpdate (w : World) (now : Time) (userId : Id)
    (userRole : Role) (caseId : Id) (updates : Updates) (s : State)
    : Outcome :=
  match userRole with
  | role_user => answer s (json_403 "Admin access required")
  | role_admin =>
      match findById (cases s) caseId with
      | None => answer s (json_404 "Case not found")
      | Some c =>
          let updatedCase := applyUpdates now updates c in
          let s := set_cases (save updatedCase (cases s)) s in
          let cid := CaseDoc._id updatedCase in
          let uid := CaseDoc.userId updatedCase in
          if decide (CaseDoc.status updatedCase = resolved) then
            (* append resolution note, emit, and index summary *)
            let updatedCase :=
              CaseDoc.push_response
                {| CaseDoc.adminId := Some userId;
                   CaseDoc.message := resolvedNote;
                   CaseDoc.timestamp := now |} updatedCase in
            let s := set_cases (save updatedCase (cases s)) s in
            (* clear agent-only lock after resolution *)
            let s := set_redis (clearAgentOnly (Some cid) (redis s)) s in
            let mem :=
              match CaseMemory.indexResolutionSummary
                      (embedContent w) (caseMemoryQueryOk w) now (memories s)
                      (Some updatedCase) (resolutionSummary updatedCase) with
              | Ok mem => mem
              | Throw _ => memories s
              end in
            {| state := set_memories mem s;
               emitted :=
                 [ (room_case cid, case_message cid resolvedNote now);
                   (room_case cid, case_status cid resolved);
                   (room_user uid, case_status cid resolved);
                   (room_user uid,
                    chat_reply uid (CaseDoc.orderId updatedCase)
                               (CaseDoc.productIndex updatedCase)
                               (Some cid) src_agent resolvedNote now);
                   (room_agents,
                    chat_reply uid (CaseDoc.orderId updatedCase)
                               (CaseDoc.productIndex updatedCase)
                               (Some cid) src_agent resolvedNote now) ];
               calls := [call_indexResolutionSummary cid];
               response := json_case "Case updated successfully" updatedCase |}
          else
            {| state := s;
               emitted :=
                 [ (room_case cid, case_status cid (CaseDoc.status updatedCase));
                   (room_user uid, case_status cid (CaseDoc.status updatedCase)) ];
               calls := [];
               response := json_case "Case updated successfully" updatedCase |}
      end
  end.

(** *** PUT /api/case/:id/agent-only *)

Definition caseAgentOnly (now : Time) (userRole : Role) (id : Id)
    (enabled : bool) (s : State) : Outcome :=
  match userRole with
  | role_user => answer s (json_403 "Admin access required")
  | role_admin =>
      match findById (cases s) id with
      | None => answer s (json_404 "Case not found")
      | Some _ =>
          let r := if enabled then setAgentOnly now (Some id) (redis s)
                   else clearAgentOnly (Some id) (redis s) in
          answer (set_redis r s) (json_agent_only enabled id)
      end
  end.

(** *** A conversation: chat requests of one user handled one after the
    other, each at its own instant and with its own collaborators. *)
Fixpoint chats (userId : Id) (reqs : list (World * Time * string))
    (s : State) : list Outcome :=
  match reqs with
  | [] => []
  | (w, now, message) :: rest =>
      let o := chat w now userId (Some message) s in
      o :: chats userId rest (state o)
  end.
End Routes.

End Server.

(* ===================================================================== *)
(** * faqService.js: seeding the FAQ collection *)
(* ===================================================================== *)

Module FaqInit.

(** One element of a [faqs] array handed to [initFaqs]. *)
Record entry := { question : string; answer : string; domain : Domain }.

(** [Faq.findOne({ question: faq.question, domain: faq.domain })] *)
Definition findOne (coll : list FaqService.Faq) (q : string) (d : Domain)
    : option FaqService.Faq :=
  List.find
    (fun f => bool_decide (FaqService.question f = q ∧ FaqService.domain f = d))
    coll.

(** [new Faq({ ...faq, embedding }).save()] *)
Definition withEmbedding (faq : entry) (v : list float) : FaqService.Faq :=
  {| FaqService.question := question faq;
     FaqService.answer := answer faq;
     FaqService.domain := domain faq;
     FaqService.embedding := v |}.

(** The inner loop [for (const faq of faqs)].  The function has no [try]:
    a failing embedding call rejects the whole of [initFaqs], and what was
    saved before stays saved.  The result is the collection as it is
    afterwards and the completion of the loop. *)
Fixpoint initFaqs_faqs (post : string → Exc (list float)) (faqs : list entry)
    (coll : list FaqService.Faq) : list FaqService.Faq * Exc unit :=
  match faqs with
  | [] => (coll, Ok tt)
  | faq :: rest =>
      match findOne coll (question faq) (domain faq) with
      | Some existing => initFaqs_faqs post rest coll
      | None =>
          match FaqService.getEmbedding post (question faq) with
          | Throw e => (coll, Throw e)
          | Ok embedding =>
              initFaqs_faqs post rest (coll ++ [withEmbedding faq embedding])
          end
      end
  end.

(** The outer loop [for (const { faqs } of faqCollections)]. *)
Fixpoint initFaqs (post : string → Exc (list float))
    (faqCollections : list (list entry)) (coll : list FaqService.Faq)
    : list FaqService.Faq * Exc unit :=
  match faqCollections with
  | [] => (coll, Ok tt)
  | faqs :: rest =>
      match initFaqs_faqs post faqs coll with
      | (coll', Ok _) => initFaqs post rest coll'
      | (coll', Throw e) => (coll', Throw e)
      end
  end.

End FaqInit.

(* ===================================================================== *)
(** * server.js: the routes on orders, product selection and sessions *)
(* ===================================================================== *)

Module ServerOrders.
Import Server.

(** The [orders] array of a user document.  The collection of users of
    [Server.State] keeps name, e-mail and role; the orders of each stored
    user are kept beside it, by user id.  Quantities and prices are in their
    printed form, as in [Server.SelectedProduct]. *)
Record Product := {
  p_name : string;
  p_quantity : string;
  p_price : string;
  p_domain : Domain
}.

Record Order := {
  o_orderId : string;
  o_status : string;
  o_products : list Product
}.

(** What these routes answer: the HTTP status and the JSON body. *)
Inductive Body :=
  | body_error (error : string)
  | body_message (message : string)
  (** [{ message, case }], the case as read back from the collection *)
  | body_case (message : string) (c : option CaseDoc.t).

Record Reply := {
  state : State;
  status : Z;
  body : Body;
  (** the calls into caseMemory.js *)
  indexed : list Call
}.

Definition reply (s : State) (code : Z) (b : Body) : Reply :=
  {| state := s; status := code; body := b; indexed := [] |}.

Definition set_selectedProductKey (m : gmap Id (SelectedProduct * Time))
    (r : Redis) : Redis :=
  {| userKey := userKey r; selectedProductKey := m;
     chatKey := chatKey r; agentOnlyKey := agentOnlyKey r |}.

(** [user.orders.find((o) => o.orderId === orderId)] *)
Definition findOrder (orders : list Order) (orderId : string) : option Order :=
  List.find (fun o => bool_decide (o_orderId o = orderId)) orders.

(** [!order || productIndex < 0 || productIndex >= order.products.length],
    followed by [order.products[productIndex]]. *)
Definition productAt (order : option Order) (productIndex : Z)
    : option (Order * Product) :=
  match order with
  | None => None
  | Some o =>
      if (productIndex <? 0)%Z
         || (Z.of_nat (length (o_products o)) <=? productIndex)%Z
      then None
      else match o_products o !! Z.to_nat productIndex with
           | Some p => Some (o, p)
           | None => None
           end
  end.

(** *** POST /api/select-product *)
Definition selectProduct (orders : gmap Id (list Order)) (now : Time)
    (userId : Id) (orderId : string) (productIndex : Z) (s : State) : Reply :=
  match users s !! userId with
  | None => reply s 404 (body_error "User not found")
  | Some _ =>
      let order := findOrder (default [] (orders !! userId)) orderId in
      match productAt order productIndex with
      | None => reply s 400 (body_error "Invalid order or product index")
      | Some (order, product) =>
          let selectedProduct :=
            {| sp_orderId := orderId;
               sp_productIndex := productIndex;
               sp_name := p_name product;
               sp_quantity := p_quantity product;
               sp_price := p_price product;
               sp_domain := p_domain product;
               sp_status := o_status order |} in
          let r := redis s in
          let r := set_selectedProductKey (delete userId (selectedProductKey r)) r in
          let r := set_selectedProductKey
                     (<[userId := (selectedProduct, EX now 3600)]>
                        (selectedProductKey r)) r in
          reply (set_redis r s) 200 (body_message "Product selected successfully")
      end
  end.

(** *** POST /api/clear-selected-product *)
Definition clearSelectedProduct (userId : Id) (s : State) : Reply :=
  let r := redis s in
  reply (set_redis (set_selectedProductKey
                      (delete userId (selectedProductKey r)) r) s)
        200 (body_message "Selected product cleared successfully").

(** *** POST /api/logout.  The legacy key [chat:<userId>] it also deletes is
    not one of the keys the other routes use. *)
Definition logout (userId : Id) (s : State) : Reply :=
  let r := redis s in
  let r := set_userKey (delete userId (userKey r)) r in
  let r := set_selectedProductKey (delete userId (selectedProductKey r)) r in
  reply (set_redis r s) 200 (body_message "Logout successful").

(** The [domain] field of the body of POST /api/case: absent (the
    destructuring default applies), present but falsy, or a domain. *)
Inductive BodyDomain :=
  | domain_absent
  | domain_falsy
  | domain_given (d : Domain).

(** [const finalDomain = domain || productDomain || "E-commerce"] after
    [{ ..., domain = "E-commerce" } = req.body]. *)
Definition finalDomain (bodyDomain : BodyDomain) (productDomain : Domain)
    : Domain :=
  let dom := match bodyDomain with
             | domain_absent => Some ECommerce
             | domain_falsy => None
             | domain_given d => Some d
             end in
  match dom with
  | Some d => d
  | None => productDomain
  end.

(** *** POST /api/case *)
Definition createCase (orders : gmap Id (list Order)) (w : World) (now : Time)
    (userId : Id) (orderId : string) (productIndex : option Z)
    (description : string) (bodyDomain : BodyDomain) (s : State) : Reply :=
  match productIndex with
  | None =>
      reply s 400
        (body_error "Order ID, product index, and description are required")
  | Some productIndex =>
      if negb (Js.truthy_string orderId) || negb (Js.truthy_string description)
      then reply s 400
             (body_error "Order ID, product index, and description are required")
      else
        match users s !! userId with
        | None => reply s 404 (body_error "User not found")
        | Some _ =>
            let order := findOrder (default [] (orders !! userId)) orderId in
            match productAt order productIndex with
            | None => reply s 400 (body_error "Invalid order or product index")
            | Some (order, product) =>
                let productDomain := p_domain product in
                let finalDomain := finalDomain bodyDomain productDomain in
                let priority := determinePriority description in
                let '(newCase, s) :=
                  match findOne (cases s) userId orderId productIndex with
                  | Some existingCase =>
                      let c := CaseDoc.set_description description existingCase in
                      let c := CaseDoc.set_priority priority c in
                      let c := CaseDoc.set_domain finalDomain c in
                      let c := CaseDoc.set_updatedAt now c in
                      (c, set_cases (save c (cases s)) s)
                  | None =>
                      create now userId orderId productIndex description
                             priority finalDomain s
                  end in
                match CaseMemory.indexCase (embedContent w) (caseMemoryQueryOk w)
                        now (memories s) (Some newCase) with
                | Throw _ =>
                    {| state := s; status := 500;
                       body := body_error "Failed to process case";
                       indexed := [call_indexCase (CaseDoc._id newCase)] |}
                | Ok mem =>
                    let s := set_memories mem s in
                    {| state := s; status := 200;
                       body := body_case "Case processed successfully"
                                 (findById (cases s) (CaseDoc._id newCase));
                       indexed := [call_indexCase (CaseDoc._id newCase)] |}
                end
            end
        end
  end.

End ServerOrders.

(* ===================================================================== *)
(** * server.js: the thread routes *)
(* ===================================================================== *)

Module ServerThreads.
Import Server.

Inductive Sender := sender_agent | sender_bot | sender_user_bot.

(** One element of a merged thread.  [te_source = None] is the tag "bot" a
    turn without a source gets; [te_prompt] is absent on agent messages. *)
Record Entry := {
  te_source : option Source;
  te_sender : Sender;
  te_message : option string;
  te_prompt : option string;
  te_timestamp : Time;
  te_caseId : option Id
}.

(** [a || b] on numbers: 0 is falsy. *)
Definition orN (a b : N) : N := if (a =? 0)%N then b else a.

(** [redisClient.lRange(chatKey, 0, -1)]: an expired or missing key is the
    empty list. *)
Definition lRange (now : Time) (r : Redis) (key : Id * string * Z) : list Turn :=
  default [] (get now (chatKey r) key).

(** The mapping of a parsed turn. *)
Definition turnEntry (now : Time) (t : Turn) : Entry :=
  {| te_source := source t;
     te_sender := match source t with
                  | Some src_agent => sender_agent
                  | _ => sender_bot
                  end;
     te_message := reply t;
     te_prompt := Some (prompt t);
     te_timestamp := orN (t_timestamp t) now;
     te_caseId := t_caseId t |}.

(** The mapping of a response of the case: whoever wrote it, it is shown as
    an agent message. *)
Definition agentEntry (now : Time) (c : CaseDoc.t) (r : CaseDoc.response)
    : Entry :=
  {| te_source := Some src_agent;
     te_sender := sender_agent;
     te_message := Some (CaseDoc.message r);
     te_prompt := None;
     te_timestamp :=
       orN (CaseDoc.timestamp r)
           (orN (CaseDoc.updatedAt c) (orN (CaseDoc.createdAt c) now));
     te_caseId := Some (CaseDoc._id c) |}.

(** [xs.sort((a, b) => (a.timestamp || 0) - (b.timestamp || 0))]: stable,
    [y] moves in front of [x] exactly when the comparator is positive. *)
Fixpoint insertAsc (x : Entry) (l : list Entry) : list Entry :=
  match l with
  | [] => [x]
  | y :: l' =>
      if (te_timestamp y <? te_timestamp x)%N
      then y :: insertAsc x l'
      else x :: l
  end.
Definition sortAsc (l : list Entry) : list Entry := foldr insertAsc [] l.

(** [[...redisTurns, ...agentMsgs].sort(...)] *)
Definition combined (now : Time) (turns : list Turn) (c : option CaseDoc.t)
    : list Entry :=
  let redisTurns := map (turnEntry now) turns in
  let agentMsgs :=
    match c with
    | Some c => map (agentEntry now c) (CaseDoc.responses c)
    | None => []
    end in
  sortAsc (redisTurns ++ agentMsgs).

Inductive ThreadReply :=
  | thread_error (code : Z) (error : string)
  (** [{ case, thread }]; [case] is [null] when the user has no case yet *)
  | thread_ok (c : option CaseDoc.t) (thread : list Entry).

(** *** GET /api/chat/thread: the merged thread of one product, user view. *)
Definition chatThread (now : Time) (userId : Id) (orderId : option string)
    (productIndex : option Z) (s : State) : ThreadReply :=
  match orderId, productIndex with
  | Some orderId, Some productIndex =>
      if negb (Js.truthy_string orderId)
      then thread_error 400 "orderId and productIndex are required"
      else
        let turns := lRange now (redis s) (userId, orderId, productIndex) in
        let caseDoc := findOne (cases s) userId orderId productIndex in
        thread_ok caseDoc (combined now turns caseDoc)
  | _, _ => thread_error 400 "orderId and productIndex are required"
  end.


(** *** GET /api/case/:id/thread: the responses of a case, from Mongo only. *)
Definition caseThread (userId : Id) (userRole : Role) (id : Id) (s : State)
    : ThreadReply :=
  match findById (cases s) id with
  | None => thread_error 404 "Case not found"
  | Some doc =>
      if negb (bool_decide (CaseDoc.userId doc = userId))
         && match userRole with role_admin => false | role_user => true end
      then thread_error 403 "Forbidden"
      else
        thread_ok (Some doc)
          (map (fun r =>
                  {| te_source := None;
                     te_sender := match CaseDoc.adminId r with
                                  | Some _ => sender_agent
                                  | None => sender_user_bot
                                  end;
                     te_message := Some (CaseDoc.message r);
                     te_prompt := None;
                     te_timestamp :=
                       orN (CaseDoc.timestamp r)
                           (orN (CaseDoc.updatedAt doc) (CaseDoc.createdAt doc));
                     te_caseId := None |})
               (CaseDoc.responses doc))
  end.

End ServerThreads.

(* ===================================================================== *)
(** * server.js: socket rooms *)
(* ===================================================================== *)

Module ServerSockets.
Import Server.

(** A connected socket: the identity its token carried and the case rooms
    it has joined. *)
Record Socket := {
  sock_userId : Id;
  sock_role : Role;
  sock_cases : list Id
}.

(** [io.on("connection", ...)]: the socket joins [user:<userId>], and
    [agents] when its role is admin; it is in no case room yet. *)
Definition connection (userId : Id) (userRole : Role) : Socket :=
  {| sock_userId := userId; sock_role := userRole; sock_cases := [] |}.

(** [socket.on("join_case", ({ caseId }) => caseId && socket.join(...))] *)
Definition join_case (caseId : option Id) (k : Socket) : Socket :=
  match caseId with
  | None => k
  | Some c =>
      {| sock_userId := sock_userId k; sock_role := sock_role k;
         sock_cases := c :: sock_cases k |}
  end.

(** [socket.on("leave_case", ({ caseId }) => caseId && socket.leave(...))] *)
Definition leave_case (caseId : option Id) (k : Socket) : Socket :=
  match caseId with
  | None => k
  | Some c =>
      {| sock_userId := sock_userId k; sock_role := sock_role k;
         sock_cases := List.filter (fun x => negb (x =? c)%N) (sock_cases k) |}
  end.

(** Whether the socket is in a room. *)
Definition inRoom (k : Socket) (room : Room) : bool :=
  match room with
  | room_user u => (u =? sock_userId k)%N
  | room_agents => match sock_role k with role_admin => true | role_user => false end
  | room_case c => existsb (fun x => (x =? c)%N) (sock_cases k)
  end.

(** [io.to(room).emit(...)] for each emitted event: what one socket gets. *)
Definition received (k : Socket) (emitted : list (Room * Event)) : list Event :=
  map snd (List.filter (fun e => inRoom k (fst e)) emitted).

End ServerSockets.

(* ===================================================================== *)
(** * server.js: the state-changing routes behind [authMiddleware] *)
(* ===================================================================== *)

Module ServerApi.
Import Server.

(** A request as the routes see it once [authMiddleware] has put the id and
    the role of the token on it: the route and its body. *)
Inductive Request :=
  | post_chat (message : option string)
  | post_select_product (orderId : string) (productIndex : Z)
  | post_clear_selected_product
  | post_logout
  | post_case (orderId : string) (productIndex : option Z)
              (description : string) (bodyDomain : ServerOrders.BodyDomain)
  | post_case_response (id : Id) (message : option string)
  | put_case (id : Id) (updates : Updates)
  | put_case_agent_only (id : Id) (enabled : bool).

Section Handle.
Variable buildMemoryReply : string → string → string → string.
Variable cfg : Config.
Variable orders : gmap Id (list ServerOrders.Order).

(** The state after the route of the request has run. *)
Definition handle (w : World) (now : Time) (userId : Id) (userRole : Role)
    (req : Request) (s : State) : State :=
  match req with
  | post_chat message =>
      state (chat buildMemoryReply cfg w now userId message s)
  | post_select_product orderId productIndex =>
      ServerOrders.state
        (ServerOrders.selectProduct orders now userId orderId productIndex s)
  | post_clear_selected_product =>
      ServerOrders.state (ServerOrders.clearSelectedProduct userId s)
  | post_logout => ServerOrders.state (ServerOrders.logout userId s)
  | post_case orderId productIndex description bodyDomain =>
      ServerOrders.state
        (ServerOrders.createCase orders w now userId orderId productIndex
                                 description bodyDomain s)
  | post_case_response id message =>
      state (caseResponse now userId userRole id message s)
  | put_case id updates =>
      state (caseUpdate w now userId userRole id updates s)
  | put_case_agent_only id enabled =>
      state (caseAgentOnly now userRole id enabled s)
  end.

(** Requests handled one after the other. *)
Fixpoint run (reqs : list (World * Time * Id * Role * Request)) (s : State)
    : State :=
  match reqs with
  | [] => s
  | (w, now, userId, userRole, req) :: rest =>
      run rest (handle w now userId userRole req s)
  end.
End Handle.

End ServerApi.

(* ===================================================================== *)
(** * Notions used to state the properties *)
(* ===================================================================== *)

(** The dot product of two real vectors over their shared prefix. *)
Definition dotR (a b : list R) : R := foldr Rplus 0%R (zip_with Rmult a b).


(** What the refund path writes into an existing case. *)
Definition refundUpdate (sp : Server.SelectedProduct) (message : string)
    (c : CaseDoc.t) : CaseDoc.t :=
  CaseDoc.set_status open
    (CaseDoc.set_domain (Server.sp_domain sp)
       (CaseDoc.set_priority high
          (CaseDoc.set_description ("[Refund Request] " +:+ message) c))).

(** What the generative fallback writes into an existing case. *)
Definition llmUpdate (sp : Server.SelectedProduct) (message : string)
    (c : CaseDoc.t) : CaseDoc.t :=
  let c := CaseDoc.set_domain (Server.sp_domain sp)
             (CaseDoc.set_priority (Server.llmPriority message)
                (CaseDoc.set_description message c)) in
  if decide (CaseDoc.status c = resolved) then CaseDoc.set_status open c else c.

(** Whether a JSON answer is the route's "Failed to process chat". *)
Definition is_500 (r : Server.HttpResponse) : bool :=
  match r with Server.json_500 _ => true | _ => false end.

(** The case a chat request is about: the stored case of the selected
    (user, order, product), or the one the route creates for it. *)
Definition caseOfChat (now : Time) (userId : Id) (sp : Server.SelectedProduct)
    (message : string) (s : Server.State) : CaseDoc.t :=
  (Server.ensureCase now userId sp message s).1.

(** The turn the route records while the agent-only lock is on. *)
Definition queuedTurn (now : Time) (sp : Server.SelectedProduct)
    (message : string) (caseId : Id) : Server.Turn :=
  {| Server.prompt := message; Server.reply := None;
     Server.t_orderId := Server.sp_orderId sp;
     Server.t_productIndex := Server.sp_productIndex sp;
     Server.t_caseId := Some caseId;
     Server.t_timestamp := now; Server.source := Some Server.src_user;
     Server.t_score := None |}.

(** What "no automated reply" means for the request [(w, now, message)] of
    user [uid] about the case [c] selected by [sp], in a conversation that
    started in state [s] with the lock of [c] stored until [deadline]: the
    answer is "queued", no stage is called, the only event goes to the agents
    room, the turn is recorded without a reply, and the case and its lock
    are as they were. *)
Definition queuedOutcome (uid : Id) (sp : Server.SelectedProduct)
    (c : CaseDoc.t) (deadline : Time) (s : Server.State)
    (req : Server.World * Time * string) (o : Server.Outcome) : Prop :=
  let '(w, now, message) := req in
  Server.response o = Server.json_queued (CaseDoc._id c)
  ∧ Server.calls o = []
  ∧ Server.emitted o =
      [ (Server.room_agents,
         Server.chat_user uid (Server.sp_orderId sp) (Server.sp_productIndex sp)
                          (CaseDoc._id c) message now) ]
  ∧ (∃ earlier,
        Server.get now (Server.chatKey (Server.redis (Server.state o)))
                   (uid, Server.sp_orderId sp, Server.sp_productIndex sp)
        = Some (earlier ++ [queuedTurn now sp message (CaseDoc._id c)]))
  ∧ Server.cases (Server.state o) = Server.cases s
  ∧ Server.agentOnlyKey (Server.redis (Server.state o)) !! CaseDoc._id c
    = Some deadline.

(** A request that can be served before the lock runs out: a non-empty
    message, sent before [deadline] while the product selection is live. *)
Definition servedBefore (uid : Id) (sp : Server.SelectedProduct)
    (deadline : Time) (s : Server.State)
    (req : Server.World * Time * string) : Prop :=
  let '(w, now, message) := req in
  Js.truthy_string message = true
  ∧ (now < deadline)%N
  ∧ Server.get now (Server.selectedProductKey (Server.redis s)) uid = Some sp.

(** A model that [callGemini] passes over: its quota is exhausted (code 429)
    or it answered without text. *)
Definition passedOver (w : Server.World) (prompt model : string) : Prop :=
  Server.generateContent w model prompt = Server.http_ok EmptyString
  ∨ ∃ msg, Server.generateContent w model prompt
           = Server.http_error (Some 429%Z) msg.

(** The error [callGemini] throws for a failure that is not a quota error. *)
Definition abortError (code : option Z) (msg : string) : string :=
  match code with
  | Some 400%Z => "Invalid request to Gemini API: " +:+ msg
  | Some 401%Z => "Gemini API authentication failed"
  | _ => msg
  end.

(** The score [analyzeSentiment] accumulates when [a] anger words and [c]
    calm words occur and the three punctuation tests come out as given. *)
Definition scoreOfCounts (a c : nat) (bang smile frown : bool) : float :=
  let score := Nat.iter a (fun s => (s - 1)%float) 0%float in
  let score := Nat.iter c (fun s => (s + 0.6)%float) score in
  let score := if bang then (score - 0.6)%float else score in
  let score := if smile then (score + 0.3)%float else score in
  if frown then (score - 0.3)%float else score.

(** The returned score is a number within [-1, 1] and on the side of the
    thresholds its label says. *)
Definition consistent (r : Sentiment.result) : bool :=
  negb (PrimFloat.is_nan (Sentiment.score r))
  && PrimFloat.leb (-1)%float (Sentiment.score r)
  && PrimFloat.leb (Sentiment.score r) 1%float
  && match Sentiment.label r with
     | angry => PrimFloat.leb (Sentiment.score r) (-0.8)%float
     | cool => PrimFloat.leb 0.6%float (Sentiment.score r)
     | neutral => PrimFloat.ltb (-0.8)%float (Sentiment.score r)
                  && PrimFloat.ltb (Sentiment.score r) 0.6%float
     end.

(** What [analyzeSentiment] returns for a raw score. *)
Definition resultOfScore (score : float) : Sentiment.result :=
  {| Sentiment.label := Sentiment.labelOf score;
     Sentiment.score :=
       Sentiment.Math_max (-1)%float (Sentiment.Math_min 1%float score) |}.

(** [consistent] on every combination of counts the two word lists allow. *)
Definition allConsistent : bool :=
  forallb (fun a =>
    forallb (fun c =>
      forallb (fun bang =>
        forallb (fun smile =>
          forallb (fun frown =>
            consistent (resultOfScore (scoreOfCounts a c bang smile frown)))
            [true; false]) [true; false]) [true; false])
      (seq 0 (S (length Sentiment.CALM_WORDS))))
    (seq 0 (S (length Sentiment.ANGER_WORDS))).

(** The pair a FAQ is looked up by when the collection is seeded. *)
Definition faqKey (f : FaqService.Faq) : string * Domain :=
  (FaqService.question f, FaqService.domain f).

(** The triple a case is unique by (the compound index of caseSchema). *)
Definition caseKey (c : CaseDoc.t) : Id * string * Z :=
  (CaseDoc.userId c, CaseDoc.orderId c, CaseDoc.productIndex c).

(** A well-formed Case collection: ids are distinct, keys are distinct (the
    unique index), and every id was handed out before [next]. *)
Definition wellFormed (cs : list CaseDoc.t) (next : Id) : Prop :=
  NoDup (map CaseDoc._id cs)
  ∧ NoDup (map caseKey cs)
  ∧ Forall (fun c => (CaseDoc._id c < next)%N) cs.

(** The ways the routes write the Case collection, from one pair of
    collection and next id to another: a case whose key is not stored is
    inserted with the next id; a stored case is saved with some fields
    changed but its id and key kept.  [R] relates a stored case to what is
    saved over it, [Rnew] holds of the inserted cases. *)
Inductive CaseOps (R : CaseDoc.t → CaseDoc.t → Prop) (Rnew : CaseDoc.t → Prop)
    : list CaseDoc.t * Id → list CaseDoc.t * Id → Prop :=
  | ops_done st : CaseOps R Rnew st st
  | ops_create cs n c st' :
      Server.findOne cs (CaseDoc.userId c) (CaseDoc.orderId c)
                     (CaseDoc.productIndex c) = None →
      CaseDoc._id c = n →
      Rnew c →
      CaseOps R Rnew (cs ++ [c], (n + 1)%N) st' →
      CaseOps R Rnew (cs, n) st'
  | ops_save cs n c c' st' :
      c ∈ cs →
      CaseDoc._id c' = CaseDoc._id c →
      caseKey c' = caseKey c →
      R c c' →
      CaseOps R Rnew (Server.save c' cs, n) st' →
      CaseOps R Rnew (cs, n) st'.

Definition caseOps (R : CaseDoc.t → CaseDoc.t → Prop) (Rnew : CaseDoc.t → Prop)
    (s s' : Server.State) : Prop :=
  CaseOps R Rnew (Server.cases s, Server.nextObjectId s)
                 (Server.cases s', Server.nextObjectId s').

(** What a request of user [uid] may do to a stored case: the case is one of
    [uid], and its status stays or becomes open; the responses stay. *)
Definition byOwner (uid : Id) (c c' : CaseDoc.t) : Prop :=
  CaseDoc.userId c = uid
  ∧ (CaseDoc.status c' = CaseDoc.status c ∨ CaseDoc.status c' = open)
  ∧ CaseDoc.responses c' = CaseDoc.responses c.

(** ... and the cases it may insert: open cases of [uid] without responses. *)
Definition newOf (uid : Id) (c : CaseDoc.t) : Prop :=
  CaseDoc.userId c = uid ∧ CaseDoc.status c = open ∧ CaseDoc.responses c = [].

(** What an admin route may save over a stored case: anything that keeps id
    and key. *)
Definition anyChange (c c' : CaseDoc.t) : Prop := True.
Definition noInsert (c : CaseDoc.t) : Prop := False.

(** The reply a JSON answer of the chat route carries, if any. *)
Definition replyOf (r : Server.HttpResponse) : option string :=
  match r with
  | Server.json_cs_agent reply _ _ => Some reply
  | Server.json_faq reply _ => Some reply
  | Server.json_case_memory reply _ _ => Some reply
  | _ => None
  end.

(** What a chat request of user [uid] leaves alone: the users, the FAQs, the
    product selections and the agent-only locks; and what it may do to the
    cases. *)
Definition chatFrame (uid : Id) (s s' : Server.State) : Prop :=
  Server.users s' = Server.users s
  ∧ Server.faqs s' = Server.faqs s
  ∧ Server.selectedProductKey (Server.redis s')
    = Server.selectedProductKey (Server.redis s)
  ∧ Server.agentOnlyKey (Server.redis s') = Server.agentOnlyKey (Server.redis s)
  ∧ caseOps (byOwner uid) (newOf uid) s s'.

(** The outcome [o] of a chat request handled at [now] in state [s] has
    appended exactly one turn to the list under [key], with the message as
    prompt and the reply of the answer, and has set the list to expire a day
    later; no other chat list is touched. *)
Definition turnRecorded (now : Time) (key : Id * string * Z) (message : string)
    (s : Server.State) (o : Server.Outcome) : Prop :=
  ∃ t,
    Server.chatKey (Server.redis (Server.state o))
    = <[key := (ServerThreads.lRange now (Server.redis s) key ++ [t],
                Server.EX now 86400)]> (Server.chatKey (Server.redis s))
    ∧ Server.prompt t = message
    ∧ Server.t_timestamp t = now
    ∧ Server.reply t = replyOf (Server.response o).

(** Every event of the outcome goes to the room of user [uid] or to the
    agents room. *)
Definition toRequesterAndAgents (uid : Id) (o : Server.Outcome) : Prop :=
  Forall (fun e => fst e = Server.room_user uid ∨ fst e = Server.room_agents)
         (Server.emitted o).

(** The requests of a list all come from users without the admin role whose
    ids satisfy [P]. *)
Definition fromUsers (P : Id → Prop)
    (reqs : list (Server.World * Time * Id * Server.Role * ServerApi.Request))
    : Prop :=
  Forall (fun '(w, now, uid, role, req) => role = Server.role_user ∧ P uid) reqs.

(** The order of a thread: by timestamp. *)
Definition earlier (a b : ServerThreads.Entry) : Prop :=
  (ServerThreads.te_timestamp a ≤ ServerThreads.te_timestamp b)%N.

(** The [thread] field of the answer of a thread route, if it answered. *)
Definition threadOf (r : ServerThreads.ThreadReply)
    : option (list ServerThreads.Entry) :=
  match r with
  | ServerThreads.thread_ok _ thread => Some thread
  | ServerThreads.thread_error _ _ => None
  end.

(** A JSON answer that rejects the request: status 400 or 404. *)
Definition rejected (r : Server.HttpResponse) : Prop :=
  match r with
  | Server.json_400 _ | Server.json_404 _ => True
  | _ => False
  end.

(** What a stage of the chat route establishes, from the state it starts
    in. *)
Definition stageOk (now : Time) (uid : Id) (sp : Server.SelectedProduct)
    (message : string) (s : Server.State) (o : Server.Outcome) : Prop :=
  chatFrame uid s (Server.state o)
  ∧ turnRecorded now (uid, Server.sp_orderId sp, Server.sp_productIndex sp)
                 message s o
  ∧ toRequesterAndAgents uid o.

(** Text made of ASCII characters only.  On such text a character is one
    byte and one UTF-16 code unit, and lower-casing touches the letters A to
    Z only, so that [Js.toLowerCase] and [Js.slice0] are
    [String.prototype.toLowerCase] and [String.prototype.slice]. *)
Fixpoint asciiText (s : string) : bool :=
  match s with
  | EmptyString => true
  | String c s' => (Ascii.nat_of_ascii c <? 128)%nat && asciiText s'
  end.


(** The number of CaseMemory records that refer to the case [id]. *)
Definition recordsFor (id : Id) (coll : list CaseMemory.doc) : nat :=
  length (filter (fun d => CaseMemory.caseId d = id) coll).

(* ===================================================================== *)
(** * A concrete deployment, used to run the routes *)
(* ===================================================================== *)

Module Scenario.
Import Server.

Definition alice : User :=
  {| name := "Alice"; email := "alice@example.com"; role := role_user |}.

Definition phone : SelectedProduct :=
  {| sp_orderId := "ORD-1"; sp_productIndex := 0; sp_name := "Phone";
     sp_quantity := "1"; sp_price := "199"; sp_domain := ECommerce;
     sp_status := "Delivered" |}.

(** The case of Alice's phone order, in a given status. *)
Definition phoneCase (st : Status) : CaseDoc.t :=
  {| CaseDoc._id := 7; CaseDoc.userId := 1; CaseDoc.orderId := "ORD-1";
     CaseDoc.productIndex := 0; CaseDoc.description := "late delivery";
     CaseDoc.domain := ECommerce; CaseDoc.priority := low;
     CaseDoc.status := st; CaseDoc.responses := [];
     CaseDoc.createdAt := 1000; CaseDoc.updatedAt := 1000 |}.

Definition trackingFaq : FaqService.Faq :=
  {| FaqService.question := "Where is my order?";
     FaqService.answer := "Track it under My Orders.";
     FaqService.domain := ECommerce;
     FaqService.embedding := [1; 0]%float |}.

(** Alice is stored, has selected her phone (until instant 5000000), and her
    case is in status [st]; [locks] holds the agent-only keys. *)
Definition state (st : Status) (locks : gmap Id Time) : State :=
  {| cases := [phoneCase st];
     users := {[ 1%N := alice ]};
     faqs := [trackingFaq];
     memories := [];
     redis := {| userKey := ∅;
                 selectedProductKey := {[ 1%N := (phone, 5000000%N) ]};
                 chatKey := ∅;
                 agentOnlyKey := locks |};
     nextObjectId := 8 |}.

(** Collaborators that all answer: every text embeds to [[1, 0]], so every
    message matches [trackingFaq] with similarity 1. *)
Definition world : World :=
  {| embedContent := λ _, Ok [1; 0]%float;
     generateContent := λ _ _, http_ok "We are looking into it.";
     faqQueryOk := true;
     caseMemoryQueryOk := true |}.

(** Collaborators that are all down. *)
Definition outage : World :=
  {| embedContent := λ _, Throw "ECONNREFUSED";
     generateContent := λ _ _, http_error None "ECONNREFUSED";
     faqQueryOk := false;
     caseMemoryQueryOk := false |}.

Definition buildMemoryReply (summary orderId productName : string) : string :=
  "I’ve handled a similar case before: " +:+ summary.

Definition chat := Server.chat buildMemoryReply defaultConfig.

(** The orders of Alice: one delivered order with her phone, which the
    catalogue files under Telecommunications. *)
Definition phoneProduct : ServerOrders.Product :=
  {| ServerOrders.p_name := "Phone";
     ServerOrders.p_quantity := "1";
     ServerOrders.p_price := "199";
     ServerOrders.p_domain := Telecommunications |}.

Definition phoneOrder : ServerOrders.Order :=
  {| ServerOrders.o_orderId := "ORD-1";
     ServerOrders.o_status := "Delivered";
     ServerOrders.o_products := [phoneProduct] |}.

Definition orders : gmap Id (list ServerOrders.Order) :=
  {[ 1%N := [phoneOrder] ]}.

(** A resolved case of another user, Bob (id 2), with one agent response. *)
Definition bobCase : CaseDoc.t :=
  {| CaseDoc._id := 5; CaseDoc.userId := 2; CaseDoc.orderId := "ORD-9";
     CaseDoc.productIndex := 1; CaseDoc.description := "wrong size";
     CaseDoc.domain := ECommerce; CaseDoc.priority := low;
     CaseDoc.status := resolved;
     CaseDoc.responses :=
       [ {| CaseDoc.adminId := Some 9%N; CaseDoc.message := "Replaced.";
            CaseDoc.timestamp := 900%N |} ];
     CaseDoc.createdAt := 800; CaseDoc.updatedAt := 900 |}.

(** The state of [state] with Bob's case stored as well. *)
Definition shared (st : Status) : State :=
  set_cases [bobCase; phoneCase st] (state st ∅).

Definition run := ServerApi.run buildMemoryReply defaultConfig orders.

(** Alice asks for a refund, then files her case again through POST
    /api/case, then picks her phone again. *)
Definition aliceRequests
    : list (World * Time * Id * Role * ServerApi.Request) :=
  [ (world, 2000%N, 1%N, role_user, ServerApi.post_chat (Some "I want a refund"));
    (outage, 3000%N, 1%N, role_user,
     ServerApi.post_case "ORD-1" (Some 0%Z) "payment failed"
                         ServerOrders.domain_absent);
    (world, 4000%N, 1%N, role_user, ServerApi.post_select_product "ORD-1" 0) ].

(** ... and an agent (id 9) answers and resolves her case. *)
Definition agentRequests
    : list (World * Time * Id * Role * ServerApi.Request) :=
  [ (world, 5000%N, 9%N, role_admin,
     ServerApi.post_case_response 7 (Some "We are on it"));
    (world, 6000%N, 9%N, role_admin,
     ServerApi.put_case 7 {| upd_status := Some resolved;
                             upd_priority := None;
                             upd_description := None |}) ].

(** Collaborators whose first two Gemini models are out of quota and whose
    third model answers. *)
Definition quota : World :=
  {| embedContent := λ _, Ok [1; 0]%float;
     generateContent := λ model _,
       if bool_decide (model = "gemini-2.5-flash")
       then http_ok "Please share your order number."
       else http_error (Some 429%Z) "quota exceeded";
     faqQueryOk := true;
     caseMemoryQueryOk := true |}.

(** The case-memory record of Alice's case. *)
Definition phoneMemo : CaseMemory.doc :=
  {| CaseMemory.caseId := 7; CaseMemory.orderId := "ORD-1";
     CaseMemory.productIndex := 0;
     CaseMemory.summary := "[E-commerce] late delivery";
     CaseMemory.domain := ECommerce;
     CaseMemory.embedding := [1; 0]%float;
     CaseMemory.createdAt := 1000 |}.

(** A socket of Bob, who is no admin. *)
Definition bobSocket : ServerSockets.Socket :=
  ServerSockets.connection 2 role_user.

(** The body an admin sends to resolve a case. *)
Definition resolve : Updates :=
  {| upd_status := Some resolved; upd_priority := None;
     upd_description := None |}.

End Scenario.

(* ===================================================================== *)
(** * Properties of sentiment.js and sla.js *)
(* ===================================================================== *)

Section SentimentFacts.
Import Sentiment.

(** The label depends on the unclamped score through the two thresholds. *)
Lemma analyzeSentiment_label (text : string) :
  label (analyzeSentiment text) = labelOf (rawScore text).
Proof. reflexivity. Qed.

(** "ok" is itself one of the calm words: it scores 0.6, which reaches the
    [cool] threshold. *)
Lemma analyzeSentiment_ok_not_neutral :
  label (analyzeSentiment "ok") ≠ neutral.
Proof. vm_compute. discriminate. Qed.

(** C5 (as amended): "please, no hurry" is cool, "this is a scam, fraud,
    terrible!!!" is angry, and "ok" is cool with score 0.6; the label is
    [angry] when the score is at most -0.8, else [cool] when the score is at
    least 0.6, else [neutral]. *)
Theorem analyzeSentiment_examples :
  label (analyzeSentiment "please, no hurry") = cool
  ∧ label (analyzeSentiment "this is a scam, fraud, terrible!!!") = angry
  ∧ analyzeSentiment "ok" = {| label := cool; score := 0.6%float |}
  ∧ ∀ text : string,
      label (analyzeSentiment text) =
        if PrimFloat.leb (rawScore text) (-0.8)%float then angry
        else if PrimFloat.leb 0.6%float (rawScore text) then cool
        else neutral.
Proof.
  split; [vm_compute; reflexivity|].
  split; [vm_compute; reflexivity|].
  split; [vm_compute; reflexivity|].
  intros text. reflexivity.
Qed.

(** A text without any lexicon entry is neutral with score 0. *)
Example analyzeSentiment_hello :
  analyzeSentiment "hello" = {| label := neutral; score := 0%float |}.
Proof. vm_compute. reflexivity. Qed.
End SentimentFacts.

Section SlaFacts.
Import Sla.

(** C6: with the default targets, [computeSLA] answers express/15 for an
    angry sentiment, else express/15 for high priority, else batched/180 for
    a cool sentiment, else standard/60; the three sample calls evaluate as
    stated. *)
Theorem computeSLA_precedence :
  (∀ (p : Priority) (l : Label),
      computeSLA defaultEnv (Some p) (Some l) =
        match l, p with
        | angry, _ => {| level := express; targetMinutes := 15 |}
        | _, high => {| level := express; targetMinutes := 15 |}
        | cool, low => {| level := batched; targetMinutes := 180 |}
        | neutral, low => {| level := standard; targetMinutes := 60 |}
        end)
  ∧ computeSLA defaultEnv (Some high) (Some neutral)
      = {| level := express; targetMinutes := 15 |}
  ∧ computeSLA defaultEnv (Some low) (Some cool)
      = {| level := batched; targetMinutes := 180 |}
  ∧ computeSLA defaultEnv (Some low) (Some neutral)
      = {| level := standard; targetMinutes := 60 |}.
Proof.
  split; [|repeat split].
  intros [] []; reflexivity.
Qed.

(** The targets follow the environment when it sets them. *)
Lemma computeSLA_level_independent_of_env (e : env) p l :
  level (computeSLA e p l) = level (computeSLA defaultEnv p l).
Proof.
  unfold computeSLA. repeat case_decide; reflexivity.
Qed.
End SlaFacts.

(* ===================================================================== *)
(** * Properties of the cosine similarity *)
(* ===================================================================== *)

Section CosineGeneric.
Context {T : Type} `{JsNumber T}.
Import FaqService.






End CosineGeneric.

Section CosineReal.
Import FaqService.
Local Open Scope R_scope.






Lemma dotR_zeros_l (a b : list R) : Forall (λ x, x = 0) a → dotR a b = 0.
Proof.
  intros Ha. revert b. induction Ha as [|x a -> _ IH]; intros [|y b];
    unfold dotR in *; simpl; try reflexivity.
  rewrite IH. ring.
Qed.




End CosineReal.

Section CosineFloat.
Import FaqService.





Example cosineSimilarity_float_orthogonal :
  cosineSimilarity [1; 0]%float [0; 1]%float = 0%float.
Proof. vm_compute. reflexivity. Qed.
Example cosineSimilarity_float_mismatch :
  cosineSimilarity [3; 4; 100]%float [3; 4]%float = 1%float.
Proof. vm_compute. reflexivity. Qed.

End CosineFloat.

Section CosineDoubles.
Import FaqService.






End CosineDoubles.


(* ===================================================================== *)
(** * Error handling of the FAQ and case-memory stages *)
(* ===================================================================== *)

Section Swallow.

(** A [try] block whose handler returns a value never throws. *)
Lemma try_catch_value {A} (m : Exc A) (v : A) :
  ∃ r, try_catch m (λ _, Ok v) = Ok r.
Proof. destruct m as [a|e]; simpl; eauto. Qed.

Lemma try_catch_throw {A} (m : Exc A) (v : A) :
  is_ok m = false → try_catch m (λ _, Ok v) = Ok v.
Proof. destruct m as [a|e]; simpl; [discriminate|reflexivity]. Qed.

(** [getEmbedding] fails exactly when the HTTP call does. *)
Lemma getEmbedding_is_ok post text :
  is_ok (FaqService.getEmbedding post text) = is_ok (post text).
Proof. unfold FaqService.getEmbedding. destruct (post text); reflexivity. Qed.

Lemma checkFaq_try_embedding_unavailable e post dbUp corpus message dom :
  is_ok (post (Js.slice0 512 message)) = false →
  is_ok (FaqService.checkFaq_try e post dbUp corpus message dom) = false.
Proof.
  intros Hp. unfold FaqService.checkFaq_try, FaqService.getEmbedding.
  destruct (post _); [discriminate|reflexivity].
Qed.

Lemma checkFaq_try_query_fails e post corpus message dom :
  is_ok (FaqService.checkFaq_try e post false corpus message dom) = false.
Proof.
  unfold FaqService.checkFaq_try, FaqService.getEmbedding.
  destruct (post _); reflexivity.
Qed.

Lemma searchSimilarCases_try_embedding_unavailable post dbUp coll text dom k :
  is_ok (post (Js.slice0 512 text)) = false →
  is_ok (CaseMemory.searchSimilarCases_try post dbUp coll text dom k) = false.
Proof.
  intros Hp. unfold CaseMemory.searchSimilarCases_try, FaqService.getEmbedding.
  destruct (post _); [discriminate|reflexivity].
Qed.

Lemma searchSimilarCases_try_query_fails post coll text dom k :
  is_ok (CaseMemory.searchSimilarCases_try post false coll text dom k) = false.
Proof.
  unfold CaseMemory.searchSimilarCases_try, FaqService.getEmbedding.
  destruct (post _); reflexivity.
Qed.

(** [indexCase] and [indexResolutionSummary] never throw either. *)
Lemma indexCase_value post dbUp now coll caseDoc :
  ∃ coll', CaseMemory.indexCase post dbUp now coll caseDoc = Ok coll'.
Proof.
  destruct caseDoc as [c|]; simpl; [apply try_catch_value|eauto].
Qed.

End Swallow.

(* ===================================================================== *)
(** * The case-memory index is keyed by case id *)
(* ===================================================================== *)

Section IndexFacts.
Import CaseMemory.

Lemma recordsFor_cons (id : Id) (d : doc) (coll : list doc) :
  recordsFor id (d :: coll) =
  ((if decide (caseId d = id) then 1 else 0) + recordsFor id coll)%nat.
Proof.
  unfold recordsFor. rewrite filter_cons. case_decide; reflexivity.
Qed.

(** An upsert keeps the number of records of its case when there is one,
    and makes it one when there is none. *)
Lemma recordsFor_upsert_same (d : doc) (coll : list doc) :
  recordsFor (caseId d) (upsert d coll) =
  Nat.max 1 (recordsFor (caseId d) coll).
Proof.
  induction coll as [|x coll IH]; simpl.
  - rewrite recordsFor_cons. rewrite decide_True by reflexivity. reflexivity.
  - case_decide as Hx.
    + rewrite !recordsFor_cons, Hx. rewrite !decide_True by reflexivity.
      reflexivity.
    + rewrite !recordsFor_cons, IH. rewrite !decide_False by exact Hx.
      reflexivity.
Qed.

(** Records of other cases are not touched. *)
Lemma recordsFor_upsert_other (id : Id) (d : doc) (coll : list doc) :
  caseId d ≠ id → recordsFor id (upsert d coll) = recordsFor id coll.
Proof.
  intros Hne. induction coll as [|x coll IH]; simpl.
  - rewrite recordsFor_cons, decide_False by exact Hne. reflexivity.
  - case_decide as Hx.
    + rewrite !recordsFor_cons. rewrite Hx. reflexivity.
    + rewrite !recordsFor_cons, IH. reflexivity.
Qed.



(** What [indexCase] leaves behind: the collection untouched, or the
    upsert of one record of this case. *)
Lemma indexCase_cases post dbUp now coll (c : CaseDoc.t) :
  indexCase post dbUp now coll (Some c) = Ok coll
  ∨ ∃ v, indexCase post dbUp now coll (Some c) =
         Ok (upsert (update c (caseText c) v now) coll).
Proof.
  unfold indexCase, index_try, FaqService.getEmbedding, findOneAndUpdate.
  destruct (post (caseText c)) as [v|e]; simpl; [|left; reflexivity].
  destruct dbUp; simpl; [|left; reflexivity].
  right. exists v. reflexivity.
Qed.

(** [indexCase] never introduces a second record for a case. *)
Lemma indexCase_unique post dbUp now coll caseDoc (id : Id) :
  (recordsFor id coll ≤ 1)%nat →
  ∃ coll', indexCase post dbUp now coll caseDoc = Ok coll'
           ∧ (recordsFor id coll' ≤ 1)%nat.
Proof.
  intros Hu. destruct caseDoc as [c|]; [|exists coll; split; [reflexivity|exact Hu]].
  destruct (indexCase_cases post dbUp now coll c) as [E|(v & E)];
    rewrite E; eexists; (split; [reflexivity|]); [exact Hu|].
  destruct (decide (CaseDoc._id c = id)) as [<-|Hne].
  - pose proof (recordsFor_upsert_same (update c (caseText c) v now) coll) as Hs.
    simpl in Hs. rewrite Hs. lia.
  - rewrite recordsFor_upsert_other by exact Hne. exact Hu.
Qed.
End IndexFacts.


(* ===================================================================== *)
(** * Properties of the Case collection and of the lock *)
(* ===================================================================== *)

Section CollectionFacts.
Import Server.

Lemma findOne_key cs u o p c :
  findOne cs u o p = Some c →
  CaseDoc.userId c = u ∧ CaseDoc.orderId c = o ∧ CaseDoc.productIndex c = p.
Proof.
  unfold findOne. intros Hf. apply find_some in Hf as [_ Hk].
  apply bool_decide_eq_true in Hk. exact Hk.
Qed.

(** Saving a document that keeps its key and id makes it the one found. *)
Lemma findOne_save cs u o p c c' :
  findOne cs u o p = Some c →
  CaseDoc._id c' = CaseDoc._id c →
  CaseDoc.userId c' = u → CaseDoc.orderId c' = o →
  CaseDoc.productIndex c' = p →
  findOne (save c' cs) u o p = Some c'.
Proof.
  intros Hf Hid Hu Ho Hp. unfold findOne in *.
  induction cs as [|x cs IH]; simpl in *; [discriminate|].
  destruct (bool_decide (CaseDoc.userId x = u ∧ _)) eqn:Hx.
  - injection Hf as ->. rewrite decide_True by (symmetry; exact Hid).
    rewrite bool_decide_eq_true_2 by (repeat split; assumption).
    reflexivity.
  - destruct (decide (CaseDoc._id x = CaseDoc._id c')) as [Hxid|Hxid].
    + rewrite bool_decide_eq_true_2 by (repeat split; assumption).
      reflexivity.
    + rewrite Hx. apply IH. exact Hf.
Qed.

Lemma findById_id cs id c : findById cs id = Some c → CaseDoc._id c = id.
Proof.
  unfold findById. intros Hf. apply find_some in Hf as [_ Hk].
  apply bool_decide_eq_true in Hk. exact Hk.
Qed.

Lemma findById_save cs id c c' :
  findById cs id = Some c → CaseDoc._id c' = id →
  findById (save c' cs) id = Some c'.
Proof.
  intros Hf Hid. unfold findById in *.
  induction cs as [|x cs IH]; simpl in *; [discriminate|].
  destruct (bool_decide (CaseDoc._id x = id)) eqn:Hx.
  - apply bool_decide_eq_true in Hx.
    rewrite decide_True by congruence.
    rewrite bool_decide_eq_true_2 by exact Hid. reflexivity.
  - apply bool_decide_eq_false in Hx.
    rewrite decide_False by congruence.
    rewrite bool_decide_eq_false_2 by exact Hx. apply IH. exact Hf.
Qed.

(** A case appended to a collection without a match is the one found. *)
Lemma findOne_app_new cs u o p c :
  findOne cs u o p = None →
  CaseDoc.userId c = u → CaseDoc.orderId c = o → CaseDoc.productIndex c = p →
  findOne (cs ++ [c]) u o p = Some c.
Proof.
  intros Hn Hu Ho Hp. unfold findOne in *.
  induction cs as [|x cs IH]; simpl in *.
  - rewrite bool_decide_eq_true_2 by (repeat split; assumption). reflexivity.
  - destruct (bool_decide _); [discriminate|]. apply IH. exact Hn.
Qed.

(** The lock read back. *)
Lemma isAgentOnly_spec now id r :
  isAgentOnly now (Some id) r = true ↔
  ∃ deadline, agentOnlyKey r !! id = Some deadline ∧ (now < deadline)%N.
Proof.
  unfold isAgentOnly. destruct (agentOnlyKey r !! id) as [d|].
  - rewrite N.ltb_lt. split; [eauto|]. intros (d' & E & Hlt).
    injection E as ->. exact Hlt.
  - split; [discriminate|]. intros (d' & E & _). discriminate.
Qed.

(** A lock set at [t0] is on until its TTL has run out. *)
Lemma setAgentOnly_on t0 now id r :
  (now < t0 + 1800000)%N → isAgentOnly now (Some id) (setAgentOnly t0 (Some id) r) = true.
Proof.
  intros Hlt. apply isAgentOnly_spec. exists (EX t0 AGENT_ONLY_TTL).
  simpl. rewrite lookup_insert_eq. split; [reflexivity|].
  unfold EX, AGENT_ONLY_TTL. lia.
Qed.

(** ... and is off from then on: the key has expired. *)
Lemma setAgentOnly_expired t0 now id r :
  (t0 + 1800000 ≤ now)%N → isAgentOnly now (Some id) (setAgentOnly t0 (Some id) r) = false.
Proof.
  intros Hle. unfold isAgentOnly, setAgentOnly. simpl.
  rewrite lookup_insert_eq. apply N.ltb_ge.
  unfold EX, AGENT_ONLY_TTL. lia.
Qed.

(** A cleared lock is off. *)
Lemma clearAgentOnly_off now id r :
  isAgentOnly now (Some id) (clearAgentOnly (Some id) r) = false.
Proof.
  unfold isAgentOnly, clearAgentOnly. simpl. rewrite lookup_delete_eq.
  reflexivity.
Qed.

(** A refund message is not empty. *)
Lemma isRefund_truthy message :
  isRefund message = true → Js.truthy_string message = true.
Proof. destruct message; [vm_compute; discriminate|reflexivity]. Qed.
End CollectionFacts.

(* ===================================================================== *)
(** * The chat route, stage by stage *)
(* ===================================================================== *)

Section ChatFacts.
Import Server.
Variable buildMemoryReply : string → string → string → string.
Variable cfg : Config.

Abbreviation chat := (chat buildMemoryReply cfg).
Abbreviation chat_automation := (chat_automation buildMemoryReply cfg).

(** A stored user is always loaded; only the user cache may change. *)
Lemma loadUser_known now uid s u :
  users s !! uid = Some u →
  ∃ u' m, loadUser now uid s = Some (u', set_redis (set_userKey m (redis s)) s).
Proof.
  intros Hu. unfold loadUser.
  destruct (get now (userKey (redis s)) uid) as [u0|].
  - exists u0, (userKey (redis s)). destruct s as [? ? ? ? [] ?]. reflexivity.
  - rewrite Hu. eauto.
Qed.

(** After "ensure case exists" the case of the request is the stored one. *)
Lemma ensureCase_spec now uid sp message s :
  ∃ cs' n',
    ensureCase now uid sp message s =
      (caseOfChat now uid sp message s, set_nextObjectId n' (set_cases cs' s))
    ∧ findOne cs' uid (sp_orderId sp) (sp_productIndex sp)
      = Some (caseOfChat now uid sp message s)
    ∧ (∀ c, findOne (cases s) uid (sp_orderId sp) (sp_productIndex sp) = Some c →
            caseOfChat now uid sp message s = c ∧ cs' = cases s).
Proof.
  unfold caseOfChat, ensureCase.
  destruct (findOne (cases s) uid (sp_orderId sp) (sp_productIndex sp))
    as [c|] eqn:Hf.
  - exists (cases s), (nextObjectId s). simpl. split; [|split].
    + destruct s; reflexivity.
    + exact Hf.
    + intros c' [= ->]. split; reflexivity.
  - unfold create. simpl. eexists _, _. split; [|split].
    + reflexivity.
    + apply findOne_app_new; [exact Hf|reflexivity..].
    + intros c [=].
Qed.

Lemma caseOfChat_frame now uid sp message s m :
  caseOfChat now uid sp message (set_redis (set_userKey m (redis s)) s)
  = caseOfChat now uid sp message s.
Proof.
  unfold caseOfChat, ensureCase. simpl.
  destruct (findOne _ _ _ _); reflexivity.
Qed.

(** The route up to the agent-only check, for a well-formed request of a
    stored user with a live product selection. *)
Lemma chat_handled w now uid message s u sp :
  Js.truthy_string message = true →
  users s !! uid = Some u →
  get now (selectedProductKey (redis s)) uid = Some sp →
  ∃ u' m cs' n',
    let c0 := caseOfChat now uid sp message s in
    let s2 := set_nextObjectId n'
                (set_cases cs' (set_redis (set_userKey m (redis s)) s)) in
    findOne cs' uid (sp_orderId sp) (sp_productIndex sp) = Some c0
    ∧ (∀ c, findOne (cases s) uid (sp_orderId sp) (sp_productIndex sp) = Some c →
            c0 = c ∧ cs' = cases s)
    ∧ chat w now uid (Some message) s =
        if isAgentOnly now (Some (CaseDoc._id c0)) (redis s)
        then chat_agentOnly now uid sp message c0 s2
        else chat_automation w now uid u' sp message s2.
Proof.
  intros Hm Hu Hsp.
  destruct (loadUser_known now uid s u Hu) as (u' & m & Hl).
  destruct (ensureCase_spec now uid sp message
              (set_redis (set_userKey m (redis s)) s))
    as (cs' & n' & He & Hf & Hsame).
  rewrite caseOfChat_frame in He, Hf, Hsame.
  exists u', m, cs', n'. cbv zeta. split; [exact Hf|]. split; [exact Hsame|].
  unfold Server.chat. rewrite Hm. simpl negb. cbv iota.
  rewrite Hl.
  change (selectedProductKey (redis (set_redis (set_userKey m (redis s)) s)))
    with (selectedProductKey (redis s)).
  rewrite Hsp, He. reflexivity.
Qed.

(** The refund stage on a state that holds the case of the request. *)
Lemma chat_refund_found w now uid sp message s c0 :
  findOne (cases s) uid (sp_orderId sp) (sp_productIndex sp) = Some c0 →
  let o := chat_refund cfg w now uid sp message s in
  response o =
    json_cs_agent refundReply
      (Sla.computeSLA (slaEnv cfg) (Some high)
         (Some (Sentiment.label (Sentiment.analyzeSentiment message))))
      (CaseDoc._id c0)
  ∧ calls o = [call_indexCase (CaseDoc._id c0)]
  ∧ emitted o =
      [ (room_user uid,
         chat_reply uid (sp_orderId sp) (sp_productIndex sp)
                    (Some (CaseDoc._id c0)) src_refund refundReply now);
        (room_user uid, case_status (CaseDoc._id c0) open);
        (room_agents,
         chat_reply uid (sp_orderId sp) (sp_productIndex sp)
                    (Some (CaseDoc._id c0)) src_refund refundReply now) ]
  ∧ cases (state o) = save (refundUpdate sp message c0) (cases s).
Proof.
  intros Hf. unfold chat_refund. rewrite Hf.
  cbv zeta.
  match goal with
  | |- context [CaseMemory.indexCase ?p ?d ?n ?m ?c] =>
      destruct (indexCase_value p d n m c) as [mem E]; rewrite E
  end.
  repeat split.
Qed.

(** A well-formed refund request outside the lock is answered by the refund
    stage, which works on the case of the request. *)
Lemma chat_refund_request w now uid message s u sp :
  isRefund message = true →
  users s !! uid = Some u →
  get now (selectedProductKey (redis s)) uid = Some sp →
  isAgentOnly now (Some (CaseDoc._id (caseOfChat now uid sp message s)))
              (redis s) = false →
  let o := chat w now uid (Some message) s in
  let c0 := caseOfChat now uid sp message s in
  response o =
    json_cs_agent refundReply
      (Sla.computeSLA (slaEnv cfg) (Some high)
         (Some (Sentiment.label (Sentiment.analyzeSentiment message))))
      (CaseDoc._id c0)
  ∧ calls o = [call_indexCase (CaseDoc._id c0)]
  ∧ emitted o =
      [ (room_user uid,
         chat_reply uid (sp_orderId sp) (sp_productIndex sp)
                    (Some (CaseDoc._id c0)) src_refund refundReply now);
        (room_user uid, case_status (CaseDoc._id c0) open);
        (room_agents,
         chat_reply uid (sp_orderId sp) (sp_productIndex sp)
                    (Some (CaseDoc._id c0)) src_refund refundReply now) ]
  ∧ findOne (cases (state o)) uid (sp_orderId sp) (sp_productIndex sp)
    = Some (refundUpdate sp message c0).
Proof.
  intros Hr Hu Hsp Hlock. cbv zeta.
  destruct (chat_handled w now uid message s u sp (isRefund_truthy _ Hr) Hu Hsp)
    as (u' & m & cs' & n' & Hf & _ & Hchat).
  cbv zeta in Hf, Hchat. rewrite Hchat, Hlock.
  unfold Server.chat_automation. rewrite Hr.
  match goal with
  | |- context [chat_refund cfg w now uid sp message ?s2] =>
      pose proof (chat_refund_found w now uid sp message s2 _ Hf) as Hstage
  end.
  cbv zeta in Hstage. destruct Hstage as (Hresp & Hcalls & Hem & Hcases).
  split; [exact Hresp|]. split; [exact Hcalls|]. split; [exact Hem|].
  rewrite Hcases. simpl cases.
  destruct (findOne_key _ _ _ _ _ Hf) as (Hk1 & Hk2 & Hk3).
  apply (findOne_save _ _ _ _ _ _ Hf); [reflexivity|exact Hk1|exact Hk2|exact Hk3].
Qed.
End ChatFacts.

(** C1: a chat message that contains a refund keyword, sent by a stored user
    with a live product selection while no agent-only lock is on for the case
    of the request, takes the refund path: the answer is the fixed escalation
    reply with an SLA computed for priority high (hence express), the reply
    is published tagged "refund" to the user and to the agents, the case is
    stored with the refund-tagged description, priority high and status
    open, and the only stage call is the indexing of the case: [checkFaq] is
    never called, whatever the FAQ corpus and the collaborators are. *)
Theorem refund_path_precedes_faq
    (buildMemoryReply : string → string → string → string)
    (cfg : Server.Config) (w : Server.World) (now : Time) (uid : Id)
    (message : string) (s : Server.State) (u : Server.User)
    (sp : Server.SelectedProduct) :
  Server.isRefund message = true →
  Server.users s !! uid = Some u →
  Server.get now (Server.selectedProductKey (Server.redis s)) uid = Some sp →
  Server.isAgentOnly now (Some (CaseDoc._id (caseOfChat now uid sp message s)))
                     (Server.redis s) = false →
  let o := Server.chat buildMemoryReply cfg w now uid (Some message) s in
  let id := CaseDoc._id (caseOfChat now uid sp message s) in
  let sla := Sla.computeSLA (Server.slaEnv cfg) (Some high)
               (Some (Sentiment.label (Sentiment.analyzeSentiment message))) in
  Server.response o = Server.json_cs_agent Server.refundReply sla id
  ∧ Sla.level sla = express
  ∧ Server.emitted o =
      [ (Server.room_user uid,
         Server.chat_reply uid (Server.sp_orderId sp) (Server.sp_productIndex sp)
                           (Some id) Server.src_refund Server.refundReply now);
        (Server.room_user uid, Server.case_status id open);
        (Server.room_agents,
         Server.chat_reply uid (Server.sp_orderId sp) (Server.sp_productIndex sp)
                           (Some id) Server.src_refund Server.refundReply now) ]
  ∧ (∃ c', Server.findOne (Server.cases (Server.state o)) uid
                          (Server.sp_orderId sp) (Server.sp_productIndex sp)
           = Some c'
           ∧ CaseDoc._id c' = id
           ∧ CaseDoc.priority c' = high
           ∧ CaseDoc.description c' = "[Refund Request] " +:+ message
           ∧ CaseDoc.status c' = open)
  ∧ Server.calls o = [Server.call_indexCase id]
  ∧ (∀ m d, Server.call_checkFaq m d ∉ Server.calls o).
Proof.
  intros Hr Hu Hsp Hlock. cbv zeta.
  destruct (chat_refund_request buildMemoryReply cfg w now uid message s u sp
              Hr Hu Hsp Hlock) as (Hresp & Hcalls & Hem & Hcase).
  split; [exact Hresp|].
  split.
  { unfold Sla.computeSLA. simpl. case_decide; reflexivity. }
  split; [exact Hem|].
  split.
  { eexists. split; [exact Hcase|]. repeat split. }
  split; [exact Hcalls|].
  intros m d Hin. rewrite Hcalls in Hin.
  apply list_elem_of_singleton in Hin. discriminate Hin.
Qed.

(** C10: when the case of the request already exists, the refund stage sets
    its status to open whatever it was (an in-progress case included), and
    overwrites its description with the refund-tagged text, its priority
    with high and its domain with the selected one; the other fields stay. *)
Theorem refund_stage_overwrites_case
    (buildMemoryReply : string → string → string → string)
    (cfg : Server.Config) (w : Server.World) (now : Time) (uid : Id)
    (message : string) (s : Server.State) (u : Server.User)
    (sp : Server.SelectedProduct) (c : CaseDoc.t) :
  Server.isRefund message = true →
  Server.users s !! uid = Some u →
  Server.get now (Server.selectedProductKey (Server.redis s)) uid = Some sp →
  Server.findOne (Server.cases s) uid (Server.sp_orderId sp)
                 (Server.sp_productIndex sp) = Some c →
  Server.isAgentOnly now (Some (CaseDoc._id c)) (Server.redis s) = false →
  let o := Server.chat buildMemoryReply cfg w now uid (Some message) s in
  ∃ c', Server.findOne (Server.cases (Server.state o)) uid
                       (Server.sp_orderId sp) (Server.sp_productIndex sp)
        = Some c'
        ∧ CaseDoc.status c' = open
        ∧ CaseDoc.description c' = "[Refund Request] " +:+ message
        ∧ CaseDoc.priority c' = high
        ∧ CaseDoc.domain c' = Server.sp_domain sp
        ∧ CaseDoc._id c' = CaseDoc._id c
        ∧ CaseDoc.userId c' = CaseDoc.userId c
        ∧ CaseDoc.orderId c' = CaseDoc.orderId c
        ∧ CaseDoc.productIndex c' = CaseDoc.productIndex c
        ∧ CaseDoc.responses c' = CaseDoc.responses c
        ∧ CaseDoc.createdAt c' = CaseDoc.createdAt c
        ∧ CaseDoc.updatedAt c' = CaseDoc.updatedAt c.
Proof.
  intros Hr Hu Hsp Hf Hlock. cbv zeta.
  assert (caseOfChat now uid sp message s = c) as Hc.
  { unfold caseOfChat, Server.ensureCase. rewrite Hf. reflexivity. }
  destruct (chat_refund_request buildMemoryReply cfg w now uid message s u sp
              Hr Hu Hsp) as (_ & _ & _ & Hcase).
  { rewrite Hc. exact Hlock. }
  rewrite Hc in Hcase.
  exists (refundUpdate sp message c). split; [exact Hcase|]. repeat split.
Qed.

(* ===================================================================== *)
(** * The agent-only lock *)
(* ===================================================================== *)

Section LockFacts.
Import Server.
Variable buildMemoryReply : string → string → string → string.
Variable cfg : Config.

Abbreviation chat := (chat buildMemoryReply cfg).
Abbreviation chats := (chats buildMemoryReply cfg).

(** One user message while the lock of its case is on. *)
Lemma chat_locked w now uid message s u sp c :
  Js.truthy_string message = true →
  users s !! uid = Some u →
  get now (selectedProductKey (redis s)) uid = Some sp →
  findOne (cases s) uid (sp_orderId sp) (sp_productIndex sp) = Some c →
  isAgentOnly now (Some (CaseDoc._id c)) (redis s) = true →
  let o := chat w now uid (Some message) s in
  response o = json_queued (CaseDoc._id c)
  ∧ calls o = []
  ∧ emitted o =
      [ (room_agents,
         chat_user uid (sp_orderId sp) (sp_productIndex sp) (CaseDoc._id c)
                   message now) ]
  ∧ (∃ earlier,
        get now (chatKey (redis (state o)))
            (uid, sp_orderId sp, sp_productIndex sp)
        = Some (earlier ++ [queuedTurn now sp message (CaseDoc._id c)]))
  ∧ cases (state o) = cases s
  ∧ users (state o) = users s
  ∧ faqs (state o) = faqs s
  ∧ memories (state o) = memories s
  ∧ agentOnlyKey (redis (state o)) = agentOnlyKey (redis s)
  ∧ selectedProductKey (redis (state o)) = selectedProductKey (redis s).
Proof.
  intros Hm Hu Hsp Hf Hlock. cbv zeta.
  destruct (chat_handled buildMemoryReply cfg w now uid message s u sp Hm Hu Hsp)
    as (u' & m & cs' & n' & _ & Hsame & Hchat).
  destruct (Hsame c Hf) as [Hc ->]. cbv zeta in Hchat.
  rewrite Hc in Hchat. rewrite Hchat, Hlock.
  unfold chat_agentOnly. simpl.
  repeat split.
  eexists. unfold get. rewrite lookup_insert_eq.
  replace (now <? EX now 86400)%N with true; [reflexivity|].
  symmetry. apply N.ltb_lt. unfold EX. lia.
Qed.
End LockFacts.

(** C2: while the agent-only lock of a case is on (its key is stored with a
    deadline that has not passed), every chat message the owner of the case
    sends for it is answered "queued / human_agent": the turn is recorded
    with a null reply, the message is forwarded to the agents room only, no
    automated stage (FAQ, case memory, generative, indexing) is called, and
    neither the case nor the lock is changed, so the same holds for the next
    message. *)
Theorem agent_only_lock_queues_user_messages
    (buildMemoryReply : string → string → string → string)
    (cfg : Server.Config) (uid : Id) (u : Server.User)
    (sp : Server.SelectedProduct) (c : CaseDoc.t) (deadline : Time)
    (reqs : list (Server.World * Time * string)) (s : Server.State) :
  Server.users s !! uid = Some u →
  Server.findOne (Server.cases s) uid (Server.sp_orderId sp)
                 (Server.sp_productIndex sp) = Some c →
  Server.agentOnlyKey (Server.redis s) !! CaseDoc._id c = Some deadline →
  Forall (servedBefore uid sp deadline s) reqs →
  Forall2 (queuedOutcome uid sp c deadline s)
          reqs (Server.chats buildMemoryReply cfg uid reqs s).
Proof.
  intros Hu Hf Hd Hreqs. revert s Hu Hf Hd Hreqs.
  induction reqs as [|[[w now] message] reqs IH]; intros s Hu Hf Hd Hreqs.
  - constructor.
  - apply Forall_cons in Hreqs as [(Hm & Hlt & Hsp) Hreqs].
    assert (Server.isAgentOnly now (Some (CaseDoc._id c)) (Server.redis s) = true)
      as Hlock.
    { apply isAgentOnly_spec. exists deadline. split; assumption. }
    destruct (chat_locked buildMemoryReply cfg w now uid message s u sp c
                Hm Hu Hsp Hf Hlock)
      as (Hresp & Hcalls & Hem & Hturn & Hcases & Husers & _ & _ & Hkey & Hsel).
    cbn [Server.chats]. constructor.
    + repeat split; try assumption. rewrite Hkey. exact Hd.
    + eapply Forall2_impl.
      * apply IH.
        -- rewrite Husers. exact Hu.
        -- rewrite Hcases. exact Hf.
        -- rewrite Hkey. exact Hd.
        -- eapply Forall_impl; [exact Hreqs|].
           intros [[w' now'] message'] (? & ? & ?). unfold servedBefore.
           rewrite Hsel. repeat split; assumption.
      * intros [[w' now'] message'] o (? & ? & ? & ? & Hc' & ?).
        unfold queuedOutcome.
        repeat split; try assumption. rewrite Hc'. exact Hcases.
Qed.

(* ===================================================================== *)
(** * The automated stages *)
(* ===================================================================== *)

Section AutomationFacts.
Import Server.
Variable buildMemoryReply : string → string → string → string.
Variable cfg : Config.

Abbreviation chat := (chat buildMemoryReply cfg).
Abbreviation chat_automation := (chat_automation buildMemoryReply cfg).

(** The generative fallback on a state that holds the case of the request. *)
Lemma chat_llm_found w now uid userObj sp message s c0 :
  findOne (cases s) uid (sp_orderId sp) (sp_productIndex sp) = Some c0 →
  let o := chat_llm cfg w now uid userObj sp message s in
  (∃ reply sla, response o = json_cs_agent reply sla (CaseDoc._id c0))
  ∧ cases (state o) = save (llmUpdate sp message c0) (cases s).
Proof.
  intros Hf. unfold chat_llm. rewrite Hf. cbv zeta.
  assert (CaseDoc._id (llmUpdate sp message c0) = CaseDoc._id c0) as Hid.
  { unfold llmUpdate. simpl. case_decide; reflexivity. }
  fold (llmUpdate sp message c0).
  match goal with
  | |- context [CaseMemory.indexCase ?p ?d ?n ?m ?c] =>
      destruct (indexCase_value p d n m c) as [mem E]; rewrite E
  end.
  simpl. rewrite Hid. split; [eauto|reflexivity].
Qed.

(** The four ways the automated stages end for a stored case. *)
Lemma chat_automation_cases w now uid userObj sp message s c0 :
  findOne (cases s) uid (sp_orderId sp) (sp_productIndex sp) = Some c0 →
  let o := chat_automation w now uid userObj sp message s in
  ((∃ reply sla, response o = json_cs_agent reply sla (CaseDoc._id c0))
   ∧ (cases (state o) = save (refundUpdate sp message c0) (cases s)
      ∨ cases (state o) = save (llmUpdate sp message c0) (cases s)))
  ∨ ((∃ reply score, response o = json_faq reply score)
     ∧ cases (state o) = cases s)
  ∨ ((∃ reply score similar, response o = json_case_memory reply score similar)
     ∧ cases (state o) = cases s).
Proof.
  intros Hf. cbv zeta. unfold Server.chat_automation.
  destruct (isRefund message).
  { left. destruct (chat_refund_found cfg w now uid sp message s c0 Hf)
      as (Hresp & _ & _ & Hcases).
    split; [eauto|left; exact Hcases]. }
  pose proof (chat_llm_found w now uid userObj sp message s c0 Hf) as Hllm.
  cbv zeta in Hllm. destruct Hllm as [Hresp Hcases].
  unfold FaqService.checkFaq.
  match goal with
  | |- context [try_catch ?m (λ _, Ok None)] =>
      destruct (try_catch_value m (@None FaqService.hit)) as [r E]; rewrite E
  end.
  destruct r as [faqHit|].
  { right; left. simpl. split; [eauto|reflexivity]. }
  unfold CaseMemory.searchSimilarCases.
  match goal with
  | |- context [try_catch ?m (λ _, Ok [])] =>
      destruct (try_catch_value m (@nil CaseMemory.scored)) as [similar E'];
      rewrite E'
  end.
  destruct similar as [|top rest].
  { left. simpl. split; [exact Hresp|right; exact Hcases]. }
  destruct (PrimFloat.leb _ _).
  - right; right. simpl. split; [eauto|reflexivity].
  - left. simpl. split; [exact Hresp|right; exact Hcases].
Qed.
End AutomationFacts.

(** C3 (as amended): for a case in status resolved, a new user message that
    ends in the refund stage or in the generative fallback (the answers
    routed to "cs_agent") puts the stored case back to open; a message that
    is answered by the FAQ matcher or by the case-memory matcher, or that is
    queued under the agent-only lock, leaves the Case collection as it is.
    No other answer occurs. *)
Theorem resolved_case_reopens_unless_faq_or_memory
    (buildMemoryReply : string → string → string → string)
    (cfg : Server.Config) (w : Server.World) (now : Time) (uid : Id)
    (message : string) (s : Server.State) (u : Server.User)
    (sp : Server.SelectedProduct) (c : CaseDoc.t) :
  Js.truthy_string message = true →
  Server.users s !! uid = Some u →
  Server.get now (Server.selectedProductKey (Server.redis s)) uid = Some sp →
  Server.findOne (Server.cases s) uid (Server.sp_orderId sp)
                 (Server.sp_productIndex sp) = Some c →
  CaseDoc.status c = resolved →
  let o := Server.chat buildMemoryReply cfg w now uid (Some message) s in
  match Server.response o with
  | Server.json_cs_agent _ _ id =>
      id = CaseDoc._id c
      ∧ ∃ c', Server.findOne (Server.cases (Server.state o)) uid
                (Server.sp_orderId sp) (Server.sp_productIndex sp) = Some c'
              ∧ CaseDoc._id c' = CaseDoc._id c
              ∧ CaseDoc.status c' = open
  | Server.json_faq _ _
  | Server.json_case_memory _ _ _
  | Server.json_queued _ =>
      Server.cases (Server.state o) = Server.cases s
  | _ => False
  end.
Proof.
  intros Hm Hu Hsp Hf Hres. cbv zeta.
  destruct (chat_handled buildMemoryReply cfg w now uid message s u sp Hm Hu Hsp)
    as (u' & m & cs' & n' & Hf' & Hsame & Hchat).
  destruct (Hsame c Hf) as [Hc ->]. cbv zeta in Hf', Hchat.
  rewrite Hc in Hf', Hchat. rewrite Hchat.
  destruct (Server.isAgentOnly _ _ _).
  { reflexivity. }
  match goal with
  | |- context [Server.chat_automation _ _ w now uid u' sp message ?s2] =>
      pose proof (chat_automation_cases buildMemoryReply cfg w now uid u' sp
                    message s2 c Hf') as Hcases
  end.
  cbv zeta in Hcases.
  destruct (findOne_key _ _ _ _ _ Hf) as (Hk1 & Hk2 & Hk3).
  destruct Hcases as [[(reply & sla & ->) Hupd]
                     |[[(reply & score & ->) Hsame']
                      |[(reply & score & similar & ->) Hsame']]].
  - split; [reflexivity|].
    destruct Hupd as [-> | ->]; simpl Server.cases.
    + exists (refundUpdate sp message c). split; [|split; reflexivity].
      apply (findOne_save _ _ _ _ _ _ Hf); [reflexivity|assumption..].
    + assert (llmUpdate sp message c
              = CaseDoc.set_status open
                  (CaseDoc.set_domain (Server.sp_domain sp)
                     (CaseDoc.set_priority (Server.llmPriority message)
                        (CaseDoc.set_description message c)))) as Hl.
      { unfold llmUpdate. simpl. rewrite Hres.
        rewrite decide_True by reflexivity. reflexivity. }
      exists (llmUpdate sp message c). rewrite Hl.
      split; [|split; reflexivity].
      apply (findOne_save _ _ _ _ _ _ Hf); [reflexivity|assumption..].
  - exact Hsame'.
  - exact Hsame'.
Qed.

(* ===================================================================== *)
(** * Agent responses and resolution *)
(* ===================================================================== *)

Section AgentFacts.
Import Server.

(** A response posted by an admin on a stored case. *)
Lemma caseResponse_stored now uid id message s c :
  Js.truthy_string message = true →
  findById (cases s) id = Some c →
  let o := caseResponse now uid role_admin id (Some message) s in
  let c' := pushResponseUpdate now uid message c in
  response o = json_case "Response added successfully" c'
  ∧ findById (cases (state o)) id = Some c'
  ∧ isAgentOnly now (Some id) (redis (state o)) = true.
Proof.
  intros Hm Hf. cbv zeta. unfold caseResponse. rewrite Hm, Hf. simpl.
  pose proof (findById_id _ _ _ Hf) as Hid.
  split; [reflexivity|]. split.
  - apply (findById_save _ _ c); [exact Hf|]. simpl. exact Hid.
  - rewrite Hid. rewrite lookup_insert_eq. apply N.ltb_lt.
    unfold EX, AGENT_ONLY_TTL. lia.
Qed.

(** Resolving a case through the update route clears its lock. *)
Lemma caseUpdate_resolved_clears_lock w now uid id upd s c t :
  findById (cases s) id = Some c →
  upd_status upd = Some resolved →
  isAgentOnly t (Some id) (redis (state (caseUpdate w now uid role_admin id upd s)))
  = false.
Proof.
  intros Hf Hst. unfold caseUpdate. rewrite Hf. cbv zeta.
  pose proof (findById_id _ _ _ Hf) as Hid.
  assert (CaseDoc.status (applyUpdates now upd c) = resolved) as Hr.
  { unfold applyUpdates. rewrite Hst.
    destruct (upd_priority upd), (upd_description upd); reflexivity. }
  rewrite decide_True by exact Hr.
  assert (CaseDoc._id (applyUpdates now upd c) = id) as Hid'.
  { unfold applyUpdates.
    destruct (upd_status upd), (upd_priority upd), (upd_description upd);
      exact Hid. }
  rewrite Hid'. simpl. rewrite lookup_delete_eq. reflexivity.
Qed.

(** The explicit toggle switches the lock off. *)
Lemma caseAgentOnly_disable now id s c t :
  findById (cases s) id = Some c →
  isAgentOnly t (Some id) (redis (state (caseAgentOnly now role_admin id false s)))
  = false.
Proof.
  intros Hf. unfold caseAgentOnly. rewrite Hf. simpl.
  rewrite lookup_delete_eq. reflexivity.
Qed.
End AgentFacts.

Section LockLifecycle.
Import Server.
Variable buildMemoryReply : string → string → string → string.
Variable cfg : Config.

Abbreviation chat := (chat buildMemoryReply cfg).

(** Once an agent has answered on a case, the next message of its owner that
    arrives within the TTL is queued for the agent. *)
Lemma agent_response_then_message_queued
    w t0 now adminId message reply s u sp c :
  Js.truthy_string reply = true →
  Js.truthy_string message = true →
  users s !! CaseDoc.userId c = Some u →
  findOne (cases s) (CaseDoc.userId c) (sp_orderId sp) (sp_productIndex sp)
  = Some c →
  findById (cases s) (CaseDoc._id c) = Some c →
  get now (selectedProductKey (redis s)) (CaseDoc.userId c) = Some sp →
  (now < t0 + 1800000)%N →
  let s1 := state (caseResponse t0 adminId role_admin (CaseDoc._id c)
                                (Some reply) s) in
  let o := chat w now (CaseDoc.userId c) (Some message) s1 in
  response o = json_queued (CaseDoc._id c) ∧ calls o = [].
Proof.
  intros Hr Hm Hu Hf Hid Hsp Hlt. cbv zeta.
  destruct (findOne_key _ _ _ _ _ Hf) as (_ & Hk2 & Hk3).
  set (c' := pushResponseUpdate t0 adminId reply c).
  assert (state (caseResponse t0 adminId role_admin (CaseDoc._id c) (Some reply) s)
          = set_redis (setAgentOnly t0 (Some (CaseDoc._id c)) (redis s))
              (set_cases (save c' (cases s)) s)) as Hs1.
  { unfold caseResponse. rewrite Hr, Hid. reflexivity. }
  rewrite Hs1.
  match goal with
  | |- context [chat w now _ _ ?s1] =>
      destruct (chat_locked buildMemoryReply cfg w now (CaseDoc.userId c)
                  message s1 u sp c' Hm) as (Hresp & Hcalls & _)
  end.
  - exact Hu.
  - exact Hsp.
  - simpl cases.
    apply (findOne_save _ _ _ _ c); [exact Hf|reflexivity|reflexivity|
                                     exact Hk2|exact Hk3].
  - apply setAgentOnly_on. exact Hlt.
  - split; [exact Hresp|exact Hcalls].
Qed.

(** With the lock off (never set, cleared, or expired) a message is not
    queued: it is answered by one of the automated stages. *)
Lemma chat_unlocked_not_queued w now uid message s u sp c :
  Js.truthy_string message = true →
  users s !! uid = Some u →
  get now (selectedProductKey (redis s)) uid = Some sp →
  findOne (cases s) uid (sp_orderId sp) (sp_productIndex sp) = Some c →
  isAgentOnly now (Some (CaseDoc._id c)) (redis s) = false →
  ∀ id, response (chat w now uid (Some message) s) ≠ json_queued id.
Proof.
  intros Hm Hu Hsp Hf Hoff id.
  destruct (chat_handled buildMemoryReply cfg w now uid message s u sp Hm Hu Hsp)
    as (u' & m & cs' & n' & Hf' & Hsame & Hchat).
  destruct (Hsame c Hf) as [Hc ->]. cbv zeta in Hf', Hchat.
  rewrite Hc in Hf', Hchat. rewrite Hchat, Hoff.
  match goal with
  | |- context [Server.chat_automation _ _ w now uid u' sp message ?s2] =>
      pose proof (chat_automation_cases buildMemoryReply cfg w now uid u' sp
                    message s2 c Hf') as Hcases
  end.
  cbv zeta in Hcases.
  destruct Hcases as [[(r & sl & ->) _]
                     |[[(r & sc & ->) _]|[(r & sc & sim & ->) _]]];
    discriminate.
Qed.
End LockLifecycle.

(** C4 (as amended): posting an agent response on an existing case appends
    that response (with the agent's id and the time of the request) to the
    case's response list and sets the status to in-progress whatever the
    status was, a resolved case included. *)
Theorem agent_response_appends_and_sets_in_progress
    (now : Time) (adminId id : Id) (message : string) (s : Server.State)
    (c : CaseDoc.t) :
  Js.truthy_string message = true →
  Server.findById (Server.cases s) id = Some c →
  let o := Server.caseResponse now adminId Server.role_admin id (Some message) s in
  ∃ c', Server.findById (Server.cases (Server.state o)) id = Some c'
        ∧ CaseDoc.responses c' =
            CaseDoc.responses c ++
            [ {| CaseDoc.adminId := Some adminId; CaseDoc.message := message;
                 CaseDoc.timestamp := now |} ]
        ∧ CaseDoc.status c' = in_progress
        ∧ Server.response o = Server.json_case "Response added successfully" c'.
Proof.
  intros Hm Hf. cbv zeta.
  destruct (caseResponse_stored now adminId id message s c Hm Hf)
    as (Hresp & Hfind & _).
  eexists. split; [exact Hfind|]. split; [reflexivity|].
  split; [reflexivity|exact Hresp].
Qed.

(* ===================================================================== *)
(** * No stage error reaches the chat route *)
(* ===================================================================== *)

Section NoPropagation.
Import Server.
Variable buildMemoryReply : string → string → string → string.
Variable cfg : Config.

Local Ltac index_ok :=
  match goal with
  | |- context [CaseMemory.indexCase ?p ?d ?n ?m ?c] =>
      let mem := fresh "mem" in
      let E := fresh "E" in
      destruct (indexCase_value p d n m c) as [mem E]; rewrite E
  end.

Lemma chat_refund_not_500 w now uid sp message s :
  is_500 (response (chat_refund cfg w now uid sp message s)) = false.
Proof.
  unfold chat_refund. cbv zeta.
  destruct (findOne _ _ _ _); [|unfold create]; index_ok; reflexivity.
Qed.

Lemma chat_llm_not_500 w now uid userObj sp message s :
  is_500 (response (chat_llm cfg w now uid userObj sp message s)) = false.
Proof.
  unfold chat_llm. cbv zeta.
  destruct (findOne _ _ _ _); [|unfold create]; index_ok; reflexivity.
Qed.

Lemma chat_automation_not_500 w now uid userObj sp message s :
  is_500 (response (chat_automation buildMemoryReply cfg w now uid userObj sp
                                    message s)) = false.
Proof.
  unfold chat_automation.
  destruct (isRefund message); [apply chat_refund_not_500|].
  unfold FaqService.checkFaq.
  match goal with
  | |- context [try_catch ?m (λ _, Ok None)] =>
      destruct (try_catch_value m (@None FaqService.hit)) as [r E]; rewrite E
  end.
  destruct r as [faqHit|]; [reflexivity|].
  unfold CaseMemory.searchSimilarCases.
  match goal with
  | |- context [try_catch ?m (λ _, Ok [])] =>
      destruct (try_catch_value m (@nil CaseMemory.scored)) as [similar E'];
      rewrite E'
  end.
  destruct similar as [|top rest]; [apply chat_llm_not_500|].
  destruct (PrimFloat.leb _ _); [reflexivity|apply chat_llm_not_500].
Qed.

Lemma chat_not_500 w now uid message s :
  is_500 (response (chat buildMemoryReply cfg w now uid message s)) = false.
Proof.
  unfold chat. destruct message as [message|]; [|reflexivity].
  destruct (Js.truthy_string message); [|reflexivity]. simpl negb. cbv iota.
  destruct (loadUser now uid s) as [[userObj s1]|]; [|reflexivity].
  destruct (get now _ uid) as [sp|]; [|reflexivity].
  destruct (ensureCase now uid sp message s1) as [existingCase s2].
  destruct (isAgentOnly _ _ _); [reflexivity|apply chat_automation_not_500].
Qed.
End NoPropagation.

(** C8: [checkFaq] always resolves to a value, and to "no match" whenever its
    body throws, in particular when the embedding is unavailable or the FAQ
    query rejects; [searchSimilarCases] always resolves to a value, and to the
    empty list whenever its body throws, in particular when the embedding is
    unavailable or the query rejects; and the chat route never answers with
    its error body, whatever the collaborators do. *)
Theorem stage_errors_never_propagate :
  (∀ e post dbUp corpus message dom,
      (∃ r, FaqService.checkFaq e post dbUp corpus message dom = Ok r)
      ∧ (is_ok (FaqService.checkFaq_try e post dbUp corpus message dom) = false →
         FaqService.checkFaq e post dbUp corpus message dom = Ok None)
      ∧ (is_ok (post (Js.slice0 512 message)) = false →
         FaqService.checkFaq e post dbUp corpus message dom = Ok None)
      ∧ (dbUp = false →
         FaqService.checkFaq e post dbUp corpus message dom = Ok None))
  ∧ (∀ post dbUp coll text dom topK,
      (∃ r, CaseMemory.searchSimilarCases post dbUp coll text dom topK = Ok r)
      ∧ (is_ok (CaseMemory.searchSimilarCases_try post dbUp coll text dom topK)
         = false →
         CaseMemory.searchSimilarCases post dbUp coll text dom topK = Ok [])
      ∧ (is_ok (post (Js.slice0 512 text)) = false →
         CaseMemory.searchSimilarCases post dbUp coll text dom topK = Ok [])
      ∧ (dbUp = false →
         CaseMemory.searchSimilarCases post dbUp coll text dom topK = Ok []))
  ∧ (∀ buildMemoryReply cfg w now uid message s err,
      Server.response (Server.chat buildMemoryReply cfg w now uid message s)
      ≠ Server.json_500 err).
Proof.
  split; [|split].
  - intros e post dbUp corpus message dom. unfold FaqService.checkFaq.
    split; [apply try_catch_value|]. split; [apply try_catch_throw|].
    split.
    + intros Hp. apply try_catch_throw.
      apply checkFaq_try_embedding_unavailable. exact Hp.
    + intros ->. apply try_catch_throw. apply checkFaq_try_query_fails.
  - intros post dbUp coll text dom topK. unfold CaseMemory.searchSimilarCases.
    split; [apply try_catch_value|]. split; [apply try_catch_throw|].
    split.
    + intros Hp. apply try_catch_throw.
      apply searchSimilarCases_try_embedding_unavailable. exact Hp.
    + intros ->. apply try_catch_throw. apply searchSimilarCases_try_query_fails.
  - intros bmr cfg w now uid message s err E.
    pose proof (chat_not_500 bmr cfg w now uid message s) as H.
    rewrite E in H. discriminate H.
Qed.


(* ===================================================================== *)
(** * The properties on the concrete deployment *)
(* ===================================================================== *)

(** A refund message is answered by the refund stage although the FAQ matcher
    would have matched it with similarity 1. *)
Lemma refund_path_precedes_faq_witness :
  let message := "I want a refund, where is my order?" in
  let s := Scenario.state in_progress ∅ in
  FaqService.checkFaq FaqService.defaultEnv
    (Server.embedContent Scenario.world) true (Server.faqs s) message
    (Some ECommerce)
  = Ok (Some {| FaqService.hit_answer := "Track it under My Orders.";
                FaqService.hit_score := 1%float |})
  ∧ Server.response (Scenario.chat Scenario.world 2000 1 (Some message) s)
    = Server.json_cs_agent Server.refundReply
        {| Sla.level := express; Sla.targetMinutes := 15 |} 7
  ∧ Server.calls (Scenario.chat Scenario.world 2000 1 (Some message) s)
    = [Server.call_indexCase 7].
Proof.
  intros message s.
  assert (Server.isRefund message = true) as H1 by (vm_compute; reflexivity).
  assert (Server.users s !! 1%N = Some Scenario.alice) as H2
    by (vm_compute; reflexivity).
  assert (Server.get 2000 (Server.selectedProductKey (Server.redis s)) 1%N
          = Some Scenario.phone) as H3 by (vm_compute; reflexivity).
  assert (Server.isAgentOnly 2000
            (Some (CaseDoc._id (caseOfChat 2000 1 Scenario.phone message s)))
            (Server.redis s) = false) as H4 by (vm_compute; reflexivity).
  destruct (refund_path_precedes_faq Scenario.buildMemoryReply
              Server.defaultConfig Scenario.world 2000 1 message s
              Scenario.alice Scenario.phone H1 H2 H3 H4)
    as (Hresp & _ & _ & _ & Hcalls & _).
  split; [vm_compute; reflexivity|]. split; [exact Hresp|exact Hcalls].
Defined.

(** Two messages sent while the lock of case 7 is on are both queued. *)
Lemma agent_only_lock_queues_user_messages_witness :
  let s := Scenario.state in_progress {[ 7%N := 1802000%N ]} in
  let reqs := [ (Scenario.world, 2000%N, "Where is my order?");
                (Scenario.world, 3000%N, "I want a refund") ] in
  Forall2 (queuedOutcome 1 Scenario.phone (Scenario.phoneCase in_progress)
                         1802000 s)
          reqs
          (Server.chats Scenario.buildMemoryReply Server.defaultConfig 1 reqs s).
Proof.
  intros s reqs.
  apply (agent_only_lock_queues_user_messages Scenario.buildMemoryReply
           Server.defaultConfig 1 Scenario.alice Scenario.phone
           (Scenario.phoneCase in_progress) 1802000 reqs s).
  - vm_compute; reflexivity.
  - vm_compute; reflexivity.
  - vm_compute; reflexivity.
  - repeat constructor.
Defined.

(** With every collaborator down, a message on the resolved case reaches the
    generative fallback and the case is open again. *)
Lemma resolved_case_reopens_unless_faq_or_memory_witness :
  let s := Scenario.state resolved ∅ in
  let o := Scenario.chat Scenario.outage 2000 1 (Some "hello there") s in
  ∃ c', Server.findOne (Server.cases (Server.state o)) 1 "ORD-1" 0 = Some c'
        ∧ CaseDoc._id c' = 7%N
        ∧ CaseDoc.status c' = open.
Proof.
  intros s o.
  assert (Js.truthy_string "hello there" = true) as H1 by reflexivity.
  assert (Server.users s !! 1%N = Some Scenario.alice) as H2
    by (vm_compute; reflexivity).
  assert (Server.get 2000 (Server.selectedProductKey (Server.redis s)) 1%N
          = Some Scenario.phone) as H3 by (vm_compute; reflexivity).
  assert (Server.findOne (Server.cases s) 1 "ORD-1" 0
          = Some (Scenario.phoneCase resolved)) as H4 by (vm_compute; reflexivity).
  assert (CaseDoc.status (Scenario.phoneCase resolved) = resolved) as H5
    by reflexivity.
  pose proof (resolved_case_reopens_unless_faq_or_memory
                Scenario.buildMemoryReply Server.defaultConfig Scenario.outage
                2000 1 "hello there" s Scenario.alice Scenario.phone
                (Scenario.phoneCase resolved) H1 H2 H3 H4 H5) as H.
  cbv zeta in H.
  assert (Server.response o
          = Server.json_cs_agent Server.escalateReply
              {| Sla.level := batched; Sla.targetMinutes := 180 |} 7) as Hr
    by (vm_compute; reflexivity).
  change (Server.chat Scenario.buildMemoryReply Server.defaultConfig
            Scenario.outage 2000 1 (Some "hello there") s) with o in H.
  rewrite Hr in H. exact (proj2 H).
Defined.

(** The same resolved case stays resolved when the FAQ matcher answers. *)
Lemma resolved_case_not_reopened_by_faq_answer :
  let s := Scenario.state resolved ∅ in
  let o := Scenario.chat Scenario.world 2000 1 (Some "Where is my order?") s in
  CaseDoc.status <$> Server.findOne (Server.cases s) 1 "ORD-1" 0 = Some resolved
  ∧ Server.response o = Server.json_faq "Track it under My Orders." 1%float
  ∧ CaseDoc.status <$> Server.findOne (Server.cases (Server.state o)) 1 "ORD-1" 0
    ≠ Some open.
Proof.
  intros s o. split; [vm_compute; reflexivity|].
  split; [vm_compute; reflexivity|].
  vm_compute. discriminate.
Qed.

(** An agent response on the in-progress case. *)
Lemma agent_response_appends_and_sets_in_progress_witness :
  let s := Scenario.state open ∅ in
  let o := Server.caseResponse 2000 99 Server.role_admin 7 (Some "We are on it") s in
  ∃ c', Server.findById (Server.cases (Server.state o)) 7 = Some c'
        ∧ CaseDoc.responses c' =
            [ {| CaseDoc.adminId := Some 99%N; CaseDoc.message := "We are on it";
                 CaseDoc.timestamp := 2000 |} ]
        ∧ CaseDoc.status c' = in_progress
        ∧ Server.response o = Server.json_case "Response added successfully" c'.
Proof.
  intros s o.
  apply (agent_response_appends_and_sets_in_progress 2000 99 7 "We are on it" s
           (Scenario.phoneCase open)).
  - reflexivity.
  - vm_compute; reflexivity.
Defined.

(** An agent response on a resolved case moves it to in-progress. *)
Lemma agent_response_reopens_resolved_case :
  let s := Scenario.state resolved ∅ in
  let o := Server.caseResponse 2000 99 Server.role_admin 7 (Some "We are on it") s in
  CaseDoc.status <$> Server.findById (Server.cases s) 7 = Some resolved
  ∧ CaseDoc.status <$> Server.findById (Server.cases (Server.state o)) 7
    = Some in_progress
  ∧ CaseDoc.status <$> Server.findById (Server.cases (Server.state o)) 7
    ≠ Some resolved.
Proof.
  intros s o. split; [vm_compute; reflexivity|].
  split; [vm_compute; reflexivity|].
  vm_compute. discriminate.
Qed.

(** A refund message on the in-progress case puts it back to open. *)
Lemma refund_stage_overwrites_case_witness :
  let message := "I want a refund for my order" in
  let s := Scenario.state in_progress ∅ in
  let o := Scenario.chat Scenario.world 2000 1 (Some message) s in
  ∃ c', Server.findOne (Server.cases (Server.state o)) 1 "ORD-1" 0 = Some c'
        ∧ CaseDoc.status c' = open
        ∧ CaseDoc.description c' = "[Refund Request] I want a refund for my order"
        ∧ CaseDoc.priority c' = high.
Proof.
  intros message s o.
  assert (Server.isRefund message = true) as H1 by (vm_compute; reflexivity).
  assert (Server.users s !! 1%N = Some Scenario.alice) as H2
    by (vm_compute; reflexivity).
  assert (Server.get 2000 (Server.selectedProductKey (Server.redis s)) 1%N
          = Some Scenario.phone) as H3 by (vm_compute; reflexivity).
  assert (Server.findOne (Server.cases s) 1 "ORD-1" 0
          = Some (Scenario.phoneCase in_progress)) as H4
    by (vm_compute; reflexivity).
  assert (Server.isAgentOnly 2000 (Some (CaseDoc._id (Scenario.phoneCase in_progress)))
            (Server.redis s) = false) as H5 by (vm_compute; reflexivity).
  destruct (refund_stage_overwrites_case Scenario.buildMemoryReply
              Server.defaultConfig Scenario.world 2000 1 message s
              Scenario.alice Scenario.phone (Scenario.phoneCase in_progress)
              H1 H2 H3 H4 H5)
    as (c' & Hf & Hst & Hd & Hp & _).
  exists c'. repeat split; assumption.
Defined.


(** With the embedding endpoint down, or the query rejecting, both matchers
    answer "nothing found". *)
Lemma stage_errors_never_propagate_witness :
  FaqService.checkFaq FaqService.defaultEnv
    (Server.embedContent Scenario.outage) true [Scenario.trackingFaq]
    "Where is my order?" (Some ECommerce) = Ok None
  ∧ FaqService.checkFaq FaqService.defaultEnv
      (Server.embedContent Scenario.world) false [Scenario.trackingFaq]
      "Where is my order?" (Some ECommerce) = Ok None
  ∧ CaseMemory.searchSimilarCases
      (Server.embedContent Scenario.outage) true [] "Where is my order?"
      (Some ECommerce) 3 = Ok []
  ∧ CaseMemory.searchSimilarCases
      (Server.embedContent Scenario.world) false [] "Where is my order?"
      (Some ECommerce) 3 = Ok [].
Proof.
  destruct stage_errors_never_propagate as (Hfaq & Hmem & _).
  split.
  { apply (proj1 (proj2 (proj2 (Hfaq _ _ _ _ _ _)))). reflexivity. }
  split.
  { apply (proj2 (proj2 (proj2 (Hfaq _ _ _ _ _ _)))). reflexivity. }
  split.
  { apply (proj1 (proj2 (proj2 (Hmem _ _ _ _ _ _)))). reflexivity. }
  apply (proj2 (proj2 (proj2 (Hmem _ _ _ _ _ _)))). reflexivity.
Defined.



(* ===================================================================== *)
(** * The generative call and its fallback over the models *)
(* ===================================================================== *)

Section GeminiFacts.
Import Server.

(** Models that are passed over do not influence the outcome. *)
Lemma callGemini_from_skip w prompt skipped rest :
  Forall (passedOver w prompt) skipped →
  callGemini_from w prompt (skipped ++ rest) = callGemini_from w prompt rest.
Proof.
  induction 1 as [|model skipped Hm _ IH]; [reflexivity|].
  simpl. destruct Hm as [-> | [msg ->]]; exact IH.
Qed.

Lemma callGemini_from_abort w prompt model rest code msg :
  generateContent w model prompt = http_error code msg →
  code ≠ Some 429%Z →
  callGemini_from w prompt (model :: rest) = Throw (abortError code msg).
Proof.
  intros E Hc. simpl. rewrite E. unfold abortError.
  destruct code as [z|]; [|reflexivity].
  destruct z as [|p|p]; try reflexivity.
  repeat (destruct p as [p|p|]; try reflexivity). contradiction.
Qed.

(** When every model fails, so does the call. *)
Lemma callGemini_from_all_errors w prompt models :
  (∀ model, ∃ code msg, generateContent w model prompt = http_error code msg) →
  ∃ e, callGemini_from w prompt models = Throw e.
Proof.
  intros Hall. induction models as [|model rest IH]; simpl; [eauto|].
  destruct (Hall model) as (code & msg & ->).
  destruct code as [z|]; [|eauto].
  destruct z as [|p|p]; eauto.
  repeat (destruct p as [p|p|]; eauto).
Qed.
End GeminiFacts.

(** X1: [callGemini] tries the models in their listed order: when the models
    before one are passed over and that one answers with text, the call
    returns that text; when all models are passed over it throws "All Gemini
    models exhausted or failed.". *)
Theorem callGemini_falls_back_in_order
    (w : Server.World) (prompt : string) :
  (∀ skipped model later text,
      Server.GEMINI_MODELS = skipped ++ model :: later →
      Forall (passedOver w prompt) skipped →
      Server.generateContent w model prompt = Server.http_ok text →
      Js.truthy_string text = true →
      Server.callGemini w prompt = Ok text)
  ∧ (Forall (passedOver w prompt) Server.GEMINI_MODELS →
     Server.callGemini w prompt
     = Throw "All Gemini models exhausted or failed.").
Proof.
  split.
  - intros skipped model later text Hsplit Hskip Hok Htext.
    unfold Server.callGemini. rewrite Hsplit.
    rewrite callGemini_from_skip by exact Hskip.
    simpl. rewrite Hok, Htext. reflexivity.
  - intros Hall. unfold Server.callGemini.
    rewrite <- (app_nil_r Server.GEMINI_MODELS).
    rewrite callGemini_from_skip by exact Hall. reflexivity.
Qed.

(** X2: a failure other than a quota error aborts [callGemini] at once: the
    models listed after the failing one are not tried, whatever they would
    answer, and the error thrown is the one of that failure. *)
Theorem callGemini_aborts_on_other_errors
    (w : Server.World) (prompt : string)
    (skipped : list string) (model : string) (later : list string)
    (code : option Z) (msg : string) :
  Server.GEMINI_MODELS = skipped ++ model :: later →
  Forall (passedOver w prompt) skipped →
  Server.generateContent w model prompt = Server.http_error code msg →
  code ≠ Some 429%Z →
  Server.callGemini w prompt = Throw (abortError code msg).
Proof.
  intros Hsplit Hskip Herr Hcode. unfold Server.callGemini. rewrite Hsplit.
  rewrite callGemini_from_skip by exact Hskip.
  apply callGemini_from_abort; assumption.
Qed.

(** X3: a text returned by [callGemini] is never empty and is the answer of
    one of the listed models, every model listed before it having been
    passed over. *)
Theorem callGemini_answer_is_a_model_text
    (w : Server.World) (prompt text : string) :
  Server.callGemini w prompt = Ok text →
  Js.truthy_string text = true
  ∧ ∃ skipped model later,
      Server.GEMINI_MODELS = skipped ++ model :: later
      ∧ Forall (passedOver w prompt) skipped
      ∧ Server.generateContent w model prompt = Server.http_ok text.
Proof.
  unfold Server.callGemini.
  assert (∀ models,
            Server.callGemini_from w prompt models = Ok text →
            Js.truthy_string text = true
            ∧ ∃ skipped model later,
                models = skipped ++ model :: later
                ∧ Forall (passedOver w prompt) skipped
                ∧ Server.generateContent w model prompt = Server.http_ok text)
    as Hgen.
  { induction models as [|model rest IH]; simpl; [discriminate|].
    destruct (Server.generateContent w model prompt) as [t|code msg] eqn:E.
    - destruct (Js.truthy_string t) eqn:Ht.
      + intros [= ->]. split; [exact Ht|].
        exists [], model, rest. repeat split; [constructor|exact E].
      + intros Hrest. destruct (IH Hrest) as (Htext & sk & m & lt & -> & Hsk & Hm).
        split; [exact Htext|].
        exists (model :: sk), m, lt. repeat split; [|exact Hm].
        constructor; [|exact Hsk]. left. rewrite E.
        destruct t; [reflexivity|discriminate Ht].
    - destruct code as [z|]; [|discriminate].
      destruct z as [|p|p]; try discriminate.
      assert (p = 429%positive ∨ p ≠ 429%positive) as [->|Hp]
        by (destruct (decide (p = 429%positive)); auto).
      + intros Hrest. destruct (IH Hrest) as (Htext & sk & m & lt & -> & Hsk & Hm).
        split; [exact Htext|].
        exists (model :: sk), m, lt. repeat split; [|exact Hm].
        constructor; [|exact Hsk]. right. exists msg. exact E.
      + intros Hthrow. exfalso.
        assert (Server.callGemini_from w prompt (model :: rest)
                = Throw (abortError (Some (Z.pos p)) msg)) as Ha.
        { apply callGemini_from_abort; [exact E|congruence]. }
        simpl in Ha. rewrite E in Ha. rewrite Ha in Hthrow. discriminate. }
  apply Hgen.
Qed.

(* ===================================================================== *)
(** * The range of the sentiment score *)
(* ===================================================================== *)

Section SentimentRange.
Import Sentiment.

(** A loop that applies [g] for each element passing the test applies it as
    many times as elements pass. *)
Lemma foldl_if_iter {A B} (p : B → bool) (g : A → A) (ws : list B) :
  ∀ s0, foldl (fun s w => if p w then g s else s) s0 ws
        = Nat.iter (length (List.filter p ws)) g s0.
Proof.
  induction ws as [|w ws IH]; intros s0; simpl; [reflexivity|].
  rewrite IH. destruct (p w); simpl; [|reflexivity].
  symmetry. apply Nat.iter_succ_r.
Qed.

(** The raw score only depends on how many words of each list occur and on
    the three punctuation tests. *)
Lemma rawScore_counts (text : string) :
  let t := Js.toLowerCase text in
  rawScore text =
  scoreOfCounts
    (length (List.filter (fun w => Js.includes t w) ANGER_WORDS))
    (length (List.filter (fun w => Js.includes t w) CALM_WORDS))
    (Js.includes t "!!!" || Js.includes t "?!?!")
    (Js.includes t ":)") (Js.includes t ":(").
Proof.
  cbv zeta. unfold rawScore, scoreOfCounts. cbv zeta.
  rewrite !foldl_if_iter. reflexivity.
Qed.

Lemma allConsistent_true : allConsistent = true.
Proof. vm_compute. reflexivity. Qed.

Lemma in_bools (b : bool) : In b [true; false].
Proof. destruct b; simpl; auto. Qed.

Lemma consistent_counts (a c : nat) (bang smile frown : bool) :
  (a ≤ length ANGER_WORDS)%nat → (c ≤ length CALM_WORDS)%nat →
  consistent (resultOfScore (scoreOfCounts a c bang smile frown)) = true.
Proof.
  intros Ha Hc. pose proof allConsistent_true as H. unfold allConsistent in H.
  assert (In a (seq 0 (S (length ANGER_WORDS)))) as Ia by (apply in_seq; lia).
  assert (In c (seq 0 (S (length CALM_WORDS)))) as Ic by (apply in_seq; lia).
  pose proof (proj1 (forallb_forall _ _) H a Ia) as H1.
  pose proof (proj1 (forallb_forall _ _) H1 c Ic) as H2.
  pose proof (proj1 (forallb_forall _ _) H2 bang (in_bools _)) as H3.
  pose proof (proj1 (forallb_forall _ _) H3 smile (in_bools _)) as H4.
  exact (proj1 (forallb_forall _ _) H4 frown (in_bools _)).
Qed.
End SentimentRange.

(** X4: for every text, the score [analyzeSentiment] returns is a number
    (never NaN) within [-1, 1], and it lies on the side of the thresholds the
    returned label says: at most -0.8 for angry, at least 0.6 for cool,
    strictly between the two for neutral. *)
Theorem analyzeSentiment_score_in_range_and_consistent (text : string) :
  let r := Sentiment.analyzeSentiment text in
  PrimFloat.is_nan (Sentiment.score r) = false
  ∧ PrimFloat.leb (-1)%float (Sentiment.score r) = true
  ∧ PrimFloat.leb (Sentiment.score r) 1%float = true
  ∧ match Sentiment.label r with
    | angry => PrimFloat.leb (Sentiment.score r) (-0.8)%float = true
    | cool => PrimFloat.leb 0.6%float (Sentiment.score r) = true
    | neutral => PrimFloat.ltb (-0.8)%float (Sentiment.score r) = true
                 ∧ PrimFloat.ltb (Sentiment.score r) 0.6%float = true
    end.
Proof.
  cbv zeta.
  assert (consistent (Sentiment.analyzeSentiment text) = true) as H.
  { change (Sentiment.analyzeSentiment text)
      with (resultOfScore (Sentiment.rawScore text)).
    rewrite rawScore_counts. apply consistent_counts;
      apply List.filter_length_le. }
  unfold consistent in H.
  apply andb_true_iff in H as [H H4]. apply andb_true_iff in H as [H H3].
  apply andb_true_iff in H as [H1 H2]. apply negb_true_iff in H1.
  repeat split; try assumption.
  destruct (Sentiment.label _); try exact H4.
  apply andb_true_iff in H4. exact H4.
Qed.

(* ===================================================================== *)
(** * The two priority classifiers *)
(* ===================================================================== *)

Section IncludesFacts.

Lemma prefix_app_l (w w' t : string) :
  String.prefix (w +:+ w') t = true → String.prefix w t = true.
Proof.
  revert t. induction w as [|a w IH]; intros [|b t]; simpl;
    try reflexivity; try discriminate.
  destruct (Ascii.ascii_dec a b); [apply IH|discriminate].
Qed.

(** A text that includes a word includes every prefix of that word. *)
Lemma includes_app_l (t w w' : string) :
  Js.includes t (w +:+ w') = true → Js.includes t w = true.
Proof.
  induction t as [|c t IH]; cbn [Js.includes].
  - rewrite !orb_false_r. apply prefix_app_l.
  - intros H. apply orb_true_iff in H as [H|H]; apply orb_true_iff.
    + left. exact (prefix_app_l _ _ _ H).
    + right. exact (IH H).
Qed.
End IncludesFacts.

(** X5: the classifier of the chat route and [determinePriority] agree up
    to four words: a message the chat route classifies high is also high for
    [determinePriority] unless it owes that to the word "failed", and a
    description [determinePriority] classifies high is also high for the chat
    route unless it owes that to "refund", "charge" or "transaction". *)
Theorem priority_classifiers_agree_up_to_four_words (message : string) :
  (Server.llmPriority message = high →
   Server.determinePriority message = high
   ∨ Js.includes (Js.toLowerCase message) "failed" = true)
  ∧ (Server.determinePriority message = high →
     Server.llmPriority message = high
     ∨ Js.includes (Js.toLowerCase message) "refund" = true
     ∨ Js.includes (Js.toLowerCase message) "charge" = true
     ∨ Js.includes (Js.toLowerCase message) "transaction" = true).
Proof.
  unfold Server.llmPriority, Server.determinePriority. cbv zeta.
  unfold Js.some. simpl existsb.
  set (t := Js.toLowerCase message).
  pose proof (includes_app_l t "charge" "d") as Hcharged.
  change ("charge" +:+ "d") with "charged" in Hcharged.
  destruct (Js.includes t "charged") eqn:Hd.
  - rewrite (Hcharged eq_refl).
    destruct (Js.includes t "payment"), (Js.includes t "billing"),
      (Js.includes t "failed"), (Js.includes t "refund"),
      (Js.includes t "transaction"); simpl; split; intros H; auto.
  - destruct (Js.includes t "payment"), (Js.includes t "billing"),
      (Js.includes t "failed"), (Js.includes t "refund"),
      (Js.includes t "charge"), (Js.includes t "transaction");
      simpl; split; intros H; auto 6; try discriminate H;
      destruct (Js.includes t "order" || _) in H; discriminate H.
Qed.

Lemma priority_classifiers_agree_up_to_four_words_witness :
  Server.determinePriority "I was charged twice" = high
  ∨ Js.includes (Js.toLowerCase "I was charged twice") "failed" = true.
Proof.
  apply (proj1 (priority_classifiers_agree_up_to_four_words
                  "I was charged twice")).
  vm_compute. reflexivity.
Defined.

(* ===================================================================== *)
(** * What the matchers return *)
(* ===================================================================== *)

Section RankingFacts.
Context {A : Type} (score : A → float).

Lemma insertDesc_perm (x : A) (l : list A) :
  FaqService.insertDesc score x l ≡ₚ x :: l.
Proof.
  induction l as [|y l IH]; simpl; [reflexivity|].
  destruct (PrimFloat.ltb _ _); [|reflexivity].
  rewrite IH. apply Permutation_swap.
Qed.

(** Sorting keeps the elements. *)
Lemma sortDesc_perm (l : list A) : FaqService.sortDesc score l ≡ₚ l.
Proof.
  unfold FaqService.sortDesc. induction l as [|x l IH]; simpl; [reflexivity|].
  rewrite insertDesc_perm, IH. reflexivity.
Qed.

Lemma slice0_subseteq (k : Z) (l : list A) : FaqService.slice0 k l ⊆ l.
Proof. unfold FaqService.slice0. destruct (0 <=? k)%Z; apply subseteq_take. Qed.

Lemma length_slice0 (k : Z) (l : list A) :
  (length (FaqService.slice0 k l) ≤ length l)%nat
  ∧ ((0 ≤ k)%Z → (length (FaqService.slice0 k l) ≤ Z.to_nat k)%nat).
Proof.
  unfold FaqService.slice0. destruct (0 <=? k)%Z eqn:E.
  - rewrite length_take. split; [lia|intros _; lia].
  - rewrite length_take. apply Z.leb_gt in E. split; lia.
Qed.
End RankingFacts.

(** X6: an answer of [checkFaq] is never made up: it is the answer of a
    stored FAQ of the requested domain, its score is the similarity of the
    embedded message with that FAQ's embedding, and the score reaches the
    threshold; the embedding call and the query both succeeded and the
    configured top-K is not zero. *)
Theorem checkFaq_hit_is_a_stored_answer
    (e : FaqService.env) (post : string → Exc (list float)) (dbUp : bool)
    (corpus : list FaqService.Faq) (message : string) (dom : option Domain)
    (h : FaqService.hit) :
  FaqService.checkFaq e post dbUp corpus message dom = Ok (Some h) →
  ∃ (v : list float) (f : FaqService.Faq),
    post (Js.slice0 512 message) = Ok v
    ∧ dbUp = true
    ∧ f ∈ corpus
    ∧ (∀ d, dom = Some d → FaqService.domain f = d)
    ∧ FaqService.hit_answer h = FaqService.answer f
    ∧ FaqService.hit_score h
      = FaqService.cosineSimilarity v (FaqService.embedding f)
    ∧ PrimFloat.leb (default 0.76%float (FaqService.FAQ_SIM_THRESHOLD e))
                    (FaqService.hit_score h) = true
    ∧ default 3%Z (FaqService.FAQ_TOP_K e) ≠ 0%Z.
Proof.
  unfold FaqService.checkFaq, FaqService.checkFaq_try, FaqService.getEmbedding,
    FaqService.find.
  destruct (post (Js.slice0 512 message)) as [v|err]; simpl; [|discriminate].
  destruct dbUp; simpl; [|discriminate].
  set (faqs := match dom with
               | Some d => filter (λ f, FaqService.domain f = d) corpus
               | None => corpus
               end).
  set (ranked := FaqService.slice0 _ _).
  destruct (ranked !! 0%nat) as [best|] eqn:Hbest; [|discriminate].
  destruct (PrimFloat.leb _ _) eqn:Hth; [|discriminate].
  intros [= <-].
  assert (best ∈ ranked) as Hin by (eapply list_elem_of_lookup_2; exact Hbest).
  assert (default 3%Z (FaqService.FAQ_TOP_K e) ≠ 0%Z) as Hk.
  { intros Hz. subst ranked. rewrite Hz in Hbest. discriminate Hbest. }
  apply slice0_subseteq in Hin.
  rewrite sortDesc_perm in Hin.
  apply list_elem_of_fmap in Hin as (f & -> & Hf).
  exists v, f. split; [reflexivity|]. split; [reflexivity|].
  assert (f ∈ corpus ∧ ∀ d, dom = Some d → FaqService.domain f = d) as [Hc Hd].
  { subst faqs. destruct dom as [d|].
    - apply list_elem_of_filter in Hf as [Hd Hc]. split; [exact Hc|].
      intros d' [= <-]. exact Hd.
    - split; [exact Hf|]. intros d' [=]. }
  repeat split; assumption.
Qed.

Lemma checkFaq_hit_is_a_stored_answer_witness :
  ∃ (v : list float) (f : FaqService.Faq),
    Server.embedContent Scenario.world (Js.slice0 512 "Where is my order?")
    = Ok v
    ∧ true = true
    ∧ f ∈ [Scenario.trackingFaq]
    ∧ (∀ d, Some ECommerce = Some d → FaqService.domain f = d)
    ∧ "Track it under My Orders." = FaqService.answer f
    ∧ 1%float = FaqService.cosineSimilarity v (FaqService.embedding f)
    ∧ PrimFloat.leb 0.76%float 1%float = true
    ∧ 3%Z ≠ 0%Z.
Proof.
  apply (checkFaq_hit_is_a_stored_answer FaqService.defaultEnv
           (Server.embedContent Scenario.world) true [Scenario.trackingFaq]
           "Where is my order?" (Some ECommerce)
           {| FaqService.hit_answer := "Track it under My Orders.";
              FaqService.hit_score := 1%float |}).
  vm_compute. reflexivity.
Defined.

(** X7: [searchSimilarCases] always resolves to a list of at most 200
    results, and of at most [topK] when [topK] is not negative; every result
    is a stored record of the requested domain, scored by the similarity of
    the embedded query with the record's embedding. *)
Theorem searchSimilarCases_results_are_stored_records
    (post : string → Exc (list float)) (dbUp : bool)
    (coll : list CaseMemory.doc) (text : string) (dom : option Domain)
    (topK : Z) :
  ∃ rs,
    CaseMemory.searchSimilarCases post dbUp coll text dom topK = Ok rs
    ∧ (length rs ≤ 200)%nat
    ∧ (length rs ≤ length coll)%nat
    ∧ ((0 ≤ topK)%Z → (length rs ≤ Z.to_nat topK)%nat)
    ∧ ∀ r, r ∈ rs →
        CaseMemory.memo r ∈ coll
        ∧ (∀ d, dom = Some d → CaseMemory.domain (CaseMemory.memo r) = d)
        ∧ ∃ v, post (Js.slice0 512 text) = Ok v
               ∧ CaseMemory.score r
                 = CaseMemory.cosine v (CaseMemory.embedding (CaseMemory.memo r)).
Proof.
  unfold CaseMemory.searchSimilarCases, CaseMemory.searchSimilarCases_try,
    FaqService.getEmbedding, CaseMemory.find.
  assert (∀ rs : list CaseMemory.scored, rs = [] →
            (length rs ≤ 200)%nat ∧ (length rs ≤ length coll)%nat
            ∧ ((0 ≤ topK)%Z → (length rs ≤ Z.to_nat topK)%nat)
            ∧ ∀ r, r ∈ rs →
                CaseMemory.memo r ∈ coll
                ∧ (∀ d, dom = Some d → CaseMemory.domain (CaseMemory.memo r) = d)
                ∧ ∃ v, post (Js.slice0 512 text) = Ok v
                       ∧ CaseMemory.score r
                         = CaseMemory.cosine v
                             (CaseMemory.embedding (CaseMemory.memo r)))
    as Hnil.
  { intros rs ->. simpl.
    split; [lia|]. split; [lia|]. split; [lia|].
    intros x Hx. apply elem_of_nil in Hx. contradiction. }
  destruct (post (Js.slice0 512 text)) as [v|err]; simpl;
    [|eexists; split; [reflexivity|apply Hnil; reflexivity]].
  destruct dbUp; simpl;
    [|eexists; split; [reflexivity|apply Hnil; reflexivity]].
  clear Hnil.
  set (filtered := match dom with
                   | Some d => filter (λ m, CaseMemory.domain m = d) coll
                   | None => coll
                   end).
  set (scoredAll := map _ (take 200 filtered)).
  eexists. split; [reflexivity|].
  assert (length filtered ≤ length coll)%nat as Hfl.
  { subst filtered. destruct dom; [apply length_filter|reflexivity]. }
  assert (length (FaqService.sortDesc CaseMemory.score scoredAll)
          = length (take 200 filtered)) as Hlen.
  { rewrite (Permutation_length (sortDesc_perm CaseMemory.score scoredAll)).
    subst scoredAll. apply length_map. }
  destruct (length_slice0 topK (FaqService.sortDesc CaseMemory.score scoredAll))
    as [Hl1 Hl2].
  rewrite Hlen, length_take in Hl1.
  split; [lia|]. split; [lia|]. split; [exact Hl2|].
  intros r Hr. apply slice0_subseteq in Hr. rewrite sortDesc_perm in Hr.
  subst scoredAll. apply list_elem_of_fmap in Hr as (c & -> & Hc). simpl.
  apply subseteq_take in Hc.
  assert (c ∈ coll ∧ ∀ d, dom = Some d → CaseMemory.domain c = d) as [Hcc Hd].
  { subst filtered. destruct dom as [d|].
    - apply list_elem_of_filter in Hc as [Hd Hcc]. split; [exact Hcc|].
      intros d' [= <-]. exact Hd.
    - split; [exact Hc|]. intros d' [=]. }
  split; [exact Hcc|]. split; [exact Hd|]. exists v. split; reflexivity.
Qed.

(* ===================================================================== *)
(** * Seeding the FAQ collection *)
(* ===================================================================== *)

Section SeedFacts.
Import FaqInit.

Lemma findOne_None_key coll q d :
  findOne coll q d = None ↔ (q, d) ∉ map faqKey coll.
Proof.
  unfold findOne. induction coll as [|f coll IH]; simpl.
  - split; [intros _; apply not_elem_of_nil|reflexivity].
  - destruct (bool_decide _) eqn:E.
    + apply bool_decide_eq_true in E as [<- <-].
      split; [discriminate|]. intros H. exfalso. apply H. left.
    + apply bool_decide_eq_false in E. rewrite IH. rewrite not_elem_of_cons.
      split; [|tauto]. intros H. split; [|exact H].
      unfold faqKey. intros [= -> ->]. apply E. split; reflexivity.
Qed.

Lemma findOne_app_Some coll added q d f :
  findOne coll q d = Some f → findOne (coll ++ added) q d = Some f.
Proof.
  unfold findOne. induction coll as [|x coll IH]; simpl; [discriminate|].
  destruct (bool_decide _); [auto|exact IH].
Qed.

(** The inner loop only appends, keeps the keys distinct, and on success
    leaves an entry for every FAQ it was given. *)
Lemma initFaqs_faqs_spec post faqs :
  ∀ coll, ∃ added,
    (initFaqs_faqs post faqs coll).1 = coll ++ added
    ∧ (NoDup (map faqKey coll) → NoDup (map faqKey (coll ++ added)))
    ∧ ((initFaqs_faqs post faqs coll).2 = Ok tt →
       ∀ faq, faq ∈ faqs →
         is_Some (findOne (coll ++ added) (question faq) (domain faq))).
Proof.
  induction faqs as [|faq rest IH]; intros coll; simpl.
  - exists []. rewrite app_nil_r. split; [reflexivity|]. split; [auto|].
    intros _ faq Hin. apply elem_of_nil in Hin. contradiction.
  - destruct (findOne coll (question faq) (domain faq)) as [f|] eqn:Hf.
    + destruct (IH coll) as (added & E & Hnd & Hall).
      exists added. split; [exact E|]. split; [exact Hnd|].
      intros Hok x Hx. apply elem_of_cons in Hx as [->|Hx]; [|exact (Hall Hok x Hx)].
      rewrite (findOne_app_Some _ _ _ _ _ Hf). eauto.
    + destruct (FaqService.getEmbedding post (question faq)) as [v|err].
      * destruct (IH (coll ++ [withEmbedding faq v])) as (added & E & Hnd & Hall).
        exists (withEmbedding faq v :: added).
        replace (coll ++ withEmbedding faq v :: added)
          with ((coll ++ [withEmbedding faq v]) ++ added)
          by (rewrite <- app_assoc; reflexivity).
        split; [exact E|]. split.
        -- intros Hc. apply Hnd. rewrite map_app. simpl.
           apply NoDup_app. split; [exact Hc|]. split.
           ++ intros k Hk Hk'. apply list_elem_of_singleton in Hk'. subst k.
              apply findOne_None_key in Hf. exact (Hf Hk).
           ++ apply NoDup_singleton.
        -- intros Hok x Hx. apply elem_of_cons in Hx as [->|Hx];
             [|exact (Hall Hok x Hx)].
           assert (findOne (coll ++ [withEmbedding faq v]) (question faq)
                     (domain faq) = Some (withEmbedding faq v)) as Hnew.
           { clear -Hf. unfold findOne in *.
             induction coll as [|y coll IHc]; simpl in *.
             - rewrite bool_decide_eq_true_2 by (split; reflexivity). reflexivity.
             - destruct (bool_decide _); [discriminate|]. exact (IHc Hf). }
           rewrite (findOne_app_Some _ _ _ _ _ Hnew). eauto.
      * exists []. rewrite app_nil_r. simpl. split; [reflexivity|].
        split; [auto|]. discriminate.
Qed.

(** FAQs that are all stored are skipped without any embedding call. *)
Lemma initFaqs_faqs_present post faqs coll :
  (∀ faq, faq ∈ faqs → is_Some (findOne coll (question faq) (domain faq))) →
  initFaqs_faqs post faqs coll = (coll, Ok tt).
Proof.
  induction faqs as [|faq rest IH]; intros Hall; simpl; [reflexivity|].
  destruct (Hall faq) as [f ->]; [left|].
  apply IH. intros x Hx. apply Hall. right. exact Hx.
Qed.

Lemma initFaqs_spec post cols :
  ∀ coll, ∃ added,
    (initFaqs post cols coll).1 = coll ++ added
    ∧ (NoDup (map faqKey coll) → NoDup (map faqKey (coll ++ added)))
    ∧ ((initFaqs post cols coll).2 = Ok tt →
       ∀ faqs faq, faqs ∈ cols → faq ∈ faqs →
         is_Some (findOne (coll ++ added) (question faq) (domain faq))).
Proof.
  induction cols as [|faqs rest IH]; intros coll; simpl.
  - exists []. rewrite app_nil_r. split; [reflexivity|]. split; [auto|].
    intros _ faqs faq Hin. apply elem_of_nil in Hin. contradiction.
  - destruct (initFaqs_faqs_spec post faqs coll) as (a1 & E1 & Hnd1 & Hall1).
    destruct (initFaqs_faqs post faqs coll) as [coll1 [[]|err]] eqn:Hinner;
      simpl in E1, Hall1; subst coll1.
    + destruct (IH (coll ++ a1)) as (a2 & E2 & Hnd2 & Hall2).
      exists (a1 ++ a2). rewrite app_assoc.
      split; [exact E2|]. split; [auto|].
      intros Hok fs faq Hfs Hfaq.
      apply elem_of_cons in Hfs as [->|Hfs]; [|exact (Hall2 Hok fs faq Hfs Hfaq)].
      destruct (Hall1 eq_refl faq Hfaq) as [f Hf].
      rewrite (findOne_app_Some _ _ _ _ _ Hf). eauto.
    + exists a1. simpl. split; [reflexivity|]. split; [exact Hnd1|]. discriminate.
Qed.

Lemma initFaqs_present post cols coll :
  (∀ faqs faq, faqs ∈ cols → faq ∈ faqs →
     is_Some (findOne coll (question faq) (domain faq))) →
  initFaqs post cols coll = (coll, Ok tt).
Proof.
  induction cols as [|faqs rest IH]; intros Hall; simpl; [reflexivity|].
  rewrite initFaqs_faqs_present.
  - apply IH. intros fs faq Hfs Hfaq. apply (Hall fs faq); [right|]; assumption.
  - intros faq Hfaq. apply (Hall faqs faq); [left|exact Hfaq].
Qed.
End SeedFacts.

(** X8: seeding is idempotent: after a run of [initFaqs] that completed, a
    second run over the same collections changes nothing and completes, even
    when the embedding service is then unavailable (no FAQ needs an embedding
    any more). *)
Theorem initFaqs_idempotent
    (post post' : string → Exc (list float))
    (faqCollections : list (list FaqInit.entry))
    (coll coll' : list FaqService.Faq) :
  FaqInit.initFaqs post faqCollections coll = (coll', Ok tt) →
  FaqInit.initFaqs post' faqCollections coll' = (coll', Ok tt).
Proof.
  intros Hrun.
  destruct (initFaqs_spec post faqCollections coll) as (added & E & _ & Hall).
  rewrite Hrun in E, Hall. simpl in E, Hall. subst coll'.
  apply initFaqs_present. exact (Hall eq_refl).
Qed.

Lemma initFaqs_idempotent_witness :
  let faqs := [ [ {| FaqInit.question := "Where is my order?";
                     FaqInit.answer := "Track it under My Orders.";
                     FaqInit.domain := ECommerce |};
                  {| FaqInit.question := "How do I return an item?";
                     FaqInit.answer := "Open a return request.";
                     FaqInit.domain := ECommerce |} ] ] in
  FaqInit.initFaqs (Server.embedContent Scenario.outage) faqs
    (FaqInit.initFaqs (Server.embedContent Scenario.world) faqs
                      [Scenario.trackingFaq]).1
  = ((FaqInit.initFaqs (Server.embedContent Scenario.world) faqs
                       [Scenario.trackingFaq]).1, Ok tt).
Proof.
  intros faqs.
  apply (initFaqs_idempotent (Server.embedContent Scenario.world)
           (Server.embedContent Scenario.outage) faqs [Scenario.trackingFaq]).
  vm_compute. reflexivity.
Defined.

(** X9: whether it completes or is aborted by a failing embedding call,
    [initFaqs] only appends to the collection (the stored FAQs stay, in
    place) and never stores two FAQs with the same question and domain when
    the collection had none. *)
Theorem initFaqs_appends_without_duplicates
    (post : string → Exc (list float))
    (faqCollections : list (list FaqInit.entry))
    (coll : list FaqService.Faq) :
  ∃ added,
    (FaqInit.initFaqs post faqCollections coll).1 = coll ++ added
    ∧ (NoDup (map faqKey coll) →
       NoDup (map faqKey (FaqInit.initFaqs post faqCollections coll).1)).
Proof.
  destruct (initFaqs_spec post faqCollections coll) as (added & E & Hnd & _).
  exists added. split; [exact E|]. rewrite E. exact Hnd.
Qed.

Lemma initFaqs_appends_without_duplicates_witness :
  NoDup (map faqKey
           (FaqInit.initFaqs (Server.embedContent Scenario.world)
              [ [ {| FaqInit.question := "Where is my order?";
                     FaqInit.answer := "Track it under My Orders.";
                     FaqInit.domain := ECommerce |};
                  {| FaqInit.question := "Where is my order?";
                     FaqInit.answer := "See the tracking page.";
                     FaqInit.domain := ECommerce |} ] ] []).1).
Proof.
  destruct (initFaqs_appends_without_duplicates
              (Server.embedContent Scenario.world)
              [ [ {| FaqInit.question := "Where is my order?";
                     FaqInit.answer := "Track it under My Orders.";
                     FaqInit.domain := ECommerce |};
                  {| FaqInit.question := "Where is my order?";
                     FaqInit.answer := "See the tracking page.";
                     FaqInit.domain := ECommerce |} ] ] [])
    as (added & _ & Hnd).
  apply Hnd. constructor.
Defined.

(* ===================================================================== *)
(** * How the routes write the Case collection *)
(* ===================================================================== *)

Section CaseOpsFacts.
Import Server.

Lemma NoDup_map_eq {A B} (f : A → B) (l : list A) (x y : A) :
  NoDup (map f l) → x ∈ l → y ∈ l → f x = f y → x = y.
Proof.
  induction l as [|z l IH]; simpl; intros Hnd Hx Hy Hf.
  - apply elem_of_nil in Hx. contradiction.
  - apply NoDup_cons in Hnd as [Hz Hnd].
    apply elem_of_cons in Hx as [->|Hx]; apply elem_of_cons in Hy as [->|Hy].
    + reflexivity.
    + exfalso. apply Hz. rewrite Hf. apply (list_elem_of_fmap_2 f). exact Hy.
    + exfalso. apply Hz. rewrite <- Hf. apply (list_elem_of_fmap_2 f). exact Hx.
    + apply IH; assumption.
Qed.

Lemma findOne_None_caseKey cs u o p :
  findOne cs u o p = None ↔ (u, o, p) ∉ map caseKey cs.
Proof.
  unfold findOne. induction cs as [|c cs IH]; simpl.
  - split; [intros _; apply not_elem_of_nil|reflexivity].
  - destruct (bool_decide _) eqn:E.
    + apply bool_decide_eq_true in E as (<- & <- & <-).
      split; [discriminate|]. intros H. exfalso. apply H. left.
    + apply bool_decide_eq_false in E. rewrite IH, not_elem_of_cons.
      split; [|tauto]. intros H. split; [|exact H].
      unfold caseKey. intros [= -> -> ->]. apply E. repeat split.
Qed.

Lemma findOne_elem_of cs u o p c : findOne cs u o p = Some c → c ∈ cs.
Proof.
  unfold findOne. intros H. apply find_some in H as [H _].
  apply list_elem_of_In. exact H.
Qed.

Lemma findById_elem_of cs id c : findById cs id = Some c → c ∈ cs.
Proof.
  unfold findById. intros H. apply find_some in H as [H _].
  apply list_elem_of_In. exact H.
Qed.

(** Saving never changes the ids of the collection. *)
Lemma map_id_save c' cs : map CaseDoc._id (save c' cs) = map CaseDoc._id cs.
Proof.
  unfold save. rewrite map_map. apply map_ext. intros x.
  case_decide as E; [symmetry; exact E|reflexivity].
Qed.

Lemma elem_of_save x c' cs : x ∈ save c' cs → x = c' ∨ x ∈ cs.
Proof.
  unfold save. intros H. apply list_elem_of_fmap in H as (y & -> & Hy).
  case_decide; [left; reflexivity|right; exact Hy].
Qed.

Lemma elem_of_save_other x c' cs :
  x ∈ cs → CaseDoc._id x ≠ CaseDoc._id c' → x ∈ save c' cs.
Proof.
  intros Hx Hne. unfold save. apply list_elem_of_fmap. exists x.
  rewrite decide_False by exact Hne. split; [reflexivity|exact Hx].
Qed.

(** In a collection with distinct ids, saving over a stored case with the
    same key keeps the keys. *)
Lemma map_key_save c c' cs :
  NoDup (map CaseDoc._id cs) → c ∈ cs →
  CaseDoc._id c' = CaseDoc._id c → caseKey c' = caseKey c →
  map caseKey (save c' cs) = map caseKey cs.
Proof.
  intros Hnd Hc Hid Hk. unfold save. rewrite map_map.
  apply map_ext_in. intros x Hx. apply list_elem_of_In in Hx.
  case_decide as E; [|reflexivity].
  rewrite Hk. f_equal.
  apply (NoDup_map_eq CaseDoc._id cs); [assumption..|congruence].
Qed.

Lemma wellFormed_save c c' cs n :
  wellFormed cs n → c ∈ cs →
  CaseDoc._id c' = CaseDoc._id c → caseKey c' = caseKey c →
  wellFormed (save c' cs) n.
Proof.
  intros (Hid & Hkey & Hlt) Hc Hi Hk. unfold wellFormed.
  rewrite map_id_save, (map_key_save c c' cs Hid Hc Hi Hk).
  split; [exact Hid|]. split; [exact Hkey|].
  apply Forall_forall. intros x Hx.
  apply elem_of_save in Hx as [->|Hx].
  - rewrite Hi. exact (proj1 (Forall_forall _ _) Hlt c Hc).
  - exact (proj1 (Forall_forall _ _) Hlt x Hx).
Qed.

Lemma wellFormed_create c cs n :
  wellFormed cs n →
  findOne cs (CaseDoc.userId c) (CaseDoc.orderId c) (CaseDoc.productIndex c)
  = None →
  CaseDoc._id c = n →
  wellFormed (cs ++ [c]) (n + 1).
Proof.
  intros (Hid & Hkey & Hlt) Hf Hn. unfold wellFormed. rewrite !map_app. simpl.
  split; [|split].
  - apply NoDup_app. split; [exact Hid|]. split; [|apply NoDup_singleton].
    intros i Hi Hi'. apply list_elem_of_singleton in Hi'. subst i.
    apply list_elem_of_fmap in Hi as (x & Hx & Hin).
    pose proof (proj1 (Forall_forall _ _) Hlt x Hin) as Hlx.
    simpl in Hlx. rewrite <- Hx, Hn in Hlx. lia.
  - apply NoDup_app. split; [exact Hkey|]. split; [|apply NoDup_singleton].
    intros k Hk Hk'. apply list_elem_of_singleton in Hk'. subst k.
    apply findOne_None_caseKey in Hf. exact (Hf Hk).
  - apply Forall_app. split.
    + eapply Forall_impl; [exact Hlt|]. simpl. intros x Hx. lia.
    + constructor; [lia|constructor].
Qed.

Context (R : CaseDoc.t → CaseDoc.t → Prop) (Rnew : CaseDoc.t → Prop).

(** The writes keep the collection well-formed. *)
Lemma CaseOps_wellFormed st st' :
  CaseOps R Rnew st st' → wellFormed st.1 st.2 → wellFormed st'.1 st'.2.
Proof.
  induction 1 as [st|cs n c st' Hf Hn _ _ IH|cs n c c' st' Hc Hi Hk _ _ IH];
    intros Hwf; simpl in *.
  - exact Hwf.
  - apply IH. apply wellFormed_create; assumption.
  - apply IH. eapply wellFormed_save; eassumption.
Qed.

Lemma CaseOps_trans st1 st2 st3 :
  CaseOps R Rnew st1 st2 → CaseOps R Rnew st2 st3 → CaseOps R Rnew st1 st3.
Proof.
  induction 1 as [st|cs n c st' Hf Hn Hr _ IH|cs n c c' st' Hc Hi Hk Hr _ IH];
    intros H23.
  - exact H23.
  - eapply ops_create; eauto.
  - eapply ops_save; eauto.
Qed.

(** A property the inserted cases have and the saves keep holds of every
    case afterwards. *)
Lemma CaseOps_Forall (Q : CaseDoc.t → Prop) st st' :
  (∀ c, Rnew c → Q c) →
  (∀ c c', Q c → CaseDoc._id c' = CaseDoc._id c → R c c' → Q c') →
  CaseOps R Rnew st st' → Forall Q st.1 → Forall Q st'.1.
Proof.
  intros Hnew Hsave.
  induction 1 as [st|cs n c st' Hf Hn Hr _ IH|cs n c c' st' Hc Hi Hk Hr _ IH];
    intros HQ; simpl in *.
  - exact HQ.
  - apply IH. apply Forall_app. split; [exact HQ|].
    constructor; [apply Hnew; exact Hr|constructor].
  - apply IH. apply Forall_forall. intros x Hx.
    apply elem_of_save in Hx as [->|Hx].
    + apply (Hsave c); [|exact Hi|exact Hr].
      exact (proj1 (Forall_forall _ _) HQ c Hc).
    + exact (proj1 (Forall_forall _ _) HQ x Hx).
Qed.

(** In a well-formed collection, a case no save applies to is still stored
    afterwards, as it was. *)
Lemma CaseOps_untouched (F : CaseDoc.t → Prop) st st' x :
  (∀ c c', R c c' → ¬ F c) →
  CaseOps R Rnew st st' → wellFormed st.1 st.2 →
  x ∈ st.1 → F x → x ∈ st'.1.
Proof.
  intros HF.
  induction 1 as [st|cs n c st' Hf Hn Hr _ IH|cs n c c' st' Hc Hi Hk Hr _ IH];
    intros Hwf Hx HFx; simpl in *.
  - exact Hx.
  - apply IH; [apply wellFormed_create; assumption| |exact HFx].
    apply elem_of_app. left. exact Hx.
  - apply IH; [apply (wellFormed_save c); assumption| |exact HFx].
    apply elem_of_save_other; [exact Hx|].
    intros Hid. rewrite Hi in Hid.
    assert (x = c) as ->.
    { apply (NoDup_map_eq CaseDoc._id cs); [exact (proj1 Hwf)|assumption..]. }
    exact (HF c c' Hr HFx).
Qed.
End CaseOpsFacts.

Section CaseOpsMono.
Lemma CaseOps_mono (R R' : CaseDoc.t → CaseDoc.t → Prop)
    (Rnew Rnew' : CaseDoc.t → Prop) st st' :
  (∀ c c', R c c' → R' c c') → (∀ c, Rnew c → Rnew' c) →
  CaseOps R Rnew st st' → CaseOps R' Rnew' st st'.
Proof.
  intros HR Hnew.
  induction 1 as [st|cs n c st' Hf Hn Hr _ IH|cs n c c' st' Hc Hi Hk Hr _ IH].
  - constructor.
  - eapply ops_create; eauto.
  - eapply ops_save; eauto.
Qed.
End CaseOpsMono.

(* ===================================================================== *)
(** * The effects of a chat request *)
(* ===================================================================== *)

Section ChatEffects.
Import Server.
Variable buildMemoryReply : string → string → string → string.
Variable cfg : Config.

Local Ltac indexed :=
  match goal with
  | |- context [CaseMemory.indexCase ?p ?d ?n ?m ?c] =>
      let mem := fresh "mem" in
      let E := fresh "E" in
      destruct (indexCase_value p d n m c) as [mem E]; rewrite E
  end.

Local Ltac rooms :=
  repeat (apply Forall_cons_2;
          [first [left; reflexivity | right; reflexivity]|]);
  apply Forall_nil_2.

Lemma caseOps_same R Rnew (s s' : State) :
  cases s' = cases s → nextObjectId s' = nextObjectId s → caseOps R Rnew s s'.
Proof. unfold caseOps. intros -> ->. constructor. Qed.

Lemma caseOps_trans R Rnew (s1 s2 s3 : State) :
  caseOps R Rnew s1 s2 → caseOps R Rnew s2 s3 → caseOps R Rnew s1 s3.
Proof. apply CaseOps_trans. Qed.

(** Inserting the case of a key that is not stored. *)
Lemma caseOps_create R Rnew (s s' : State) c :
  cases s' = cases s ++ [c] →
  nextObjectId s' = (nextObjectId s + 1)%N →
  findOne (cases s) (CaseDoc.userId c) (CaseDoc.orderId c)
          (CaseDoc.productIndex c) = None →
  CaseDoc._id c = nextObjectId s →
  Rnew c →
  caseOps R Rnew s s'.
Proof.
  intros Hc Hn Hf Hi Hnew. unfold caseOps. rewrite Hc, Hn.
  apply (ops_create R Rnew (cases s) (nextObjectId s) c); auto. constructor.
Qed.

(** Saving over the case found for a key. *)
Lemma caseOps_save (R : CaseDoc.t → CaseDoc.t → Prop) Rnew s c c' :
  c ∈ cases s →
  CaseDoc._id c' = CaseDoc._id c → caseKey c' = caseKey c → R c c' →
  caseOps R Rnew s (set_cases (save c' (cases s)) s).
Proof.
  intros Hc Hi Hk Hr. unfold caseOps. simpl.
  eapply ops_save; [exact Hc|exact Hi|exact Hk|exact Hr|constructor].
Qed.

Lemma chat_agentOnly_ok now uid sp message c s :
  stageOk now uid sp message s (chat_agentOnly now uid sp message c s).
Proof.
  unfold stageOk, chatFrame, turnRecorded, toRequesterAndAgents,
    chat_agentOnly. simpl.
  split; [repeat split; apply caseOps_same; reflexivity|].
  split; [eexists; repeat split|].
  rooms.
Qed.

Lemma chat_faq_ok now uid sp message hit s :
  stageOk now uid sp message s (chat_faq now uid sp message hit s).
Proof.
  unfold stageOk, chatFrame, turnRecorded, toRequesterAndAgents, chat_faq.
  simpl.
  split; [repeat split; apply caseOps_same; reflexivity|].
  split; [eexists; repeat split|].
  rooms.
Qed.

Lemma chat_caseMemory_ok now uid sp message top similar s :
  stageOk now uid sp message s
    (chat_caseMemory buildMemoryReply now uid sp message top similar s).
Proof.
  unfold stageOk, chatFrame, turnRecorded, toRequesterAndAgents,
    chat_caseMemory. simpl.
  split; [repeat split; apply caseOps_same; reflexivity|].
  split; [eexists; repeat split|].
  rooms.
Qed.

Lemma chat_refund_ok w now uid sp message s :
  stageOk now uid sp message s (chat_refund cfg w now uid sp message s).
Proof.
  unfold stageOk, chatFrame, turnRecorded, toRequesterAndAgents, chat_refund.
  cbv zeta.
  destruct (findOne (cases s) uid (sp_orderId sp) (sp_productIndex sp))
    as [c|] eqn:Hf.
  - indexed. simpl.
    split; [repeat split|].
    + destruct (findOne_key _ _ _ _ _ Hf) as (Hu & _ & _).
      apply (caseOps_save _ _ s c);
        [exact (findOne_elem_of _ _ _ _ _ Hf)|reflexivity|reflexivity|].
      repeat split; [exact Hu|right; reflexivity].
    + split; [eexists; repeat split|].
      rooms.
  - unfold create. indexed. simpl.
    split; [repeat split|].
    + eapply caseOps_create;
        [reflexivity|reflexivity|exact Hf|reflexivity|repeat split].
    + split; [eexists; repeat split|].
      rooms.
Qed.

Lemma chat_llm_ok w now uid userObj sp message s :
  stageOk now uid sp message s (chat_llm cfg w now uid userObj sp message s).
Proof.
  unfold stageOk, chatFrame, turnRecorded, toRequesterAndAgents, chat_llm.
  cbv zeta.
  destruct (findOne (cases s) uid (sp_orderId sp) (sp_productIndex sp))
    as [c|] eqn:Hf.
  - fold (llmUpdate sp message c).
    assert (CaseDoc._id (llmUpdate sp message c) = CaseDoc._id c
            ∧ caseKey (llmUpdate sp message c) = caseKey c
            ∧ byOwner uid c (llmUpdate sp message c)) as (Hi & Hk & Hr).
    { destruct (findOne_key _ _ _ _ _ Hf) as (Hu & _ & _).
      unfold llmUpdate, byOwner. simpl. case_decide; simpl; repeat split; auto. }
    indexed. simpl.
    split; [repeat split|].
    + apply (caseOps_save _ _ s c);
        [exact (findOne_elem_of _ _ _ _ _ Hf)|exact Hi|exact Hk|exact Hr].
    + split; [eexists; repeat split|].
      rooms.
  - unfold create. indexed. simpl.
    split; [repeat split|].
    + eapply caseOps_create;
        [reflexivity|reflexivity|exact Hf|reflexivity|repeat split].
    + split; [eexists; repeat split|].
      rooms.
Qed.

Lemma stageOk_after now uid sp message s cs o :
  stageOk now uid sp message s o → stageOk now uid sp message s (after cs o).
Proof. intros H. exact H. Qed.

Lemma chat_automation_ok w now uid userObj sp message s :
  stageOk now uid sp message s
    (chat_automation buildMemoryReply cfg w now uid userObj sp message s).
Proof.
  unfold chat_automation.
  destruct (isRefund message); [apply chat_refund_ok|].
  unfold FaqService.checkFaq.
  match goal with
  | |- context [try_catch ?m (λ _, Ok None)] =>
      destruct (try_catch_value m (@None FaqService.hit)) as [r E]; rewrite E
  end.
  destruct r as [faqHit|]; [apply stageOk_after, chat_faq_ok|].
  unfold CaseMemory.searchSimilarCases.
  match goal with
  | |- context [try_catch ?m (λ _, Ok [])] =>
      destruct (try_catch_value m (@nil CaseMemory.scored)) as [similar E'];
      rewrite E'
  end.
  destruct similar as [|top rest]; [apply stageOk_after, chat_llm_ok|].
  destruct (PrimFloat.leb _ _);
    [apply stageOk_after, chat_caseMemory_ok|apply stageOk_after, chat_llm_ok].
Qed.

(** "Ensure case exists", as a write of the Case collection. *)
Lemma ensureCase_caseOps now uid sp message s c s' :
  ensureCase now uid sp message s = (c, s') →
  caseOps (byOwner uid) (newOf uid) s s'
  ∧ users s' = users s ∧ faqs s' = faqs s ∧ memories s' = memories s
  ∧ redis s' = redis s.
Proof.
  unfold ensureCase.
  destruct (findOne (cases s) uid (sp_orderId sp) (sp_productIndex sp))
    as [c0|] eqn:Hf.
  - intros [= <- <-]. repeat split. apply caseOps_same; reflexivity.
  - unfold create. intros [= <- <-]. split; [|repeat split].
    eapply caseOps_create;
      [reflexivity|reflexivity|exact Hf|reflexivity|repeat split].
Qed.

Lemma loadUser_frame now uid s u s1 :
  loadUser now uid s = Some (u, s1) →
  cases s1 = cases s ∧ nextObjectId s1 = nextObjectId s
  ∧ users s1 = users s ∧ faqs s1 = faqs s ∧ memories s1 = memories s
  ∧ selectedProductKey (redis s1) = selectedProductKey (redis s)
  ∧ agentOnlyKey (redis s1) = agentOnlyKey (redis s)
  ∧ chatKey (redis s1) = chatKey (redis s).
Proof.
  unfold loadUser. destruct (get now (userKey (redis s)) uid).
  - intros [= _ <-]. repeat split.
  - destruct (users s !! uid); [|discriminate]. intros [= _ <-]. repeat split.
Qed.

(** Whatever the request, a chat request of [uid] keeps the users, the FAQs,
    the selections and the locks, writes the cases as an owner may, and
    emits to the requester and to the agents only. *)
Lemma chat_effects w now uid message s :
  let o := chat buildMemoryReply cfg w now uid message s in
  chatFrame uid s (state o) ∧ toRequesterAndAgents uid o.
Proof.
  cbv zeta.
  assert (∀ s' r, cases s' = cases s → nextObjectId s' = nextObjectId s →
            users s' = users s → faqs s' = faqs s →
            selectedProductKey (redis s') = selectedProductKey (redis s) →
            agentOnlyKey (redis s') = agentOnlyKey (redis s) →
            chatFrame uid s (state (answer s' r))
            ∧ toRequesterAndAgents uid (answer s' r)) as Hrej.
  { intros s' r Hc Hn Hu Hq Hs Ha. split; [|constructor].
    repeat split; try assumption. apply caseOps_same; assumption. }
  unfold chat. destruct message as [message|];
    [|apply Hrej; reflexivity].
  destruct (Js.truthy_string message); simpl negb; cbv iota;
    [|apply Hrej; reflexivity].
  destruct (loadUser now uid s) as [[userObj s1]|] eqn:Hl;
    [|apply Hrej; reflexivity].
  destruct (loadUser_frame _ _ _ _ _ Hl)
    as (Hc1 & Hn1 & Hu1 & Hf1 & _ & Hs1 & Ha1 & _).
  destruct (get now _ uid) as [sp|]; [|apply Hrej; assumption].
  destruct (ensureCase now uid sp message s1) as [c s2] eqn:He.
  destruct (ensureCase_caseOps _ _ _ _ _ _ _ He) as (Hops & Hu2 & Hf2 & _ & Hr2).
  assert (∀ o, stageOk now uid sp message s2 o →
            chatFrame uid s (state o) ∧ toRequesterAndAgents uid o) as Hstage.
  { intros o ((Hu & Hq & Hs & Ha & Hc) & _ & Hem). split; [|exact Hem].
    unfold chatFrame. rewrite Hu, Hq, Hs, Ha, Hu2, Hf2, Hr2.
    repeat split; try assumption.
    eapply caseOps_trans; [|exact Hc].
    eapply caseOps_trans; [|exact Hops].
    apply caseOps_same; assumption. }
  destruct (isAgentOnly _ _ _);
    [apply Hstage, chat_agentOnly_ok|apply Hstage, chat_automation_ok].
Qed.

(** A well-formed request of a stored user with a live selection is
    recorded. *)
Lemma chat_records w now uid message s u sp :
  Js.truthy_string message = true →
  users s !! uid = Some u →
  get now (selectedProductKey (redis s)) uid = Some sp →
  turnRecorded now (uid, sp_orderId sp, sp_productIndex sp) message s
    (chat buildMemoryReply cfg w now uid (Some message) s).
Proof.
  intros Hm Hu Hsp.
  destruct (chat_handled buildMemoryReply cfg w now uid message s u sp Hm Hu Hsp)
    as (u' & m & cs' & n' & _ & _ & Hchat).
  cbv zeta in Hchat. rewrite Hchat.
  match goal with
  | |- turnRecorded _ _ _ _ (if _ then chat_agentOnly _ _ _ _ ?c ?s2 else _) =>
      pose proof (chat_agentOnly_ok now uid sp message c s2) as (_ & H1 & _);
      pose proof (chat_automation_ok w now uid u' sp message s2) as (_ & H2 & _)
  end.
  destruct (isAgentOnly _ _ _); [exact H1|exact H2].
Qed.
End ChatEffects.

(* ===================================================================== *)
(** * The effects of the other routes on the Case collection *)
(* ===================================================================== *)

Section RouteEffects.
Import Server.
Variable buildMemoryReply : string → string → string → string.
Variable cfg : Config.
Variable orders : gmap Id (list ServerOrders.Order).

Lemma elem_of_save_self c c' cs :
  c ∈ cs → CaseDoc._id c' = CaseDoc._id c → c' ∈ save c' cs.
Proof.
  intros Hc Hi. unfold save. apply list_elem_of_fmap.
  exists c. split; [|exact Hc]. rewrite decide_True by congruence. reflexivity.
Qed.

(** Where a case after some writes comes from: it was inserted by them, or
    it is a stored case, as it was or saved over. *)
Lemma CaseOps_origin (R : CaseDoc.t → CaseDoc.t → Prop)
    (Rnew : CaseDoc.t → Prop) st st' :
  (∀ a b c, R a b → caseKey b = caseKey a → R b c → R a c) →
  (∀ c c', Rnew c → caseKey c' = caseKey c → R c c' → Rnew c') →
  CaseOps R Rnew st st' →
  ∀ c', c' ∈ st'.1 →
    Rnew c' ∨ c' ∈ st.1
    ∨ ∃ c, c ∈ st.1 ∧ CaseDoc._id c' = CaseDoc._id c
           ∧ caseKey c' = caseKey c ∧ R c c'.
Proof.
  intros Htrans Hnew Hops.
  induction Hops as [st|cs n c st' Hf Hi Hn Hops IH
                    |cs n c c0 st' Hc Hi Hk Hr Hops IH]; intros c' Hc'.
  - right. left. exact Hc'.
  - destruct (IH c' Hc') as [H|[H1|(c1 & H1 & Hi1 & Hk1 & Hr1)]];
      [left; exact H| |]; simpl in H1; apply elem_of_app in H1 as [H1|H1].
    + right. left. exact H1.
    + apply list_elem_of_singleton in H1 as ->. left. exact Hn.
    + right. right. exists c1. auto.
    + apply list_elem_of_singleton in H1 as ->. left.
      exact (Hnew c c' Hn Hk1 Hr1).
  - destruct (IH c' Hc') as [H|[H1|(c1 & H1 & Hi1 & Hk1 & Hr1)]];
      [left; exact H| |]; simpl in H1; apply elem_of_save in H1 as [->|H1].
    + right. right. exists c. simpl. auto.
    + right. left. exact H1.
    + right. right. exists c. simpl.
      repeat split; [exact Hc|congruence|congruence|].
      exact (Htrans c c0 c' Hr Hk Hr1).
    + right. right. exists c1. auto.
Qed.

Lemma byOwner_refl_on uid c : CaseDoc.userId c = uid → byOwner uid c c.
Proof. intros H. repeat split; auto. Qed.

(** POST /api/case writes the cases as their owner may, and nothing else
    but the case memory. *)
Lemma createCase_effects w now uid oid pidx description bodyDomain s :
  let s' := ServerOrders.state
              (ServerOrders.createCase orders w now uid oid pidx description
                                       bodyDomain s) in
  users s' = users s ∧ faqs s' = faqs s ∧ redis s' = redis s
  ∧ caseOps (byOwner uid) (newOf uid) s s'.
Proof.
  cbv zeta. unfold ServerOrders.createCase.
  assert (∀ c b, users (ServerOrders.state (ServerOrders.reply s c b)) = users s
                 ∧ faqs (ServerOrders.state (ServerOrders.reply s c b)) = faqs s
                 ∧ redis (ServerOrders.state (ServerOrders.reply s c b)) = redis s
                 ∧ caseOps (byOwner uid) (newOf uid) s
                     (ServerOrders.state (ServerOrders.reply s c b))) as Hrej.
  { intros. repeat split. apply caseOps_same; reflexivity. }
  destruct pidx as [pidx|]; [|apply Hrej].
  destruct (negb (Js.truthy_string oid) || negb (Js.truthy_string description));
    [apply Hrej|].
  destruct (users s !! uid); [|apply Hrej].
  destruct (ServerOrders.productAt _ pidx) as [[order product]|]; [|apply Hrej].
  destruct (findOne (cases s) uid oid pidx) as [c|] eqn:Hf.
  - match goal with
    | |- context [CaseMemory.indexCase ?p ?d ?n ?m ?c] =>
        destruct (indexCase_value p d n m c) as [mem E]; rewrite E
    end.
    simpl. repeat split.
    destruct (findOne_key _ _ _ _ _ Hf) as (Hu & _ & _).
    apply (caseOps_save _ _ s c);
      [exact (findOne_elem_of _ _ _ _ _ Hf)|reflexivity|reflexivity|].
    repeat split; [exact Hu|left; reflexivity].
  - unfold create.
    match goal with
    | |- context [CaseMemory.indexCase ?p ?d ?n ?m ?c] =>
        destruct (indexCase_value p d n m c) as [mem E]; rewrite E
    end.
    simpl. repeat split.
    eapply caseOps_create;
      [reflexivity|reflexivity|exact Hf|reflexivity|repeat split].
Qed.

(** The admin routes save over stored cases and insert none. *)
Lemma caseResponse_effects now uid role id message s :
  let s' := state (caseResponse now uid role id message s) in
  users s' = users s ∧ faqs s' = faqs s
  ∧ caseOps anyChange noInsert s s'
  ∧ (role = role_user → s' = s).
Proof.
  cbv zeta. unfold caseResponse.
  assert (∀ r, users (state (answer s r)) = users s
               ∧ faqs (state (answer s r)) = faqs s
               ∧ caseOps anyChange noInsert s (state (answer s r))
               ∧ (role = role_user → state (answer s r) = s)) as Hrej.
  { intros. repeat split. apply caseOps_same; reflexivity. }
  destruct role; [apply Hrej|].
  destruct message as [message|]; [|apply Hrej].
  destruct (negb (Js.truthy_string message)); [apply Hrej|].
  destruct (findById (cases s) id) as [c|] eqn:Hf; [|apply Hrej].
  simpl. repeat split; [|discriminate].
  apply (caseOps_save _ _ s c);
    [exact (findById_elem_of _ _ _ Hf)|reflexivity|reflexivity|exact I].
Qed.

Lemma applyUpdates_id now u c :
  CaseDoc._id (applyUpdates now u c) = CaseDoc._id c
  ∧ caseKey (applyUpdates now u c) = caseKey c
  ∧ CaseDoc.responses (applyUpdates now u c) = CaseDoc.responses c.
Proof.
  unfold applyUpdates.
  destruct (upd_status u), (upd_priority u), (upd_description u);
    repeat split.
Qed.

Lemma caseUpdate_effects w now uid role id updates s :
  let s' := state (caseUpdate w now uid role id updates s) in
  users s' = users s ∧ faqs s' = faqs s
  ∧ caseOps anyChange noInsert s s'
  ∧ (role = role_user → s' = s).
Proof.
  cbv zeta. unfold caseUpdate.
  assert (∀ r, users (state (answer s r)) = users s
               ∧ faqs (state (answer s r)) = faqs s
               ∧ caseOps anyChange noInsert s (state (answer s r))
               ∧ (role = role_user → state (answer s r) = s)) as Hrej.
  { intros. repeat split. apply caseOps_same; reflexivity. }
  destruct role; [apply Hrej|].
  destruct (findById (cases s) id) as [c|] eqn:Hf; [|apply Hrej].
  destruct (applyUpdates_id now updates c) as (Hi & Hk & _).
  pose proof (findById_elem_of _ _ _ Hf) as Hc.
  cbv zeta. case_decide.
  - simpl. repeat split; [|discriminate].
    unfold caseOps. simpl.
    refine (@ops_save _ _ _ _ c _ _ Hc Hi Hk I
              (@ops_save _ _ _ _ (applyUpdates now updates c) _ _
                 (elem_of_save_self _ _ _ Hc Hi) _ _ I (ops_done _ _ _)));
      reflexivity.
  - simpl. repeat split; [|discriminate].
    apply (caseOps_save _ _ s c); [exact Hc|exact Hi|exact Hk|exact I].
Qed.

Lemma caseAgentOnly_effects now role id enabled s :
  let s' := state (caseAgentOnly now role id enabled s) in
  users s' = users s ∧ faqs s' = faqs s ∧ cases s' = cases s
  ∧ nextObjectId s' = nextObjectId s
  ∧ (role = role_user → s' = s).
Proof.
  cbv zeta. unfold caseAgentOnly. destruct role; [repeat split|].
  destruct (findById (cases s) id); repeat split; discriminate.
Qed.

Lemma selectProduct_effects now uid oid pidx s :
  let s' := ServerOrders.state
              (ServerOrders.selectProduct orders now uid oid pidx s) in
  users s' = users s ∧ faqs s' = faqs s ∧ cases s' = cases s
  ∧ nextObjectId s' = nextObjectId s
  ∧ agentOnlyKey (redis s') = agentOnlyKey (redis s).
Proof.
  cbv zeta. unfold ServerOrders.selectProduct.
  destruct (users s !! uid); [|repeat split].
  destruct (ServerOrders.productAt _ pidx) as [[order product]|];
    repeat split.
Qed.

(** What a request of a user without the admin role may do to the cases. *)
Lemma handle_user_caseOps w now uid req s :
  caseOps (byOwner uid) (newOf uid) s
    (ServerApi.handle buildMemoryReply cfg orders w now uid role_user req s).
Proof.
  destruct req; simpl.
  - apply (chat_effects buildMemoryReply cfg w now uid message s).
  - apply caseOps_same; apply selectProduct_effects.
  - apply caseOps_same; reflexivity.
  - apply caseOps_same; reflexivity.
  - apply createCase_effects.
  - apply caseOps_same; reflexivity.
  - apply caseOps_same; reflexivity.
  - apply caseOps_same; reflexivity.
Qed.

(** What any request may do to the cases. *)
Lemma handle_caseOps w now uid role req s :
  caseOps anyChange (fun _ => True) s
    (ServerApi.handle buildMemoryReply cfg orders w now uid role req s).
Proof.
  assert (∀ s', caseOps (byOwner uid) (newOf uid) s s' →
                caseOps anyChange (fun _ => True) s s') as Hown.
  { intros s'. apply CaseOps_mono; intros; exact I. }
  assert (∀ s', caseOps anyChange noInsert s s' →
                caseOps anyChange (fun _ => True) s s') as Hadm.
  { intros s'. apply CaseOps_mono; intros; exact I. }
  destruct req; simpl.
  - apply Hown, (chat_effects buildMemoryReply cfg w now uid message s).
  - apply caseOps_same; apply selectProduct_effects.
  - apply caseOps_same; reflexivity.
  - apply caseOps_same; reflexivity.
  - apply Hown, createCase_effects.
  - apply Hadm, caseResponse_effects.
  - apply Hadm, caseUpdate_effects.
  - apply caseOps_same; apply caseAgentOnly_effects.
Qed.

Lemma handle_user_agentOnlyKey w now uid req s :
  agentOnlyKey
    (redis (ServerApi.handle buildMemoryReply cfg orders w now uid role_user
                             req s))
  = agentOnlyKey (redis s).
Proof.
  destruct req; simpl; try reflexivity.
  - apply (chat_effects buildMemoryReply cfg w now uid message s).
  - apply selectProduct_effects.
  - destruct (createCase_effects w now uid orderId productIndex description
                bodyDomain s) as (_ & _ & Hr & _).
    cbv zeta in Hr. rewrite Hr. reflexivity.
Qed.

Lemma byOwner_trans uid a b c :
  byOwner uid a b → caseKey b = caseKey a → byOwner uid b c → byOwner uid a c.
Proof.
  unfold byOwner. intros (Hu & Hs & Hr) Hk (_ & Hs' & Hr').
  repeat split; [exact Hu| |congruence].
  destruct Hs' as [Hs'|Hs']; [|right; exact Hs'].
  destruct Hs as [Hs|Hs]; [left|right]; congruence.
Qed.

Lemma newOf_byOwner uid c c' :
  newOf uid c → caseKey c' = caseKey c → byOwner uid c c' → newOf uid c'.
Proof.
  unfold newOf, byOwner, caseKey.
  intros (Hu & Hs & Hr) Hk (_ & Hs' & Hr').
  repeat split; [congruence| |congruence].
  destruct Hs' as [Hs'|Hs']; congruence.
Qed.
End RouteEffects.

(* ===================================================================== *)
(** * Invariants of the routes *)
(* ===================================================================== *)

Section ApiFacts.
Import Server.
Variable buildMemoryReply : string → string → string → string.
Variable cfg : Config.
Variable orders : gmap Id (list ServerOrders.Order).

Local Abbreviation run := (ServerApi.run buildMemoryReply cfg orders).

Lemma run_caseOps reqs s : caseOps anyChange (fun _ => True) s (run reqs s).
Proof.
  revert s. induction reqs as [|[[[[w now] uid] role] req] reqs IH]; intros s.
  - apply caseOps_same; reflexivity.
  - simpl. eapply caseOps_trans; [apply handle_caseOps|apply IH].
Qed.

Lemma run_users_caseOps (P : Id → Prop) reqs s :
  fromUsers P reqs →
  caseOps (fun c c' => ∃ u, P u ∧ byOwner u c c')
          (fun c => ∃ u, P u ∧ newOf u c) s (run reqs s).
Proof.
  intros Hreqs. revert s.
  induction Hreqs as [|[[[[w now] uid] role] req] reqs [-> HP] _ IH]; intros s.
  - apply caseOps_same; reflexivity.
  - simpl. eapply caseOps_trans; [|apply IH].
    eapply CaseOps_mono; [| |apply handle_user_caseOps]; simpl; eauto.
Qed.

Lemma users_write_trans (P : Id → Prop) a b c :
  (∃ u, P u ∧ byOwner u a b) → caseKey b = caseKey a →
  (∃ u, P u ∧ byOwner u b c) → ∃ u, P u ∧ byOwner u a c.
Proof.
  intros (u & HP & Hab) Hk (u' & _ & Hbc). exists u. split; [exact HP|].
  apply (byOwner_trans u a b c Hab Hk).
  destruct Hab as (Hu & _), Hbc as (_ & Hbc). split; [|exact Hbc].
  unfold caseKey in Hk. congruence.
Qed.

Lemma users_new_write (P : Id → Prop) c c' :
  (∃ u, P u ∧ newOf u c) → caseKey c' = caseKey c →
  (∃ u, P u ∧ byOwner u c c') → ∃ u, P u ∧ newOf u c'.
Proof.
  intros (u & HP & Hn) Hk (u' & _ & Hb). exists u. split; [exact HP|].
  apply (newOf_byOwner u c c' Hn Hk).
  destruct Hn as (Hu & _), Hb as (_ & Hb). split; [exact Hu|exact Hb].
Qed.
End ApiFacts.

(** X10: whatever requests the state-changing routes handle one after the
    other, from whomever and in whatever order (the body of PUT
    /api/case/:id carrying status, priority and description), a Case
    collection whose ids are distinct and that holds at most one case per
    (user, order, product) stays so, and no stored id reaches the next id to
    hand out. *)
Theorem requests_keep_case_store_well_formed
    (buildMemoryReply : string → string → string → string)
    (cfg : Server.Config) (orders : gmap Id (list ServerOrders.Order))
    (reqs : list (Server.World * Time * Id * Server.Role * ServerApi.Request))
    (s : Server.State) :
  wellFormed (Server.cases s) (Server.nextObjectId s) →
  let s' := ServerApi.run buildMemoryReply cfg orders reqs s in
  wellFormed (Server.cases s') (Server.nextObjectId s').
Proof.
  intros Hwf. cbv zeta.
  exact (CaseOps_wellFormed _ _ _ _
           (run_caseOps buildMemoryReply cfg orders reqs s) Hwf).
Qed.

(** X11: no sequence of requests of users without the admin role changes an
    agent-only key: a user can neither set nor lift the lock of a case,
    whatever route they call. *)
Theorem user_requests_never_change_agent_locks
    (buildMemoryReply : string → string → string → string)
    (cfg : Server.Config) (orders : gmap Id (list ServerOrders.Order))
    (reqs : list (Server.World * Time * Id * Server.Role * ServerApi.Request))
    (s : Server.State) :
  fromUsers (fun _ => True) reqs →
  Server.agentOnlyKey
    (Server.redis (ServerApi.run buildMemoryReply cfg orders reqs s))
  = Server.agentOnlyKey (Server.redis s).
Proof.
  intros Hreqs. revert s.
  induction Hreqs as [|[[[[w now] uid] role] req] reqs [-> _] _ IH]; intros s.
  - reflexivity.
  - simpl. rewrite IH. apply handle_user_agentOnlyKey.
Qed.

(** X12: requests of users without the admin role, none of them [v], leave
    the cases of [v] as they are: in a well-formed collection, a case of [v]
    is stored afterwards exactly when it was stored before. *)
Theorem user_requests_leave_other_users_cases
    (buildMemoryReply : string → string → string → string)
    (cfg : Server.Config) (orders : gmap Id (list ServerOrders.Order))
    (reqs : list (Server.World * Time * Id * Server.Role * ServerApi.Request))
    (s : Server.State) (v : Id) (c : CaseDoc.t) :
  wellFormed (Server.cases s) (Server.nextObjectId s) →
  fromUsers (fun uid => uid ≠ v) reqs →
  CaseDoc.userId c = v →
  c ∈ Server.cases (ServerApi.run buildMemoryReply cfg orders reqs s)
  ↔ c ∈ Server.cases s.
Proof.
  intros Hwf Hreqs Hv.
  pose proof (run_users_caseOps buildMemoryReply cfg orders _ reqs s Hreqs)
    as Hops.
  split.
  - intros Hc.
    destruct (CaseOps_origin _ _ _ _
                (users_write_trans _) (users_new_write _) Hops c Hc)
      as [(u & Hu & Hn & _)|[H|(c0 & _ & _ & Hk & u & Hu & Hb & _)]].
    + congruence.
    + exact H.
    + unfold caseKey in Hk. congruence.
  - intros Hc.
    apply (CaseOps_untouched _ _
             (fun x => CaseDoc.userId x = v) _ _ c) in Hops; auto.
    intros c0 c0' (u & Hu & Hb & _). congruence.
Qed.

(** X13: requests of users without the admin role never append a response
    to a case and never move a case to in-progress or resolved: every case
    stored afterwards is an open case without responses that they inserted,
    or a case stored before, with the same responses and with its status
    kept or set to open. *)
Theorem user_requests_only_open_cases
    (buildMemoryReply : string → string → string → string)
    (cfg : Server.Config) (orders : gmap Id (list ServerOrders.Order))
    (reqs : list (Server.World * Time * Id * Server.Role * ServerApi.Request))
    (s : Server.State) (c' : CaseDoc.t) :
  fromUsers (fun _ => True) reqs →
  c' ∈ Server.cases (ServerApi.run buildMemoryReply cfg orders reqs s) →
  (CaseDoc.status c' = open ∧ CaseDoc.responses c' = [])
  ∨ ∃ c, c ∈ Server.cases s
         ∧ CaseDoc._id c' = CaseDoc._id c
         ∧ caseKey c' = caseKey c
         ∧ (CaseDoc.status c' = CaseDoc.status c ∨ CaseDoc.status c' = open)
         ∧ CaseDoc.responses c' = CaseDoc.responses c.
Proof.
  intros Hreqs Hc.
  pose proof (run_users_caseOps buildMemoryReply cfg orders _ reqs s Hreqs)
    as Hops.
  destruct (CaseOps_origin _ _ _ _
              (users_write_trans _) (users_new_write _) Hops c' Hc)
    as [(u & _ & _ & Hs & Hr)|[H|(c0 & H0 & Hi & Hk & u & _ & _ & Hs & Hr)]].
  - left. split; assumption.
  - right. exists c'. repeat split; auto.
  - right. exists c0. repeat split; assumption.
Qed.

(* ===================================================================== *)
(** * Threads *)
(* ===================================================================== *)

Section ThreadFacts.
Import Server ServerThreads.

Lemma insertAsc_perm x l : insertAsc x l ≡ₚ x :: l.
Proof.
  induction l as [|y l IH]; simpl; [reflexivity|].
  destruct (te_timestamp y <? te_timestamp x)%N; [|reflexivity].
  rewrite IH. apply Permutation_swap.
Qed.

Lemma sortAsc_perm l : sortAsc l ≡ₚ l.
Proof.
  induction l as [|x l IH]; simpl; [reflexivity|].
  rewrite insertAsc_perm, IH. reflexivity.
Qed.

Lemma insertAsc_sorted x l :
  StronglySorted earlier l → StronglySorted earlier (insertAsc x l).
Proof.
  induction l as [|y l IH]; simpl; intros Hs.
  - constructor; [constructor|constructor].
  - apply StronglySorted_inv in Hs as [Hs Hy].
    destruct (te_timestamp y <? te_timestamp x)%N eqn:Hlt.
    + apply N.ltb_lt in Hlt. constructor; [exact (IH Hs)|].
      rewrite insertAsc_perm. constructor; [unfold earlier; lia|exact Hy].
    + apply N.ltb_ge in Hlt. constructor.
      * constructor; assumption.
      * constructor; [exact Hlt|].
        eapply Forall_impl; [exact Hy|]. unfold earlier. intros z Hz. lia.
Qed.

Lemma sortAsc_sorted l : StronglySorted earlier (sortAsc l).
Proof.
  induction l as [|x l IH]; simpl; [constructor|].
  apply insertAsc_sorted, IH.
Qed.

Lemma filter_insertAsc t x l :
  filter (fun e => te_timestamp e = t) (insertAsc x l)
  = filter (fun e => te_timestamp e = t) (x :: l).
Proof.
  induction l as [|y l IH]; simpl; [reflexivity|].
  destruct (te_timestamp y <? te_timestamp x)%N eqn:Hlt; [|reflexivity].
  apply N.ltb_lt in Hlt.
  rewrite (filter_cons _ y (insertAsc x l)), IH.
  rewrite !filter_cons.
  destruct (decide (te_timestamp y = t)) as [Hy|Hy],
           (decide (te_timestamp x = t)) as [Hx|Hx]; try reflexivity.
  lia.
Qed.

Lemma filter_sortAsc t l :
  filter (fun e => te_timestamp e = t) (sortAsc l)
  = filter (fun e => te_timestamp e = t) l.
Proof.
  induction l as [|x l IH]; simpl; [reflexivity|].
  rewrite filter_insertAsc, !filter_cons, IH. reflexivity.
Qed.


Lemma lRange_pushed now now' key turns t (r r' : Redis) :
  chatKey r' = <[key := (turns ++ [t], EX now 86400)]> (chatKey r) →
  (now' < now + 86400000)%N →
  lRange now' r' key = turns ++ [t].
Proof.
  intros Hk Hlt. unfold lRange, get. rewrite Hk, lookup_insert_eq.
  assert ((now' <? EX now 86400)%N = true) as ->; [|reflexivity].
  apply N.ltb_lt. unfold EX. lia.
Qed.
End ThreadFacts.

(** X14: the thread of a product is a stable merge by time: it is in
    ascending order of timestamp, it holds exactly the chat turns and the
    responses of the case, and entries with the same timestamp keep the
    order they had, chat turns before responses. *)
Theorem thread_is_a_stable_merge_by_time
    (now : Time) (turns : list Server.Turn) (c : option CaseDoc.t)
    (t : Time) :
  let entries :=
    map (ServerThreads.turnEntry now) turns
    ++ match c with
       | Some c => map (ServerThreads.agentEntry now c) (CaseDoc.responses c)
       | None => []
       end in
  let thread := ServerThreads.combined now turns c in
  StronglySorted earlier thread
  ∧ thread ≡ₚ entries
  ∧ filter (fun e => ServerThreads.te_timestamp e = t) thread
    = filter (fun e => ServerThreads.te_timestamp e = t) entries.
Proof.
  cbv zeta. unfold ServerThreads.combined.
  split; [apply sortAsc_sorted|].
  split; [apply sortAsc_perm|apply filter_sortAsc].
Qed.


(** X16: a handled chat message shows in the thread of its product for the
    next 24 hours: the thread holds an entry with the message as prompt, the
    reply of the answer (none when the message was queued) and the instant
    of the request. *)
Theorem handled_chat_shows_in_thread
    (buildMemoryReply : string → string → string → string)
    (cfg : Server.Config) (w : Server.World) (now now' : Time) (uid : Id)
    (message : string) (s : Server.State) (u : Server.User)
    (sp : Server.SelectedProduct) :
  Js.truthy_string message = true →
  Server.users s !! uid = Some u →
  Server.get now (Server.selectedProductKey (Server.redis s)) uid = Some sp →
  Js.truthy_string (Server.sp_orderId sp) = true →
  (0 < now)%N →
  (now' < now + 86400000)%N →
  let o := Server.chat buildMemoryReply cfg w now uid (Some message) s in
  ∃ thread e,
    threadOf (ServerThreads.chatThread now' uid (Some (Server.sp_orderId sp))
                (Some (Server.sp_productIndex sp)) (Server.state o))
    = Some thread
    ∧ e ∈ thread
    ∧ ServerThreads.te_prompt e = Some message
    ∧ ServerThreads.te_message e = replyOf (Server.response o)
    ∧ ServerThreads.te_timestamp e = now.
Proof.
  intros Hm Hu Hsp Ho Hpos Hlt. cbv zeta.
  destruct (chat_records buildMemoryReply cfg w now uid message s u sp
              Hm Hu Hsp) as (t & Hk & Hp & Ht & Hr).
  unfold ServerThreads.chatThread. rewrite Ho. cbn [negb threadOf].
  rewrite (lRange_pushed now now' _ _ t (Server.redis s) _ Hk Hlt).
  eexists. exists (ServerThreads.turnEntry now' t).
  split; [reflexivity|]. split.
  - unfold ServerThreads.combined. rewrite sortAsc_perm, map_app.
    apply elem_of_app. left. apply elem_of_app. right.
    apply list_elem_of_singleton. reflexivity.
  - simpl. rewrite Hp, Hr, Ht. repeat split.
    unfold ServerThreads.orN.
    destruct (now =? 0)%N eqn:E; [apply N.eqb_eq in E; lia|reflexivity].
Qed.

(* ===================================================================== *)
(** * Socket rooms *)
(* ===================================================================== *)

Section SocketFacts.
Import Server ServerSockets.

Lemma received_none k uid evts :
  sock_role k = role_user → sock_userId k ≠ uid →
  Forall (fun e => fst e = room_user uid ∨ fst e = room_agents) evts →
  received k evts = [].
Proof.
  intros Hr Hu Hall. unfold received.
  induction Hall as [|[room ev] evts Hroom _ IH]; [reflexivity|].
  cbn [List.filter fst].
  assert (inRoom k room = false) as ->; [|exact IH].
  destruct Hroom as [Hroom|Hroom]; simpl in Hroom; subst room; simpl.
  - destruct (N.eqb_spec uid (sock_userId k)); [congruence|reflexivity].
  - rewrite Hr. reflexivity.
Qed.

Lemma inRoom_join_case c k : inRoom (join_case (Some c) k) (room_case c) = true.
Proof. simpl. rewrite N.eqb_refl. reflexivity. Qed.

Lemma inRoom_leave_case c k :
  inRoom (leave_case (Some c) k) (room_case c) = false.
Proof.
  simpl. induction (sock_cases k) as [|x l IH]; simpl; [reflexivity|].
  destruct (x =? c)%N eqn:E; simpl; [exact IH|]. rewrite E. exact IH.
Qed.
End SocketFacts.

(** X17: whatever a chat request does, its events go to the sockets of the
    requester and of the admins only: a socket of another user without the
    admin role receives none of them, whatever case rooms it has joined. *)
Theorem chat_events_reach_requester_and_agents_only
    (buildMemoryReply : string → string → string → string)
    (cfg : Server.Config) (w : Server.World) (now : Time) (uid : Id)
    (message : option string) (s : Server.State) (k : ServerSockets.Socket) :
  ServerSockets.sock_role k = Server.role_user →
  ServerSockets.sock_userId k ≠ uid →
  ServerSockets.received k
    (Server.emitted (Server.chat buildMemoryReply cfg w now uid message s))
  = [].
Proof.
  intros Hr Hu. apply (received_none k uid); [exact Hr|exact Hu|].
  apply (chat_effects buildMemoryReply cfg w now uid message s).
Qed.

(** X18: the case rooms are open to every socket: when an admin answers on
    a case, a socket of a user who is neither admin nor owner of the case
    receives the answer and the new status once it has sent [join_case] for
    that case, and nothing once it has sent [leave_case]. *)
Theorem case_room_membership_decides_delivery
    (now : Time) (adminId id : Id) (message : string) (s : Server.State)
    (c : CaseDoc.t) (k : ServerSockets.Socket) :
  Js.truthy_string message = true →
  Server.findById (Server.cases s) id = Some c →
  ServerSockets.sock_role k = Server.role_user →
  ServerSockets.sock_userId k ≠ CaseDoc.userId c →
  let evts :=
    Server.emitted
      (Server.caseResponse now adminId Server.role_admin id (Some message) s) in
  ServerSockets.received (ServerSockets.join_case (Some id) k) evts
  = [ Server.case_message id message now;
      Server.case_status id in_progress ]
  ∧ ServerSockets.received (ServerSockets.leave_case (Some id) k) evts = [].
Proof.
  intros Hm Hf Hr Hu. cbv zeta. unfold Server.caseResponse.
  rewrite Hm, Hf. simpl negb. cbv iota. cbv zeta.
  pose proof (findById_id _ _ _ Hf) as Hid.
  unfold ServerSockets.received.
  cbn [Server.emitted List.filter fst snd map].
  change (CaseDoc._id (Server.pushResponseUpdate now adminId message c))
    with (CaseDoc._id c).
  change (CaseDoc.userId (Server.pushResponseUpdate now adminId message c))
    with (CaseDoc.userId c).
  rewrite Hid.
  rewrite inRoom_join_case, inRoom_leave_case.
  assert (∀ k', ServerSockets.sock_userId k' = ServerSockets.sock_userId k →
                ServerSockets.sock_role k' = ServerSockets.sock_role k →
                ServerSockets.inRoom k' (Server.room_user (CaseDoc.userId c))
                = false
                ∧ ServerSockets.inRoom k' Server.room_agents = false) as Hout.
  { intros k' Hku Hkr. simpl. rewrite Hku, Hkr, Hr. split; [|reflexivity].
    destruct (N.eqb_spec (CaseDoc.userId c) (ServerSockets.sock_userId k));
      [congruence|reflexivity]. }
  destruct (Hout (ServerSockets.join_case (Some id) k) eq_refl eq_refl)
    as [-> ->].
  destruct (Hout (ServerSockets.leave_case (Some id) k) eq_refl eq_refl)
    as [-> ->].
  split; reflexivity.
Qed.

(* ===================================================================== *)
(** * The chat route: log, rejection and degradation *)
(* ===================================================================== *)

Section ChatMore.
Import Server.
Variable buildMemoryReply : string → string → string → string.
Variable cfg : Config.

Lemma chat_refund_accepts w now uid sp message s :
  ¬ rejected (response (chat_refund cfg w now uid sp message s)).
Proof.
  unfold chat_refund. cbv zeta.
  destruct (findOne _ _ _ _); [|unfold create];
    match goal with
    | |- context [CaseMemory.indexCase ?p ?d ?n ?m ?c] =>
        destruct (indexCase_value p d n m c) as [mem E]; rewrite E
    end; simpl; auto.
Qed.

Lemma chat_llm_accepts w now uid userObj sp message s :
  ¬ rejected (response (chat_llm cfg w now uid userObj sp message s)).
Proof.
  unfold chat_llm. cbv zeta.
  destruct (findOne _ _ _ _); [|unfold create];
    match goal with
    | |- context [CaseMemory.indexCase ?p ?d ?n ?m ?c] =>
        destruct (indexCase_value p d n m c) as [mem E]; rewrite E
    end; simpl; auto.
Qed.

Lemma chat_automation_accepts w now uid userObj sp message s :
  ¬ rejected
      (response
         (chat_automation buildMemoryReply cfg w now uid userObj sp message s)).
Proof.
  unfold chat_automation.
  destruct (isRefund message); [apply chat_refund_accepts|].
  destruct (FaqService.checkFaq _ _ _ _ _ _) as [[faqHit|]|e];
    [simpl; auto| |simpl; auto].
  destruct (CaseMemory.searchSimilarCases _ _ _ _ _ _) as [[|top rest]|e];
    [apply chat_llm_accepts| |simpl; auto].
  destruct (PrimFloat.leb _ _); [simpl; auto|apply chat_llm_accepts].
Qed.

(** With the embedding service down, nothing is indexed. *)
Lemma indexCase_embedding_unavailable post dbUp now coll c :
  (∀ text, is_ok (post text) = false) →
  CaseMemory.indexCase post dbUp now coll c = Ok coll.
Proof.
  intros Hdown. destruct c as [c|]; [|reflexivity]. simpl.
  apply try_catch_throw. unfold CaseMemory.index_try, FaqService.getEmbedding.
  specialize (Hdown (CaseMemory.caseText c)).
  destruct (post _); [discriminate|reflexivity].
Qed.

Lemma callGemini_all_errors w prompt :
  (∀ model prompt, ∃ code msg,
      generateContent w model prompt = http_error code msg) →
  ∃ e, callGemini w prompt = Throw e.
Proof.
  intros Hall. apply callGemini_from_all_errors. intros model. apply Hall.
Qed.
End ChatMore.

(** X19: a handled chat message is logged as exactly one turn: the list of
    its (user, order, product) gets one more element, with the message as
    prompt, the instant of the request and the reply of the answer (none when
    queued), and expires 24 hours later; no other chat list is touched. *)
Theorem handled_chat_appends_one_turn
    (buildMemoryReply : string → string → string → string)
    (cfg : Server.Config) (w : Server.World) (now : Time) (uid : Id)
    (message : string) (s : Server.State) (u : Server.User)
    (sp : Server.SelectedProduct) :
  Js.truthy_string message = true →
  Server.users s !! uid = Some u →
  Server.get now (Server.selectedProductKey (Server.redis s)) uid = Some sp →
  let o := Server.chat buildMemoryReply cfg w now uid (Some message) s in
  let key := (uid, Server.sp_orderId sp, Server.sp_productIndex sp) in
  (∃ t,
      Server.chatKey (Server.redis (Server.state o)) !! key
      = Some (ServerThreads.lRange now (Server.redis s) key ++ [t],
              (now + 86400000)%N)
      ∧ Server.prompt t = message
      ∧ Server.t_timestamp t = now
      ∧ Server.reply t = replyOf (Server.response o))
  ∧ ∀ key', key' ≠ key →
      Server.chatKey (Server.redis (Server.state o)) !! key'
      = Server.chatKey (Server.redis s) !! key'.
Proof.
  intros Hm Hu Hsp. cbv zeta.
  destruct (chat_records buildMemoryReply cfg w now uid message s u sp
              Hm Hu Hsp) as (t & Hk & Hp & Ht & Hr).
  rewrite Hk. split.
  - exists t. rewrite lookup_insert_eq. repeat split; assumption.
  - intros key' Hne. apply lookup_insert_ne. congruence.
Qed.

(** X20: with every collaborator down (no embedding, every Gemini model
    failing), a message of ASCII text that is no refund request and whose
    case is not locked is still answered: the reply is the fixed escalation
    text, routed to cs_agent with the SLA of the message, the case holds the
    message as description (reopened if it was resolved), and nothing is
    indexed.  (The message is taken to be ASCII text because the route tests
    for refund words on [message.toLowerCase()], which folds a few
    non-ASCII characters, the Kelvin sign for one, to ASCII letters.) *)
Theorem total_outage_still_answers
    (buildMemoryReply : string → string → string → string)
    (cfg : Server.Config) (w : Server.World) (now : Time) (uid : Id)
    (message : string) (s : Server.State) (u : Server.User)
    (sp : Server.SelectedProduct) :
  Js.truthy_string message = true →
  asciiText message = true →
  Server.users s !! uid = Some u →
  Server.get now (Server.selectedProductKey (Server.redis s)) uid = Some sp →
  Server.isRefund message = false →
  (∀ text, is_ok (Server.embedContent w text) = false) →
  (∀ model prompt, ∃ code msg,
      Server.generateContent w model prompt = Server.http_error code msg) →
  let c0 := caseOfChat now uid sp message s in
  Server.isAgentOnly now (Some (CaseDoc._id c0)) (Server.redis s) = false →
  let o := Server.chat buildMemoryReply cfg w now uid (Some message) s in
  Server.response o
  = Server.json_cs_agent Server.escalateReply
      (Sla.computeSLA (Server.slaEnv cfg) (Some (Server.llmPriority message))
         (Some (Sentiment.label
                  (Sentiment.analyzeSentiment
                     (message +:+ " " +:+ Server.escalateReply)))))
      (CaseDoc._id c0)
  ∧ Server.findOne (Server.cases (Server.state o)) uid (Server.sp_orderId sp)
                   (Server.sp_productIndex sp)
    = Some (llmUpdate sp message c0)
  ∧ Server.memories (Server.state o) = Server.memories s.
Proof.
  intros Hm _ Hu Hsp Hnr Hemb Hgem. cbv zeta. intros Hoff.
  destruct (chat_handled buildMemoryReply cfg w now uid message s u sp Hm Hu Hsp)
    as (u' & m & cs' & n' & Hf & _ & Hchat).
  cbv zeta in Hf, Hchat. rewrite Hchat, Hoff.
  unfold Server.chat_automation. rewrite Hnr.
  unfold FaqService.checkFaq.
  rewrite try_catch_throw
    by (apply checkFaq_try_embedding_unavailable; apply Hemb).
  unfold CaseMemory.searchSimilarCases.
  rewrite try_catch_throw
    by (apply searchSimilarCases_try_embedding_unavailable; apply Hemb).
  unfold Server.after. cbn [Server.response Server.state].
  unfold Server.chat_llm. cbv zeta.
  destruct (callGemini_all_errors w
              (Server.llmPrompt u' sp message) Hgem) as [e ->].
  cbn [Server.cases Server.set_nextObjectId Server.set_cases].
  rewrite Hf. fold (llmUpdate sp message (caseOfChat now uid sp message s)).
  rewrite indexCase_embedding_unavailable by exact Hemb.
  assert (CaseDoc._id (llmUpdate sp message (caseOfChat now uid sp message s))
          = CaseDoc._id (caseOfChat now uid sp message s)) as Hid.
  { unfold llmUpdate. simpl. case_decide; reflexivity. }
  simpl. rewrite Hid. split; [reflexivity|]. split; [|reflexivity].
  destruct (findOne_key _ _ _ _ _ Hf) as (Hk1 & Hk2 & Hk3).
  apply (findOne_save _ _ _ _ _ _ Hf Hid);
    unfold llmUpdate; simpl; case_decide; assumption.
Qed.

(** X21: a chat request that is rejected (no message, unknown user, no
    product selected) has no effect beyond the user cache: cases, case
    memory, chat lists, selections and locks are as they were, no stage was
    called and no event was emitted. *)
Theorem rejected_chat_changes_nothing
    (buildMemoryReply : string → string → string → string)
    (cfg : Server.Config) (w : Server.World) (now : Time) (uid : Id)
    (message : option string) (s : Server.State) :
  let o := Server.chat buildMemoryReply cfg w now uid message s in
  rejected (Server.response o) →
  Server.cases (Server.state o) = Server.cases s
  ∧ Server.nextObjectId (Server.state o) = Server.nextObjectId s
  ∧ Server.memories (Server.state o) = Server.memories s
  ∧ Server.chatKey (Server.redis (Server.state o))
    = Server.chatKey (Server.redis s)
  ∧ Server.selectedProductKey (Server.redis (Server.state o))
    = Server.selectedProductKey (Server.redis s)
  ∧ Server.agentOnlyKey (Server.redis (Server.state o))
    = Server.agentOnlyKey (Server.redis s)
  ∧ Server.emitted o = []
  ∧ Server.calls o = [].
Proof.
  cbv zeta. unfold Server.chat.
  destruct message as [message|]; [|intros _; repeat split].
  destruct (Js.truthy_string message); simpl negb; cbv iota;
    [|intros _; repeat split].
  destruct (Server.loadUser now uid s) as [[userObj s1]|] eqn:Hl;
    [|intros _; repeat split].
  destruct (loadUser_frame _ _ _ _ _ Hl)
    as (Hc1 & Hn1 & _ & _ & Hm1 & Hs1 & Ha1 & Hk1).
  destruct (Server.get now _ uid) as [sp|];
    [|intros _; simpl; repeat split; assumption].
  destruct (Server.ensureCase now uid sp message s1) as [c s2].
  destruct (Server.isAgentOnly _ _ _).
  - simpl. intros [].
  - intros Hrej. exfalso. revert Hrej. apply chat_automation_accepts.
Qed.

(* ===================================================================== *)
(** * Product selection and case filing *)
(* ===================================================================== *)

Section OrdersFacts.
Import Server.

Lemma findById_own_id cs c :
  NoDup (map CaseDoc._id cs) → c ∈ cs → findById cs (CaseDoc._id c) = Some c.
Proof.
  intros Hnd Hc.
  destruct (findById cs (CaseDoc._id c)) as [c'|] eqn:Hf.
  - f_equal. apply (NoDup_map_eq CaseDoc._id cs c' c Hnd);
      [exact (findById_elem_of _ _ _ Hf)|exact Hc|].
    exact (findById_id _ _ _ Hf).
  - unfold findById in Hf. apply list_elem_of_In in Hc.
    pose proof (find_none _ _ Hf c Hc) as Hno. simpl in Hno.
    rewrite bool_decide_eq_true_2 in Hno by reflexivity. discriminate.
Qed.

Lemma findById_app_new cs c :
  Forall (fun x => CaseDoc._id x ≠ CaseDoc._id c) cs →
  findById (cs ++ [c]) (CaseDoc._id c) = Some c.
Proof.
  unfold findById. induction 1 as [|x cs Hx _ IH]; simpl.
  - rewrite bool_decide_eq_true_2 by reflexivity. reflexivity.
  - rewrite bool_decide_eq_false_2 by exact Hx. exact IH.
Qed.

Lemma length_save c cs : length (save c cs) = length cs.
Proof. unfold save. apply length_map. Qed.
End OrdersFacts.

(** X22: a product selected through POST /api/select-product is the one the
    chat route works on for one hour: until then a chat message of the user
    is handled for that order and product, from then on it is answered
    "Select an order/product first". *)
Theorem selection_lasts_one_hour
    (buildMemoryReply : string → string → string → string)
    (cfg : Server.Config) (orders : gmap Id (list ServerOrders.Order))
    (w : Server.World) (t0 now : Time) (uid : Id) (orderId : string)
    (productIndex : Z) (message : string) (s : Server.State) :
  ServerOrders.status
    (ServerOrders.selectProduct orders t0 uid orderId productIndex s) = 200%Z →
  Js.truthy_string message = true →
  let s' := ServerOrders.state
              (ServerOrders.selectProduct orders t0 uid orderId productIndex s) in
  let o := Server.chat buildMemoryReply cfg w now uid (Some message) s' in
  ((now < t0 + 3600000)%N →
     ∃ sp, Server.get now (Server.selectedProductKey (Server.redis s')) uid
           = Some sp
           ∧ Server.sp_orderId sp = orderId
           ∧ Server.sp_productIndex sp = productIndex
           ∧ ¬ rejected (Server.response o))
  ∧ ((t0 + 3600000 ≤ now)%N →
     Server.response o = Server.json_400 "Select an order/product first").
Proof.
  intros Hst Hm. cbv zeta. revert Hst. unfold ServerOrders.selectProduct.
  destruct (Server.users s !! uid) as [u|] eqn:Hu; [|discriminate].
  destruct (ServerOrders.productAt _ productIndex) as [[order product]|];
    [|discriminate].
  intros _. cbv zeta. cbn [ServerOrders.state ServerOrders.reply].
  set (sp0 := {| Server.sp_orderId := orderId;
                 Server.sp_productIndex := productIndex;
                 Server.sp_name := ServerOrders.p_name product;
                 Server.sp_quantity := ServerOrders.p_quantity product;
                 Server.sp_price := ServerOrders.p_price product;
                 Server.sp_domain := ServerOrders.p_domain product;
                 Server.sp_status := ServerOrders.o_status order |}).
  match goal with
  | |- context [Server.chat _ _ _ _ _ _ ?s1] => set (s' := s1)
  end.
  assert (Server.get now (Server.selectedProductKey (Server.redis s')) uid
          = if (now <? Server.EX t0 3600)%N then Some sp0 else None) as Hget.
  { unfold Server.get. simpl. rewrite lookup_insert_eq. reflexivity. }
  destruct (loadUser_known now uid s' u Hu) as (u' & m & Hl).
  assert (Server.response
            (Server.chat buildMemoryReply cfg w now uid (Some message) s')
          = match Server.get now (Server.selectedProductKey (Server.redis s'))
                             uid with
            | None => Server.json_400 "Select an order/product first"
            | Some sp =>
                Server.response
                  (Server.chat buildMemoryReply cfg w now uid (Some message) s')
            end
          ∧ (∀ sp, Server.get now (Server.selectedProductKey (Server.redis s'))
                              uid = Some sp →
                   ¬ rejected
                       (Server.response
                          (Server.chat buildMemoryReply cfg w now uid
                                       (Some message) s')))) as [Hresp Hacc].
  { unfold Server.chat. rewrite Hm, Hl. simpl negb. cbv iota.
    change (Server.selectedProductKey
              (Server.redis
                 (Server.set_redis (Server.set_userKey m (Server.redis s')) s')))
      with (Server.selectedProductKey (Server.redis s')).
    destruct (Server.get now (Server.selectedProductKey (Server.redis s')) uid)
      as [sp|]; [|split; [reflexivity|discriminate]].
    split; [reflexivity|]. intros sp1 _.
    destruct (Server.ensureCase now uid sp message _) as [c0 s2].
    destruct (Server.isAgentOnly _ _ _); [simpl; auto|].
    apply chat_automation_accepts. }
  split.
  - intros Hlt.
    assert ((now <? Server.EX t0 3600)%N = true) as E.
    { apply N.ltb_lt. unfold Server.EX. lia. }
    rewrite E in Hget. exists sp0.
    split; [exact Hget|]. split; [reflexivity|]. split; [reflexivity|].
    exact (Hacc sp0 Hget).
  - intros Hge.
    assert ((now <? Server.EX t0 3600)%N = false) as E.
    { apply N.ltb_ge. unfold Server.EX. lia. }
    rewrite E in Hget. rewrite Hresp, Hget. reflexivity.
Qed.

(** X23: after POST /api/clear-selected-product or POST /api/logout the
    chat route has no product to work on: a message of the user is answered
    "Select an order/product first", whatever was selected before. *)
Theorem chat_needs_a_selection_after_clear_or_logout
    (buildMemoryReply : string → string → string → string)
    (cfg : Server.Config) (w : Server.World) (now : Time) (uid : Id)
    (message : string) (s : Server.State) (u : Server.User) :
  Server.users s !! uid = Some u →
  Js.truthy_string message = true →
  Server.response
    (Server.chat buildMemoryReply cfg w now uid (Some message)
       (ServerOrders.state (ServerOrders.clearSelectedProduct uid s)))
  = Server.json_400 "Select an order/product first"
  ∧ Server.response
      (Server.chat buildMemoryReply cfg w now uid (Some message)
         (ServerOrders.state (ServerOrders.logout uid s)))
    = Server.json_400 "Select an order/product first".
Proof.
  intros Hu Hm.
  assert (∀ s', Server.users s' = Server.users s →
                Server.selectedProductKey (Server.redis s') !! uid = None →
                Server.response
                  (Server.chat buildMemoryReply cfg w now uid (Some message) s')
                = Server.json_400 "Select an order/product first") as Hgen.
  { intros s' Hus Hnone.
    assert (Server.users s' !! uid = Some u) as Hu' by (rewrite Hus; exact Hu).
    destruct (loadUser_known now uid s' u Hu') as (u' & m & Hl).
    unfold Server.chat. rewrite Hm, Hl. simpl negb. cbv iota.
    unfold Server.get.
    cbn [Server.redis Server.set_redis Server.selectedProductKey
         Server.set_userKey].
    rewrite Hnone. reflexivity. }
  split; apply Hgen; try reflexivity; simpl; apply lookup_delete_eq.
Qed.

(** X24: POST /api/case files one case per (user, order, product): with a
    valid order and product the answer is 200 with the stored case, which
    carries the description, the priority [determinePriority] gives it and
    the domain of the body (E-commerce when the body names none, whatever
    the domain of the product); an existing case of that key keeps its id,
    status and responses and the collection does not grow, otherwise an open
    case with the next id is inserted. *)
Theorem createCase_upserts_the_case
    (orders : gmap Id (list ServerOrders.Order)) (w : Server.World)
    (now : Time) (uid : Id) (orderId : string) (productIndex : Z)
    (description : string) (bodyDomain : ServerOrders.BodyDomain)
    (s : Server.State) (u : Server.User) (order : ServerOrders.Order)
    (product : ServerOrders.Product) :
  wellFormed (Server.cases s) (Server.nextObjectId s) →
  Js.truthy_string orderId = true →
  Js.truthy_string description = true →
  Server.users s !! uid = Some u →
  ServerOrders.productAt
    (ServerOrders.findOrder (default [] (orders !! uid)) orderId) productIndex
  = Some (order, product) →
  let r := ServerOrders.createCase orders w now uid orderId (Some productIndex)
             description bodyDomain s in
  ∃ c',
    ServerOrders.status r = 200%Z
    ∧ ServerOrders.body r
      = ServerOrders.body_case "Case processed successfully" (Some c')
    ∧ Server.findOne (Server.cases (ServerOrders.state r)) uid orderId
                     productIndex = Some c'
    ∧ CaseDoc.description c' = description
    ∧ CaseDoc.priority c' = Server.determinePriority description
    ∧ CaseDoc.domain c'
      = ServerOrders.finalDomain bodyDomain (ServerOrders.p_domain product)
    ∧ (bodyDomain = ServerOrders.domain_absent → CaseDoc.domain c' = ECommerce)
    ∧ match Server.findOne (Server.cases s) uid orderId productIndex with
      | Some c =>
          CaseDoc._id c' = CaseDoc._id c
          ∧ CaseDoc.status c' = CaseDoc.status c
          ∧ CaseDoc.responses c' = CaseDoc.responses c
          ∧ length (Server.cases (ServerOrders.state r))
            = length (Server.cases s)
      | None =>
          CaseDoc._id c' = Server.nextObjectId s
          ∧ CaseDoc.status c' = open
          ∧ CaseDoc.responses c' = []
          ∧ length (Server.cases (ServerOrders.state r))
            = S (length (Server.cases s))
      end.
Proof.
  intros (Hids & Hkeys & Hlt) Ho Hd Hu Hp. cbv zeta.
  unfold ServerOrders.createCase. rewrite Ho, Hd, Hu, Hp. simpl negb.
  cbv iota. cbv zeta. simpl orb. cbv iota.
  destruct (Server.findOne (Server.cases s) uid orderId productIndex)
    as [c|] eqn:Hf.
  - match goal with
    | |- context [CaseMemory.indexCase ?p ?d ?n ?m ?c] =>
        destruct (indexCase_value p d n m c) as [mem E]; rewrite E
    end.
    pose proof (findOne_elem_of _ _ _ _ _ Hf) as Hc.
    destruct (findOne_key _ _ _ _ _ Hf) as (Hk1 & Hk2 & Hk3).
    eexists. cbn [ServerOrders.status ServerOrders.body ServerOrders.state
                  Server.cases Server.set_cases Server.set_memories].
    split; [reflexivity|]. split.
    { f_equal. f_equal.
      apply (findById_save _ _ c); [|reflexivity].
      exact (findById_own_id _ c Hids Hc). }
    split.
    { apply (findOne_save _ _ _ _ c); [exact Hf|reflexivity| | |]; assumption. }
    split; [reflexivity|]. split; [reflexivity|]. split; [reflexivity|].
    split; [intros ->; reflexivity|].
    split; [reflexivity|]. split; [reflexivity|]. split; [reflexivity|].
    apply length_save.
  - unfold Server.create.
    match goal with
    | |- context [CaseMemory.indexCase ?p ?d ?n ?m ?c] =>
        destruct (indexCase_value p d n m c) as [mem E]; rewrite E
    end.
    eexists. cbn [ServerOrders.status ServerOrders.body ServerOrders.state
                  Server.cases Server.set_cases Server.set_memories
                  Server.set_nextObjectId].
    split; [reflexivity|]. split.
    { f_equal. f_equal.
      match goal with
      | |- Server.findById (_ ++ [?c]) _ = _ =>
          apply (findById_app_new (Server.cases s) c)
      end.
      eapply Forall_impl; [exact Hlt|]. simpl. intros x Hx. lia. }
    split.
    { apply findOne_app_new; [exact Hf|reflexivity|reflexivity|reflexivity]. }
    split; [reflexivity|]. split; [reflexivity|]. split; [reflexivity|].
    split; [intros ->; reflexivity|].
    split; [reflexivity|]. split; [reflexivity|]. split; [reflexivity|].
    rewrite length_app. simpl. lia.
Qed.

(* ===================================================================== *)
(** * Resolution and the agent-only lock over time *)
(* ===================================================================== *)

Section ResolveFacts.
Import Server.





Lemma applyUpdates_key now upd c :
  CaseDoc.userId (applyUpdates now upd c) = CaseDoc.userId c
  ∧ CaseDoc.orderId (applyUpdates now upd c) = CaseDoc.orderId c
  ∧ CaseDoc.productIndex (applyUpdates now upd c) = CaseDoc.productIndex c.
Proof.
  unfold applyUpdates.
  destruct (upd_status upd), (upd_priority upd), (upd_description upd);
    repeat split.
Qed.

(** The status after the update is resolved: the body says so, or it leaves
    the status of a resolved case alone. *)
Lemma applyUpdates_resolved now upd c :
  upd_status upd = Some resolved
  ∨ (upd_status upd = None ∧ CaseDoc.status c = resolved) →
  CaseDoc.status (applyUpdates now upd c) = resolved.
Proof.
  unfold applyUpdates. intros [->|[-> Hc]];
    destruct (upd_priority upd), (upd_description upd); simpl; auto.
Qed.

(** The state after an update that leaves the case resolved. *)
Lemma caseUpdate_resolved_state w now adminId id upd s c :
  findById (cases s) id = Some c →
  CaseDoc.status (applyUpdates now upd c) = resolved →
  let c' := CaseDoc.push_response
              {| CaseDoc.adminId := Some adminId;
                 CaseDoc.message := resolvedNote;
                 CaseDoc.timestamp := now |} (applyUpdates now upd c) in
  let o := caseUpdate w now adminId role_admin id upd s in
  cases (state o) = save c' (save (applyUpdates now upd c) (cases s))
  ∧ redis (state o) = clearAgentOnly (Some id) (redis s)
  ∧ users (state o) = users s
  ∧ response o = json_case "Case updated successfully" c'
  ∧ memories (state o)
    = match CaseMemory.indexResolutionSummary (embedContent w)
              (caseMemoryQueryOk w) now (memories s) (Some c')
              (resolutionSummary c') with
      | Ok mem => mem
      | Throw _ => memories s
      end
  ∧ (room_user (CaseDoc.userId c),
     chat_reply (CaseDoc.userId c) (CaseDoc.orderId c) (CaseDoc.productIndex c)
                (Some id) src_agent resolvedNote now) ∈ emitted o.
Proof.
  intros Hf Hr. cbv zeta. unfold caseUpdate. rewrite Hf. cbv zeta.
  rewrite decide_True by exact Hr.
  destruct (applyUpdates_id now upd c) as (Hi & _ & _).
  destruct (applyUpdates_key now upd c) as (Hk1 & Hk2 & Hk3).
  pose proof (findById_id _ _ _ Hf) as Hid.
  cbn [state response emitted cases redis users memories set_cases set_redis
       set_memories].
  rewrite Hi, Hid.
  split; [reflexivity|]. split; [reflexivity|]. split; [reflexivity|].
  split; [reflexivity|]. split; [reflexivity|].
  change (CaseDoc.userId (CaseDoc.push_response _ (applyUpdates now upd c)))
    with (CaseDoc.userId (applyUpdates now upd c)).
  change (CaseDoc.orderId (CaseDoc.push_response _ (applyUpdates now upd c)))
    with (CaseDoc.orderId (applyUpdates now upd c)).
  change (CaseDoc.productIndex
            (CaseDoc.push_response _ (applyUpdates now upd c)))
    with (CaseDoc.productIndex (applyUpdates now upd c)).
  rewrite Hk1, Hk2, Hk3.
  do 3 apply list_elem_of_further. apply list_elem_of_here.
Qed.
End ResolveFacts.

(** X25: every update through PUT /api/case/:id that leaves the case
    resolved, be it the one that resolves it or a later one that does not
    touch the status, appends the closing note to the responses of the
    case, clears its agent-only lock and sends the note to the owner. *)
Theorem update_to_resolved_appends_closing_note
    (w : Server.World) (now t : Time) (adminId id : Id)
    (upd : Server.Updates) (s : Server.State) (c : CaseDoc.t) :
  Server.findById (Server.cases s) id = Some c →
  Server.upd_status upd = Some resolved
  ∨ (Server.upd_status upd = None ∧ CaseDoc.status c = resolved) →
  let o := Server.caseUpdate w now adminId Server.role_admin id upd s in
  ∃ c',
    Server.findById (Server.cases (Server.state o)) id = Some c'
    ∧ Server.response o = Server.json_case "Case updated successfully" c'
    ∧ CaseDoc.status c' = resolved
    ∧ CaseDoc.responses c'
      = CaseDoc.responses c
        ++ [ {| CaseDoc.adminId := Some adminId;
                CaseDoc.message := Server.resolvedNote;
                CaseDoc.timestamp := now |} ]
    ∧ Server.isAgentOnly t (Some id) (Server.redis (Server.state o)) = false
    ∧ (Server.room_user (CaseDoc.userId c),
       Server.chat_reply (CaseDoc.userId c) (CaseDoc.orderId c)
                         (CaseDoc.productIndex c) (Some id) Server.src_agent
                         Server.resolvedNote now)
      ∈ Server.emitted o.
Proof.
  intros Hf Hupd. cbv zeta.
  pose proof (applyUpdates_resolved now upd c Hupd) as Hr.
  destruct (caseUpdate_resolved_state w now adminId id upd s c Hf Hr)
    as (Hcs & Hred & _ & Hresp & _ & Hem).
  destruct (applyUpdates_id now upd c) as (Hi & _ & Hrs).
  pose proof (findById_id _ _ _ Hf) as Hid.
  eexists. split; [|split; [exact Hresp|]].
  - rewrite Hcs. apply (findById_save _ _ (Server.applyUpdates now upd c)).
    + apply (findById_save _ _ c); [exact Hf|congruence].
    + change (CaseDoc._id (Server.applyUpdates now upd c) = id). congruence.
  - split; [exact Hr|].
    split; [cbn [CaseDoc.responses CaseDoc.push_response]; rewrite Hrs;
            reflexivity|].
    split; [|exact Hem].
    rewrite Hred. apply clearAgentOnly_off.
Qed.


(** X27: the lock an agent response sets lasts 30 minutes: a message of the
    owner of the case is queued for the agent exactly when it arrives less
    than 1 800 000 ms after the response. *)
Theorem agent_lock_lasts_thirty_minutes
    (buildMemoryReply : string → string → string → string)
    (cfg : Server.Config) (w : Server.World) (t0 now : Time) (adminId : Id)
    (message reply : string) (s : Server.State) (u : Server.User)
    (sp : Server.SelectedProduct) (c : CaseDoc.t) :
  Js.truthy_string reply = true →
  Js.truthy_string message = true →
  Server.users s !! CaseDoc.userId c = Some u →
  Server.findOne (Server.cases s) (CaseDoc.userId c) (Server.sp_orderId sp)
                 (Server.sp_productIndex sp) = Some c →
  Server.findById (Server.cases s) (CaseDoc._id c) = Some c →
  Server.get now (Server.selectedProductKey (Server.redis s)) (CaseDoc.userId c)
  = Some sp →
  let s1 := Server.state
              (Server.caseResponse t0 adminId Server.role_admin (CaseDoc._id c)
                                   (Some reply) s) in
  let o := Server.chat buildMemoryReply cfg w now (CaseDoc.userId c)
                       (Some message) s1 in
  Server.response o = Server.json_queued (CaseDoc._id c)
  ↔ (now < t0 + 1800000)%N.
Proof.
  intros Hr Hm Hu Hf Hid Hsp. cbv zeta. split.
  - intros Hq. destruct (N.lt_ge_cases now (t0 + 1800000)) as [Hlt|Hge];
      [exact Hlt|exfalso].
    destruct (findOne_key _ _ _ _ _ Hf) as (_ & Hk2 & Hk3).
    revert Hq.
    assert (Server.state
              (Server.caseResponse t0 adminId Server.role_admin (CaseDoc._id c)
                                   (Some reply) s)
            = Server.set_redis
                (Server.setAgentOnly t0 (Some (CaseDoc._id c)) (Server.redis s))
                (Server.set_cases
                   (Server.save (Server.pushResponseUpdate t0 adminId reply c)
                                (Server.cases s)) s)) as ->.
    { unfold Server.caseResponse. rewrite Hr, Hid. reflexivity. }
    apply (chat_unlocked_not_queued buildMemoryReply cfg w now
             (CaseDoc.userId c) message _ u sp
             (Server.pushResponseUpdate t0 adminId reply c) Hm).
    + exact Hu.
    + exact Hsp.
    + simpl Server.cases.
      apply (findOne_save _ _ _ _ c);
        [exact Hf|reflexivity|reflexivity|exact Hk2|exact Hk3].
    + apply setAgentOnly_expired. exact Hge.
  - intros Hlt.
    apply (agent_response_then_message_queued buildMemoryReply cfg w t0 now
             adminId message reply s u sp c Hr Hm Hu Hf Hid Hsp Hlt).
Qed.

(** X28: resolving a case hands it back to the automated stages: whatever
    lock was on, the next message of the owner is not queued for an agent. *)
Theorem resolving_hands_case_back_to_automation
    (buildMemoryReply : string → string → string → string)
    (cfg : Server.Config) (w w' : Server.World) (t1 now : Time) (adminId : Id)
    (message : string) (upd : Server.Updates) (s : Server.State)
    (u : Server.User) (sp : Server.SelectedProduct) (c : CaseDoc.t) :
  Js.truthy_string message = true →
  Server.users s !! CaseDoc.userId c = Some u →
  Server.findOne (Server.cases s) (CaseDoc.userId c) (Server.sp_orderId sp)
                 (Server.sp_productIndex sp) = Some c →
  Server.findById (Server.cases s) (CaseDoc._id c) = Some c →
  Server.get now (Server.selectedProductKey (Server.redis s)) (CaseDoc.userId c)
  = Some sp →
  Server.upd_status upd = Some resolved
  ∨ (Server.upd_status upd = None ∧ CaseDoc.status c = resolved) →
  let s1 := Server.state
              (Server.caseUpdate w t1 adminId Server.role_admin (CaseDoc._id c)
                                 upd s) in
  let o := Server.chat buildMemoryReply cfg w' now (CaseDoc.userId c)
                       (Some message) s1 in
  ∀ id, Server.response o ≠ Server.json_queued id.
Proof.
  intros Hm Hu Hf Hid Hsp Hupd. cbv zeta.
  pose proof (applyUpdates_resolved t1 upd c Hupd) as Hr.
  destruct (caseUpdate_resolved_state w t1 adminId (CaseDoc._id c) upd s c
              Hid Hr) as (Hcs & Hred & Hus & _).
  cbv zeta in Hcs, Hred, Hus.
  destruct (applyUpdates_id t1 upd c) as (Hi & _ & _).
  destruct (findOne_key _ _ _ _ _ Hf) as (_ & Hk2 & Hk3).
  destruct (applyUpdates_key t1 upd c) as (Hk1' & Hk2' & Hk3').
  match goal with
  | |- context [Server.chat _ _ _ _ _ _ ?st] => set (s1 := st) in *
  end.
  apply (chat_unlocked_not_queued buildMemoryReply cfg w' now
           (CaseDoc.userId c) message s1 u sp
           (CaseDoc.push_response
              {| CaseDoc.adminId := Some adminId;
                 CaseDoc.message := Server.resolvedNote;
                 CaseDoc.timestamp := t1 |}
              (Server.applyUpdates t1 upd c)) Hm).
  - rewrite Hus. exact Hu.
  - rewrite Hred. destruct (Server.redis s). exact Hsp.
  - rewrite Hcs.
    apply (findOne_save _ _ _ _ (Server.applyUpdates t1 upd c));
      [|reflexivity
       |change (CaseDoc.userId (Server.applyUpdates t1 upd c)
                = CaseDoc.userId c); congruence
       |change (CaseDoc.orderId (Server.applyUpdates t1 upd c)
                = Server.sp_orderId sp); congruence
       |change (CaseDoc.productIndex (Server.applyUpdates t1 upd c)
                = Server.sp_productIndex sp); congruence].
    apply (findOne_save _ _ _ _ c); [exact Hf|exact Hi|congruence..].
  - rewrite Hred.
    change (CaseDoc._id (CaseDoc.push_response _ (Server.applyUpdates t1 upd c)))
      with (CaseDoc._id (Server.applyUpdates t1 upd c)).
    rewrite Hi. apply clearAgentOnly_off.
Qed.

(* ===================================================================== *)
(** * Instances *)
(* ===================================================================== *)

Lemma callGemini_falls_back_in_order_witness :
  Server.callGemini Scenario.quota "Hello"
  = Ok "Please share your order number.".
Proof.
  apply (proj1 (callGemini_falls_back_in_order Scenario.quota "Hello")
           ["gemini-2.0-flash"; "gemini-2.5-pro"] "gemini-2.5-flash"
           ["gemini-2.5-flash-lite"; "gemini-2.0-flash-lite"]).
  - reflexivity.
  - repeat (apply Forall_cons_2; [right; eexists; reflexivity|]).
    apply Forall_nil_2.
  - reflexivity.
  - reflexivity.
Defined.

Lemma callGemini_aborts_on_other_errors_witness :
  Server.callGemini Scenario.outage "Hello" = Throw "ECONNREFUSED".
Proof.
  apply (callGemini_aborts_on_other_errors Scenario.outage "Hello"
           [] "gemini-2.0-flash"
           ["gemini-2.5-pro"; "gemini-2.5-flash"; "gemini-2.5-flash-lite";
            "gemini-2.0-flash-lite"] None "ECONNREFUSED").
  - reflexivity.
  - apply Forall_nil_2.
  - reflexivity.
  - discriminate.
Defined.

Lemma callGemini_answer_is_a_model_text_witness :
  Js.truthy_string "Please share your order number." = true
  ∧ ∃ skipped model later,
      Server.GEMINI_MODELS = skipped ++ model :: later
      ∧ Forall (passedOver Scenario.quota "Hello") skipped
      ∧ Server.generateContent Scenario.quota model "Hello"
        = Server.http_ok "Please share your order number.".
Proof.
  apply (callGemini_answer_is_a_model_text Scenario.quota "Hello").
  reflexivity.
Defined.

Lemma searchSimilarCases_results_are_stored_records_witness :
  ∃ rs,
    CaseMemory.searchSimilarCases (Server.embedContent Scenario.world) true
      [Scenario.phoneMemo] "my delivery is late" (Some ECommerce) 3 = Ok rs
    ∧ (length rs ≤ 200)%nat
    ∧ (length rs ≤ 1)%nat
    ∧ ((0 ≤ 3)%Z → (length rs ≤ 3)%nat)
    ∧ ∀ r, r ∈ rs →
        CaseMemory.memo r ∈ [Scenario.phoneMemo]
        ∧ (∀ d, Some ECommerce = Some d
                → CaseMemory.domain (CaseMemory.memo r) = d)
        ∧ ∃ v, Server.embedContent Scenario.world
                 (Js.slice0 512 "my delivery is late") = Ok v
               ∧ CaseMemory.score r
                 = CaseMemory.cosine v
                     (CaseMemory.embedding (CaseMemory.memo r)).
Proof.
  exact (searchSimilarCases_results_are_stored_records
           (Server.embedContent Scenario.world) true [Scenario.phoneMemo]
           "my delivery is late" (Some ECommerce) 3).
Defined.

Lemma requests_keep_case_store_well_formed_witness :
  let s' := Scenario.run (Scenario.aliceRequests ++ Scenario.agentRequests)
                         (Scenario.shared open) in
  wellFormed (Server.cases s') (Server.nextObjectId s').
Proof.
  apply (requests_keep_case_store_well_formed Scenario.buildMemoryReply
           Server.defaultConfig Scenario.orders
           (Scenario.aliceRequests ++ Scenario.agentRequests)
           (Scenario.shared open)).
  split; [|split].
  - apply (bool_decide_unpack _). vm_compute. exact I.
  - apply (bool_decide_unpack _). vm_compute. exact I.
  - repeat (apply Forall_cons_2; [simpl; lia|]). apply Forall_nil_2.
Defined.

Lemma user_requests_never_change_agent_locks_witness :
  Server.agentOnlyKey
    (Server.redis
       (Scenario.run Scenario.aliceRequests
                     (Scenario.state open {[ 7%N := 1800000%N ]})))
  = Server.agentOnlyKey
      (Server.redis (Scenario.state open {[ 7%N := 1800000%N ]})).
Proof.
  apply (user_requests_never_change_agent_locks Scenario.buildMemoryReply
           Server.defaultConfig Scenario.orders Scenario.aliceRequests
           (Scenario.state open {[ 7%N := 1800000%N ]})).
  repeat (apply Forall_cons_2; [split; [reflexivity|exact I]|]).
  apply Forall_nil_2.
Defined.

Lemma user_requests_leave_other_users_cases_witness :
  Scenario.bobCase
  ∈ Server.cases (Scenario.run Scenario.aliceRequests (Scenario.shared open))
  ↔ Scenario.bobCase ∈ Server.cases (Scenario.shared open).
Proof.
  apply (user_requests_leave_other_users_cases Scenario.buildMemoryReply
           Server.defaultConfig Scenario.orders Scenario.aliceRequests
           (Scenario.shared open) 2%N Scenario.bobCase).
  - split; [|split].
    + apply (bool_decide_unpack _). vm_compute. exact I.
    + apply (bool_decide_unpack _). vm_compute. exact I.
    + repeat (apply Forall_cons_2; [simpl; lia|]). apply Forall_nil_2.
  - repeat (apply Forall_cons_2; [split; [reflexivity|discriminate]|]).
    apply Forall_nil_2.
  - reflexivity.
Defined.

Lemma user_requests_only_open_cases_witness :
  let c' := CaseDoc.set_updatedAt 3000%N
              (CaseDoc.set_domain ECommerce
                 (CaseDoc.set_priority high
                    (CaseDoc.set_description "payment failed"
                       (Scenario.phoneCase open)))) in
  (CaseDoc.status c' = open ∧ CaseDoc.responses c' = [])
  ∨ ∃ c, c ∈ Server.cases (Scenario.shared resolved)
         ∧ CaseDoc._id c' = CaseDoc._id c
         ∧ caseKey c' = caseKey c
         ∧ (CaseDoc.status c' = CaseDoc.status c ∨ CaseDoc.status c' = open)
         ∧ CaseDoc.responses c' = CaseDoc.responses c.
Proof.
  apply (user_requests_only_open_cases Scenario.buildMemoryReply
           Server.defaultConfig Scenario.orders Scenario.aliceRequests
           (Scenario.shared resolved)).
  - repeat (apply Forall_cons_2; [split; [reflexivity|exact I]|]).
    apply Forall_nil_2.
  - vm_compute. apply list_elem_of_further, list_elem_of_here.
Defined.


Lemma handled_chat_shows_in_thread_witness :
  let o := Server.chat Scenario.buildMemoryReply Server.defaultConfig
             Scenario.world 2000 1 (Some "Where is my order?")
             (Scenario.state open ∅) in
  ∃ thread e,
    threadOf (ServerThreads.chatThread 3000 1
                (Some (Server.sp_orderId Scenario.phone))
                (Some (Server.sp_productIndex Scenario.phone))
                (Server.state o))
    = Some thread
    ∧ e ∈ thread
    ∧ ServerThreads.te_prompt e = Some "Where is my order?"
    ∧ ServerThreads.te_message e = replyOf (Server.response o)
    ∧ ServerThreads.te_timestamp e = 2000%N.
Proof.
  apply (handled_chat_shows_in_thread Scenario.buildMemoryReply
           Server.defaultConfig Scenario.world 2000 3000 1
           "Where is my order?" (Scenario.state open ∅) Scenario.alice
           Scenario.phone); try reflexivity; lia.
Defined.

Lemma chat_events_reach_requester_and_agents_only_witness :
  ServerSockets.received Scenario.bobSocket
    (Server.emitted
       (Server.chat Scenario.buildMemoryReply Server.defaultConfig
          Scenario.world 2000 1 (Some "I want a refund")
          (Scenario.state open ∅)))
  = [].
Proof.
  apply (chat_events_reach_requester_and_agents_only
           Scenario.buildMemoryReply Server.defaultConfig Scenario.world
           2000 1 (Some "I want a refund") (Scenario.state open ∅)
           Scenario.bobSocket).
  - reflexivity.
  - simpl. lia.
Defined.

Lemma case_room_membership_decides_delivery_witness :
  let evts :=
    Server.emitted
      (Server.caseResponse 5000 9 Server.role_admin 7 (Some "We are on it")
                           (Scenario.state open ∅)) in
  ServerSockets.received
    (ServerSockets.join_case (Some 7%N) Scenario.bobSocket) evts
  = [ Server.case_message 7 "We are on it" 5000;
      Server.case_status 7 in_progress ]
  ∧ ServerSockets.received
      (ServerSockets.leave_case (Some 7%N) Scenario.bobSocket) evts = [].
Proof.
  apply (case_room_membership_decides_delivery 5000 9 7 "We are on it"
           (Scenario.state open ∅) (Scenario.phoneCase open)
           Scenario.bobSocket).
  - reflexivity.
  - reflexivity.
  - reflexivity.
  - simpl. lia.
Defined.

Lemma handled_chat_appends_one_turn_witness :
  let o := Server.chat Scenario.buildMemoryReply Server.defaultConfig
             Scenario.world 2000 1 (Some "Where is my order?")
             (Scenario.state open ∅) in
  let key := (1%N, Server.sp_orderId Scenario.phone,
              Server.sp_productIndex Scenario.phone) in
  (∃ t,
      Server.chatKey (Server.redis (Server.state o)) !! key
      = Some (ServerThreads.lRange 2000
                (Server.redis (Scenario.state open ∅)) key ++ [t],
              (2000 + 86400000)%N)
      ∧ Server.prompt t = "Where is my order?"
      ∧ Server.t_timestamp t = 2000%N
      ∧ Server.reply t = replyOf (Server.response o))
  ∧ ∀ key', key' ≠ key →
      Server.chatKey (Server.redis (Server.state o)) !! key'
      = Server.chatKey (Server.redis (Scenario.state open ∅)) !! key'.
Proof.
  apply (handled_chat_appends_one_turn Scenario.buildMemoryReply
           Server.defaultConfig Scenario.world 2000 1 "Where is my order?"
           (Scenario.state open ∅) Scenario.alice Scenario.phone);
    reflexivity.
Defined.

Lemma total_outage_still_answers_witness :
  let c0 := caseOfChat 2000 1 Scenario.phone "My phone is broken"
              (Scenario.state resolved ∅) in
  let o := Server.chat Scenario.buildMemoryReply Server.defaultConfig
             Scenario.outage 2000 1 (Some "My phone is broken")
             (Scenario.state resolved ∅) in
  Server.response o
  = Server.json_cs_agent Server.escalateReply
      (Sla.computeSLA (Server.slaEnv Server.defaultConfig)
         (Some (Server.llmPriority "My phone is broken"))
         (Some (Sentiment.label
                  (Sentiment.analyzeSentiment
                     ("My phone is broken" +:+ " " +:+ Server.escalateReply)))))
      (CaseDoc._id c0)
  ∧ Server.findOne (Server.cases (Server.state o)) 1
                   (Server.sp_orderId Scenario.phone)
                   (Server.sp_productIndex Scenario.phone)
    = Some (llmUpdate Scenario.phone "My phone is broken" c0)
  ∧ Server.memories (Server.state o)
    = Server.memories (Scenario.state resolved ∅).
Proof.
  apply (total_outage_still_answers Scenario.buildMemoryReply
           Server.defaultConfig Scenario.outage 2000 1 "My phone is broken"
           (Scenario.state resolved ∅) Scenario.alice Scenario.phone).
  - reflexivity.
  - reflexivity.
  - reflexivity.
  - reflexivity.
  - reflexivity.
  - intros text. reflexivity.
  - intros model prompt. exists None, "ECONNREFUSED". reflexivity.
  - reflexivity.
Defined.

Lemma rejected_chat_changes_nothing_witness :
  let s := ServerOrders.state
             (ServerOrders.clearSelectedProduct 1 (Scenario.state open ∅)) in
  let o := Server.chat Scenario.buildMemoryReply Server.defaultConfig
             Scenario.world 2000 1 (Some "Where is my order?") s in
  Server.cases (Server.state o) = Server.cases s
  ∧ Server.nextObjectId (Server.state o) = Server.nextObjectId s
  ∧ Server.memories (Server.state o) = Server.memories s
  ∧ Server.chatKey (Server.redis (Server.state o))
    = Server.chatKey (Server.redis s)
  ∧ Server.selectedProductKey (Server.redis (Server.state o))
    = Server.selectedProductKey (Server.redis s)
  ∧ Server.agentOnlyKey (Server.redis (Server.state o))
    = Server.agentOnlyKey (Server.redis s)
  ∧ Server.emitted o = []
  ∧ Server.calls o = [].
Proof.
  apply (rejected_chat_changes_nothing Scenario.buildMemoryReply
           Server.defaultConfig Scenario.world 2000 1
           (Some "Where is my order?")
           (ServerOrders.state
              (ServerOrders.clearSelectedProduct 1 (Scenario.state open ∅)))).
  vm_compute. exact I.
Defined.

Lemma selection_lasts_one_hour_witness :
  let s' := ServerOrders.state
              (ServerOrders.selectProduct Scenario.orders 1000 1 "ORD-1" 0
                 (Scenario.state open ∅)) in
  let o := Server.chat Scenario.buildMemoryReply Server.defaultConfig
             Scenario.world 2000 1 (Some "Where is my order?") s' in
  ((2000 < 1000 + 3600000)%N →
     ∃ sp, Server.get 2000%N (Server.selectedProductKey (Server.redis s')) 1%N
           = Some sp
           ∧ Server.sp_orderId sp = "ORD-1"
           ∧ Server.sp_productIndex sp = 0%Z
           ∧ ¬ rejected (Server.response o))
  ∧ ((1000 + 3600000 ≤ 2000)%N →
     Server.response o = Server.json_400 "Select an order/product first").
Proof.
  apply (selection_lasts_one_hour Scenario.buildMemoryReply
           Server.defaultConfig Scenario.orders Scenario.world 1000 2000 1
           "ORD-1" 0 "Where is my order?" (Scenario.state open ∅));
    reflexivity.
Defined.

Lemma chat_needs_a_selection_after_clear_or_logout_witness :
  Server.response
    (Server.chat Scenario.buildMemoryReply Server.defaultConfig Scenario.world
       2000 1 (Some "Where is my order?")
       (ServerOrders.state
          (ServerOrders.clearSelectedProduct 1 (Scenario.state open ∅))))
  = Server.json_400 "Select an order/product first"
  ∧ Server.response
      (Server.chat Scenario.buildMemoryReply Server.defaultConfig
         Scenario.world 2000 1 (Some "Where is my order?")
         (ServerOrders.state (ServerOrders.logout 1 (Scenario.state open ∅))))
    = Server.json_400 "Select an order/product first".
Proof.
  apply (chat_needs_a_selection_after_clear_or_logout
           Scenario.buildMemoryReply Server.defaultConfig Scenario.world
           2000 1 "Where is my order?" (Scenario.state open ∅) Scenario.alice);
    reflexivity.
Defined.

Lemma createCase_upserts_the_case_witness :
  let r := ServerOrders.createCase Scenario.orders Scenario.world 3000 1
             "ORD-1" (Some 0%Z) "payment failed" ServerOrders.domain_absent
             (Scenario.state in_progress ∅) in
  ∃ c',
    ServerOrders.status r = 200%Z
    ∧ ServerOrders.body r
      = ServerOrders.body_case "Case processed successfully" (Some c')
    ∧ Server.findOne (Server.cases (ServerOrders.state r)) 1 "ORD-1" 0
      = Some c'
    ∧ CaseDoc.description c' = "payment failed"
    ∧ CaseDoc.priority c' = Server.determinePriority "payment failed"
    ∧ CaseDoc.domain c'
      = ServerOrders.finalDomain ServerOrders.domain_absent
          (ServerOrders.p_domain Scenario.phoneProduct)
    ∧ (ServerOrders.domain_absent = ServerOrders.domain_absent
       → CaseDoc.domain c' = ECommerce)
    ∧ match Server.findOne (Server.cases (Scenario.state in_progress ∅)) 1
                           "ORD-1" 0 with
      | Some c =>
          CaseDoc._id c' = CaseDoc._id c
          ∧ CaseDoc.status c' = CaseDoc.status c
          ∧ CaseDoc.responses c' = CaseDoc.responses c
          ∧ length (Server.cases (ServerOrders.state r))
            = length (Server.cases (Scenario.state in_progress ∅))
      | None =>
          CaseDoc._id c' = Server.nextObjectId (Scenario.state in_progress ∅)
          ∧ CaseDoc.status c' = open
          ∧ CaseDoc.responses c' = []
          ∧ length (Server.cases (ServerOrders.state r))
            = S (length (Server.cases (Scenario.state in_progress ∅)))
      end.
Proof.
  apply (createCase_upserts_the_case Scenario.orders Scenario.world 3000 1
           "ORD-1" 0 "payment failed" ServerOrders.domain_absent
           (Scenario.state in_progress ∅) Scenario.alice Scenario.phoneOrder
           Scenario.phoneProduct).
  - split; [|split].
    + apply (bool_decide_unpack _). vm_compute. exact I.
    + apply (bool_decide_unpack _). vm_compute. exact I.
    + repeat (apply Forall_cons_2; [simpl; lia|]). apply Forall_nil_2.
  - reflexivity.
  - reflexivity.
  - reflexivity.
  - reflexivity.
Defined.

Lemma update_to_resolved_appends_closing_note_witness :
  let o := Server.caseUpdate Scenario.world 6000 9 Server.role_admin 7
             Scenario.resolve (Scenario.state in_progress {[ 7%N := 9000000%N ]}) in
  ∃ c',
    Server.findById (Server.cases (Server.state o)) 7 = Some c'
    ∧ Server.response o = Server.json_case "Case updated successfully" c'
    ∧ CaseDoc.status c' = resolved
    ∧ CaseDoc.responses c'
      = CaseDoc.responses (Scenario.phoneCase in_progress)
        ++ [ {| CaseDoc.adminId := Some 9%N;
                CaseDoc.message := Server.resolvedNote;
                CaseDoc.timestamp := 6000%N |} ]
    ∧ Server.isAgentOnly 6001 (Some 7%N) (Server.redis (Server.state o))
      = false
    ∧ (Server.room_user (CaseDoc.userId (Scenario.phoneCase in_progress)),
       Server.chat_reply (CaseDoc.userId (Scenario.phoneCase in_progress))
                         (CaseDoc.orderId (Scenario.phoneCase in_progress))
                         (CaseDoc.productIndex (Scenario.phoneCase in_progress))
                         (Some 7%N) Server.src_agent Server.resolvedNote 6000)
      ∈ Server.emitted o.
Proof.
  apply (update_to_resolved_appends_closing_note Scenario.world 6000 6001 9 7
           Scenario.resolve (Scenario.state in_progress {[ 7%N := 9000000%N ]})
           (Scenario.phoneCase in_progress)).
  - reflexivity.
  - left. reflexivity.
Defined.


Lemma agent_lock_lasts_thirty_minutes_witness :
  let s1 := Server.state
              (Server.caseResponse 5000 9 Server.role_admin
                 (CaseDoc._id (Scenario.phoneCase open)) (Some "We are on it")
                 (Scenario.state open ∅)) in
  let o := Server.chat Scenario.buildMemoryReply Server.defaultConfig
             Scenario.world 1805000
             (CaseDoc.userId (Scenario.phoneCase open))
             (Some "Where is my order?") s1 in
  Server.response o = Server.json_queued (CaseDoc._id (Scenario.phoneCase open))
  ↔ (1805000 < 5000 + 1800000)%N.
Proof.
  apply (agent_lock_lasts_thirty_minutes Scenario.buildMemoryReply
           Server.defaultConfig Scenario.world 5000 1805000 9
           "Where is my order?" "We are on it" (Scenario.state open ∅)
           Scenario.alice Scenario.phone (Scenario.phoneCase open));
    reflexivity.
Defined.

Lemma resolving_hands_case_back_to_automation_witness :
  let s1 := Server.state
              (Server.caseUpdate Scenario.world 6000 9 Server.role_admin
                 (CaseDoc._id (Scenario.phoneCase in_progress))
                 Scenario.resolve
                 (Scenario.state in_progress {[ 7%N := 9000000%N ]})) in
  let o := Server.chat Scenario.buildMemoryReply Server.defaultConfig
             Scenario.world 7000
             (CaseDoc.userId (Scenario.phoneCase in_progress))
             (Some "Where is my order?") s1 in
  Server.upd_status Scenario.resolve = Some resolved
  ∧ ∀ id, Server.response o ≠ Server.json_queued id.
Proof.
  split; [reflexivity|].
  apply (resolving_hands_case_back_to_automation Scenario.buildMemoryReply
           Server.defaultConfig Scenario.world Scenario.world 6000 7000 9
           "Where is my order?" Scenario.resolve
           (Scenario.state in_progress {[ 7%N := 9000000%N ]})
           Scenario.alice Scenario.phone (Scenario.phoneCase in_progress));
    try reflexivity.
  left. reflexivity.
Defined.
